(** * M.E.R.C.Y integration kit: validator, scaffolder and base class

    A shallow embedding of

    - [validate-integration.js] (the validator: rule table, phases, score),
    - [scripts/init-integration.js] and the [initIntegration] of the
      consolidated module (the two scaffolders),
    - [src/integration-template.js] (the base class, [getSetting]),

    with the properties their specification states about them.

    Texts are [string]s; one [ascii] stands for one code unit of the
    JavaScript string, so the texts covered are those whose code units are
    below 256. *)

From Stdlib Require Import ZArith NArith Ascii String List Bool Lia DecimalString.
From stdpp Require Import base option list strings gmap.

Local Open Scope Z_scope.

(** ** Characters and character classes *)

Module Chars.

Definition code (c : ascii) : N := N_of_ascii c.

Definition dquote : ascii := "034"%char.
Definition newline : ascii := "010"%char.

Definition in_range (lo hi c : ascii) : bool :=
  ((code lo <=? code c) && (code c <=? code hi))%N.

(** [\d], [a-z], [A-Z] *)
Definition digit (c : ascii) : bool := in_range "0" "9" c.
Definition lower (c : ascii) : bool := in_range "a" "z" c.
Definition upper (c : ascii) : bool := in_range "A" "Z" c.

(** [[a-zA-Z0-9]] and [[a-z0-9]] *)
Definition alnum (c : ascii) : bool := lower c || upper c || digit c.
Definition lower_or_digit (c : ascii) : bool := lower c || digit c.

(** [\s]: tab, line feed, vertical tab, form feed, carriage return, space
    and the no-break space. *)
Definition space (c : ascii) : bool :=
  existsb (N.eqb (code c)) [9; 10; 11; 12; 13; 32; 160]%N.

(** [.] matches everything but a line terminator. *)
Definition dot (c : ascii) : bool :=
  negb (existsb (N.eqb (code c)) [10; 13]%N).

(** [['"`]] and [[^'"`]] *)
Definition quote (c : ascii) : bool :=
  Ascii.eqb c "'" || Ascii.eqb c dquote || Ascii.eqb c "`".
Definition not_quote (c : ascii) : bool := negb (quote c).

(** [[a-z0-9-_]] *)
Definition id_char (c : ascii) : bool :=
  lower c || digit c || Ascii.eqb c "-" || Ascii.eqb c "_".

(** [toLowerCase] and [toUpperCase] of one code unit below 256. The
    scripts call [toUpperCase] on letters and digits of ASCII only; the
    three code units whose upper case is not one code unit below 256 (181,
    223, 255) are left as they are. *)
Definition latin_upper (c : ascii) : bool :=
  upper c || (in_range "192" "222" c && negb (N.eqb (code c) 215)).

Definition latin_lower (c : ascii) : bool :=
  lower c || (in_range "224" "254" c && negb (N.eqb (code c) 247)).

Definition toLower (c : ascii) : ascii :=
  if latin_upper c then ascii_of_N (code c + 32) else c.

Definition toUpper (c : ascii) : ascii :=
  if latin_lower c then ascii_of_N (code c - 32) else c.

End Chars.

(** ** Strings: the methods of [String.prototype] the scripts call *)

Module Str.

Fixpoint map (f : ascii -> ascii) (s : string) : string :=
  match s with
  | EmptyString => EmptyString
  | String c s' => String (f c) (map f s')
  end.

Definition toLowerCase : string -> string := map Chars.toLower.
Definition toUpperCase : string -> string := map Chars.toUpper.

(** [l] stripped from the front of [s], when [s] starts with [l] *)
Fixpoint strip (l s : string) : option string :=
  match l with
  | EmptyString => Some s
  | String a l' =>
      match s with
      | String b s' => if Ascii.eqb a b then strip l' s' else None
      | EmptyString => None
      end
  end.

(** [s.includes(sub)] *)
Fixpoint includes (sub s : string) : bool :=
  match strip sub s with
  | Some _ => true
  | None =>
      match s with
      | String _ s' => includes sub s'
      | EmptyString => false
      end
  end.

(** [s.split(sep)] for a separator of one character *)
Fixpoint split (sep : ascii) (s : string) : list string :=
  match s with
  | EmptyString => [EmptyString]
  | String c s' =>
      if Ascii.eqb c sep then EmptyString :: split sep s'
      else match split sep s' with
           | h :: t => String c h :: t
           | [] => [String c EmptyString]
           end
  end.

(** [parts.join(sep)] *)
Fixpoint join (sep : string) (parts : list string) : string :=
  match parts with
  | [] => EmptyString
  | [p] => p
  | p :: rest => p +:+ sep +:+ join sep rest
  end.

(** every character of [s] is in the class *)
Fixpoint all (class : ascii -> bool) (s : string) : bool :=
  match s with
  | EmptyString => true
  | String c s' => class c && all class s'
  end.

(** the decimal text of a length or a count *)
Definition of_nat (n : nat) : string := NilZero.string_of_uint (Nat.to_uint n).

End Str.

(** ** Regular expressions

    The fragment of the regular expression syntax the scripts use: literal
    text, one character of a class, a class under the greedy [*] or [+], the
    assertions [^] and [$], and alternation at the top. A match is searched
    the way a backtracking engine does: alternatives from left to right, a
    quantifier taking the longest run first and giving characters back. *)

Module Regex.

Inductive node :=
| Lit (text : string)
| One (class : ascii -> bool)
| Star (class : ascii -> bool)
| Plus (class : ascii -> bool)
| Bos
| Eos.

Definition regex := list (list node).

(** The continuation [k] is the rest of the pattern; [b] tells whether the
    position is still the start of the input. The result is the input left
    after the match. *)
Fixpoint star (class : ascii -> bool) (k : bool -> string -> option string)
    (b : bool) (s : string) : option string :=
  match s with
  | String c s' =>
      if class c then
        match star class k false s' with
        | Some rest => Some rest
        | None => k b s
        end
      else k b s
  | EmptyString => k b s
  end.

Fixpoint run (ns : list node) : bool -> string -> option string :=
  match ns with
  | [] => fun _ s => Some s
  | n :: ns' =>
      let k := run ns' in
      match n with
      | Lit text => fun b s =>
          match Str.strip text s with
          | Some rest => k (b && (String.length text =? 0)%nat) rest
          | None => None
          end
      | One class => fun _ s =>
          match s with
          | String c s' => if class c then k false s' else None
          | EmptyString => None
          end
      | Star class => star class k
      | Plus class => fun _ s =>
          match s with
          | String c s' => if class c then star class k false s' else None
          | EmptyString => None
          end
      | Bos => fun b s => if b then k b s else None
      | Eos => fun b s =>
          match s with
          | EmptyString => k b s
          | String _ _ => None
          end
      end
  end.

(** a match that starts at the current position *)
Fixpoint exec_here (r : regex) (b : bool) (s : string) : option string :=
  match r with
  | [] => None
  | alt :: r' =>
      match run alt b s with
      | Some rest => Some rest
      | None => exec_here r' b s
      end
  end.

(** [r.test(s)]: is there a match anywhere *)
Fixpoint search (r : regex) (b : bool) (s : string) : bool :=
  match exec_here r b s with
  | Some _ => true
  | None =>
      match s with
      | String _ s' => search r false s'
      | EmptyString => false
      end
  end.

Definition test (r : regex) (s : string) : bool := search r true s.

(** the text matched at the front of [s], given what the match left *)
Definition matched (s rest : string) : string :=
  substring 0 (String.length s - String.length rest) s.

(** All matches from left to right, none overlapping: after a match of
    [n] characters the next [n - 1] positions are skipped; after an empty
    match the search moves on by one. *)
Fixpoint scan (r : regex) (skip : nat) (b : bool) (s : string) : list string :=
  match skip, s with
  | S k, String _ s' => scan r k false s'
  | S _, EmptyString => []
  | O, _ =>
      match exec_here r b s with
      | Some rest =>
          let m := matched s rest in
          m :: match s with
               | String _ s' => scan r (Nat.pred (String.length m)) false s'
               | EmptyString => []
               end
      | None =>
          match s with
          | String _ s' => scan r 0 false s'
          | EmptyString => []
          end
      end
  end.

(** [s.match(r)] for a global [r]: the matches, or [null] when there is
    none *)
Definition match_g (r : regex) (s : string) : option (list string) :=
  match scan r 0 true s with
  | [] => None
  | ms => Some ms
  end.

(** The replacement text of [replace]: [$$] is a dollar, [$&] the match,
    [$`] the text before it, [$'] the text after it; the patterns here
    have no groups, so every other dollar stands for itself. *)
Fixpoint expand (repl before found after : string) : string :=
  match repl with
  | EmptyString => EmptyString
  | String c t =>
      if Ascii.eqb c "$" then
        match t with
        | String d t' =>
            if Ascii.eqb d "$" then String "$" (expand t' before found after)
            else if Ascii.eqb d "&" then found +:+ expand t' before found after
            else if Ascii.eqb d "`" then before +:+ expand t' before found after
            else if Ascii.eqb d "'" then after +:+ expand t' before found after
            else String c (expand t before found after)
        | EmptyString => String c EmptyString
        end
      else String c (expand t before found after)
  end.

(** [s.replace(r, repl)] for a global [r]. [seen] is the input already
    passed, last character first. *)
Fixpoint replace_go (r : regex) (repl : string) (skip : nat) (b : bool)
    (seen : list ascii) (s : string) : string :=
  match skip, s with
  | S k, String c s' => replace_go r repl k false (c :: seen) s'
  | S _, EmptyString => EmptyString
  | O, _ =>
      match exec_here r b s with
      | Some rest =>
          let m := matched s rest in
          expand repl (string_of_list_ascii (rev_append seen [])) m rest +:+
          match s with
          | String c s' =>
              (if (String.length m =? 0)%nat then String c EmptyString
               else EmptyString) +:+
              replace_go r repl (Nat.pred (String.length m)) false (c :: seen) s'
          | EmptyString => EmptyString
          end
      | None =>
          match s with
          | String c s' => String c (replace_go r repl 0 false (c :: seen) s')
          | EmptyString => EmptyString
          end
      end
  end.

Definition replace_g (r : regex) (repl s : string) : string :=
  replace_go r repl 0 true [] s.

End Regex.

Import Regex.


(** ** JavaScript values

    What [JSON.parse] returns and what the settings cache of the base class
    holds. A number is kept as the text [Number.prototype.toString] gives
    for it ([1], [0.5], [1e+21], [NaN]): the scripts look at the truth value
    and at the text of a number and never compute with one. An object
    lists its own properties in the order [Object.keys] enumerates them. *)

#[warnings="-register-all"]
Inductive value :=
| VUndefined
| VNull
| VBool (b : bool)
| VNum (text : string)
| VStr (s : string)
| VArr (elements : list value)
| VObj (properties : list (string * value)).

Module JS.

(** [ToBoolean] *)
Definition truthy (v : value) : bool :=
  match v with
  | VUndefined | VNull => false
  | VBool b => b
  | VNum text => negb (String.eqb text "0" || String.eqb text "NaN")
  | VStr s => negb (String.eqb s "")
  | VArr _ | VObj _ => true
  end.

(** [a || b] *)
Definition or (a b : value) : value := if truthy a then a else b.

Fixpoint assoc (k : string) (kvs : list (string * value)) : option value :=
  match kvs with
  | [] => None
  | (k', v) :: rest => if String.eqb k k' then Some v else assoc k rest
  end.

(** [ToString]; [None] is the [TypeError] of an object that cannot be
    converted: an object of [JSON.parse] with a property [toString] of its
    own has no callable [toString], and [valueOf] does not give a
    primitive. An array is joined with commas, [null] and [undefined]
    elements giving the empty text. *)
Fixpoint ToString (v : value) : option string :=
  match v with
  | VUndefined => Some "undefined"
  | VNull => Some "null"
  | VBool true => Some "true"
  | VBool false => Some "false"
  | VNum text => Some text
  | VStr s => Some s
  | VArr elements =>
      (fix elems (l : list value) : option string :=
         match l with
         | [] => Some EmptyString
         | x :: rest =>
             match (match x with
                    | VUndefined | VNull => Some EmptyString
                    | _ => ToString x
                    end) with
             | None => None
             | Some t =>
                 match rest with
                 | [] => Some t
                 | _ :: _ =>
                     match elems rest with
                     | Some ts => Some (t +:+ "," +:+ ts)
                     | None => None
                     end
                 end
             end
         end) elements
  | VObj properties =>
      match assoc "toString" properties with
      | Some _ => None
      | None => Some "[object Object]"
      end
  end.

(** [Object.keys(v)] of a value that is not [null] or [undefined] *)
Definition keys (v : value) : list string :=
  match v with
  | VObj properties => List.map fst properties
  | VArr elements => List.map Str.of_nat (seq 0 (List.length elements))
  | VStr s => List.map Str.of_nat (seq 0 (String.length s))
  | _ => []
  end.

(** [list.includes(v)] for a list of strings *)
Definition includes (l : list string) (v : value) : bool :=
  match v with
  | VStr s => existsb (String.eqb s) l
  | _ => false
  end.

(** [v !== s] for a string literal [s] *)
Definition differs (v : value) (s : string) : bool :=
  match v with
  | VStr t => negb (String.eqb t s)
  | _ => true
  end.

End JS.

(** ** The validation result and the statements that change it *)

Record Results := {
  errors : list string;
  warnings : list string;
  score : Z;
  isValid : bool
}.

(** how a block of statements ends *)
Inductive outcome (A : Type) :=
| Returned (a : A)
| Thrown (message : string).
Arguments Returned {A} a.
Arguments Thrown {A} message.

(** A block of the validator: it changes [results] in place and returns or
    throws; what it did to [results] before it threw stays done. *)
Definition M (A : Type) : Type := Results -> Results * outcome A.

#[export] Instance M_ret : MRet M := fun A a r => (r, Returned a).

#[export] Instance M_bind : MBind M := fun A B f m r =>
  match m r with
  | (r', Returned a) => f a r'
  | (r', Thrown message) => (r', Thrown message)
  end.

Definition throw {A} (message : string) : M A := fun r => (r, Thrown message).

(** [try { body } catch (error) { handler }] *)
Definition try_catch (body : M unit) (handler : string -> M unit) : M unit :=
  fun r =>
    match body r with
    | (r', Returned a) => (r', Returned a)
    | (r', Thrown message) => handler message r'
    end.

(** [for (const x of l) { body }] *)
Fixpoint for_of {A} (l : list A) (body : A -> M unit) : M unit :=
  match l with
  | [] => mret tt
  | x :: rest => body x ;; for_of rest body
  end.

Definition when (b : bool) (body : M unit) : M unit :=
  if b then body else mret tt.

(** [results.errors.push(message)] *)
Definition errors_push (message : string) : M unit := fun r =>
  ({| errors := errors r ++ [message]; warnings := warnings r;
      score := score r; isValid := isValid r |}, Returned tt).

(** [results.warnings.push(message)] *)
Definition warnings_push (message : string) : M unit := fun r =>
  ({| errors := errors r; warnings := warnings r ++ [message];
      score := score r; isValid := isValid r |}, Returned tt).

(** [results.score -= points] *)
Definition score_minus (points : Z) : M unit := fun r =>
  ({| errors := errors r; warnings := warnings r;
      score := score r - points; isValid := isValid r |}, Returned tt).

(** [results.errors.length === 0 || results.errors.every(e => !e.includes(path))] *)
Definition no_error_mentions (path : string) : M bool := fun r =>
  (r, Returned ((List.length (errors r) =? 0)%nat
                || forallb (fun e => negb (Str.includes path e)) (errors r))).

(** [v[k]], which throws on [null] and [undefined]. The property names the
    validator reads are no properties of the prototypes, so a value that is
    not an object with that property gives [undefined]. *)
Definition get (v : value) (k : string) : M value :=
  match v with
  | VNull => throw ("Cannot read properties of null (reading '" +:+ k +:+ "')")
  | VUndefined => throw ("Cannot read properties of undefined (reading '" +:+ k +:+ "')")
  | VObj properties => mret (default VUndefined (JS.assoc k properties))
  | _ => mret VUndefined
  end.

Definition to_string (v : value) : M string :=
  match JS.ToString v with
  | Some t => mret t
  | None => throw "Cannot convert object to primitive value"
  end.

(** ** The integration directory, as the validator reads it *)

(** A path: nothing there, something that cannot be read as a file (a
    directory, a file without read permission), or a file. *)
Inductive file (A : Type) :=
| Missing
| Unreadable (message : string)
| Content (a : A).
Arguments Missing {A}.
Arguments Unreadable {A} message.
Arguments Content {A} a.

(** What [JSON.parse] makes of the text of a file: a [SyntaxError] or a
    value. *)
Inductive parsed :=
| SyntaxError (message : string)
| Json (v : value).

Record Project := {
  cwd : string;                              (* [process.cwd()], printed only *)
  mercy_integration_json : file parsed;      (* [mercy-integration.json] *)
  package_json : file parsed;                (* [package.json] *)
  src_integration_js : file string;          (* [src/integration.js] *)
  README_md : file string;                   (* [README.md] *)
  test_dir : bool;                           (* is there a [test] *)
  others : list (string * file string)       (* the rest of the directory *)
}.

Definition present {A} (f : file A) : bool :=
  match f with
  | Missing => false
  | _ => true
  end.

Definition ENOENT (path : string) : string :=
  "ENOENT: no such file or directory, open '" +:+ path +:+ "'".

(** [await fs.access(path)] for the five paths the validator asks for *)
Definition fs_access (p : Project) (path : string) : M unit :=
  let found :=
    if String.eqb path "mercy-integration.json" then present (mercy_integration_json p)
    else if String.eqb path "package.json" then present (package_json p)
    else if String.eqb path "src/integration.js" then present (src_integration_js p)
    else if String.eqb path "README.md" then present (README_md p)
    else if String.eqb path "test" then test_dir p
    else false in
  if found then mret tt
  else throw ("ENOENT: no such file or directory, access '" +:+ path +:+ "'").

(** [await fs.readFile(path, 'utf8')] *)
Definition readFile (path : string) (f : file string) : M string :=
  match f with
  | Missing => throw (ENOENT path)
  | Unreadable message => throw message
  | Content text => mret text
  end.

(** [JSON.parse(await fs.readFile(path, 'utf8'))] *)
Definition readFile_JSON_parse (path : string) (f : file parsed) : M value :=
  match f with
  | Missing => throw (ENOENT path)
  | Unreadable message => throw message
  | Content (SyntaxError message) => throw message
  | Content (Json v) => mret v
  end.

(** ** The tables of the validator *)

(** the three severities of the table *)
Inductive Severity := critical | high | medium.

Record rule := {
  pattern : regex;
  severity : Severity;
  message : string
}.

Definition severity_name (s : Severity) : string :=
  match s with
  | critical => "critical"
  | high => "high"
  | medium => "medium"
  end.

Import Chars.

Definition SECURITY_PATTERNS : list rule := [
  {| pattern := [[Lit "require"; Star space; Lit "("; Star space; One quote;
                  Lit "child_process"; One quote; Star space; Lit ")"]];
     severity := critical; message := "Child process access forbidden" |};
  {| pattern := [[Lit "import"; Plus space; Star dot; Plus space; Lit "from";
                  Plus space; One quote; Lit "child_process"; One quote]];
     severity := critical; message := "Child process import forbidden" |};
  {| pattern := [[Lit "process.env"]];
     severity := critical; message := "Environment variable access forbidden" |};
  {| pattern := [[Lit "eval"; Star space; Lit "("]];
     severity := critical; message := "Code evaluation forbidden" |};
  {| pattern := [[Lit "new"; Plus space; Lit "Function"; Star space; Lit "("]];
     severity := critical; message := "Function constructor forbidden" |};
  {| pattern := [[Lit ".exec"; Star space; Lit "("]];
     severity := high; message := "Process execution forbidden" |};
  {| pattern := [[Lit ".spawn"; Star space; Lit "("]];
     severity := high; message := "Process spawning forbidden" |};
  {| pattern := [[Lit "fs.writeFile"]];
     severity := high; message := "File writing forbidden (use provided APIs)" |};
  {| pattern := [[Lit "fs.unlink"]];
     severity := high; message := "File deletion forbidden" |};
  {| pattern := [[Lit "fs.rmdir"]];
     severity := high; message := "Directory deletion forbidden" |};
  {| pattern := [[Lit "require"; Star space; Lit "("; Star space; One quote;
                  Lit "fs"; One quote; Star space; Lit ")"]];
     severity := medium; message := "Direct filesystem access discouraged" |};
  {| pattern := [[Lit "setTimeout"; Star space; Lit "("; Star space; One quote;
                  Star not_quote; One quote; Star space; Lit ","]];
     severity := medium; message := "String-based setTimeout forbidden" |};
  {| pattern := [[Lit "setInterval"; Star space; Lit "("; Star space; One quote;
                  Star not_quote; One quote; Star space; Lit ","]];
     severity := medium; message := "String-based setInterval forbidden" |};
  {| pattern := [[Lit "while"; Star space; Lit "("; Star space; Lit "true";
                  Star space; Lit ")"]];
     severity := medium; message := "Infinite loops detected" |};
  {| pattern := [[Lit "for"; Star space; Lit "("; Star space; Lit ";;";
                  Star space; Lit ")"]];
     severity := medium; message := "Infinite loops detected" |}
].

Definition REQUIRED_FILES : list string :=
  ["mercy-integration.json"; "package.json"; "src/integration.js"; "README.md"].

Definition REQUIRED_CONFIG_FIELDS : list string :=
  ["id"; "name"; "version"; "description"; "category"; "developer"].

(** [/^\d+\.\d+\.\d+$/] *)
Definition version_format : regex :=
  [[Bos; Plus digit; Lit "."; Plus digit; Lit "."; Plus digit; Eos]].

(** [/^[a-z0-9-_]+$/] *)
Definition id_format : regex := [[Bos; Plus id_char; Eos]].

(** [/function|=>/g] *)
Definition function_or_arrow : regex := [[Lit "function"]; [Lit "=>"]].

Definition validCategories : list string :=
  ["moderation"; "utility"; "entertainment"; "automation"; "analytics"; "security"].

Definition allowedDeps : list string :=
  ["discord.js"; "axios"; "lodash"; "moment"; "uuid"].

(** ** [validateIntegration], phase by phase *)

Definition initial : Results :=
  {| errors := []; warnings := []; score := 100; isValid := true |}.

(** the required files *)
Definition file_structure (p : Project) : M unit :=
  for_of REQUIRED_FILES (fun file =>
    try_catch (fs_access p file)
      (fun _ =>
         errors_push ("Missing required file: " +:+ file) ;;
         score_minus 20)).

(** the blocks of the configuration phase, in the order of the source *)
Definition field_check (config : value) (field : string) : M unit :=
  v ← get config field;
  when (negb (JS.truthy v))
    (errors_push ("Missing required config field: " +:+ field) ;;
     score_minus 10).

Definition required_fields (config : value) : M unit :=
  for_of REQUIRED_CONFIG_FIELDS (field_check config).

Definition version_check (config : value) : M unit :=
  version ← get config "version";
  when (JS.truthy version)
    (text ← to_string version;
     when (negb (test version_format text))
       (warnings_push "Invalid version format, use semantic versioning (x.y.z)" ;;
        score_minus 5)).

Definition id_check (config : value) : M unit :=
  id ← get config "id";
  when (JS.truthy id)
    (text ← to_string id;
     when (negb (test id_format text))
       (errors_push "Invalid ID format, use lowercase letters, numbers, hyphens, and underscores only" ;;
        score_minus 15)).

Definition category_check (config : value) : M unit :=
  category ← get config "category";
  when (JS.truthy category && negb (JS.includes validCategories category))
    (text ← to_string category;
     warnings_push ("Invalid category: " +:+ text +:+ ". Use one of: "
                    +:+ Str.join ", " validCategories) ;;
     score_minus 5).

(** [mercy-integration.json] *)
Definition configuration (p : Project) : M unit :=
  go ← no_error_mentions "mercy-integration.json";
  when go
    (try_catch
       (config ← readFile_JSON_parse "mercy-integration.json" (mercy_integration_json p);
        required_fields config ;;
        version_check config ;;
        id_check config ;;
        category_check config)
       (fun error_message =>
          errors_push ("Invalid mercy-integration.json: " +:+ error_message) ;;
          score_minus 25)).

(** [package.json] *)
Definition package (p : Project) : M unit :=
  go ← no_error_mentions "package.json";
  when go
    (try_catch
       (pkg ← readFile_JSON_parse "package.json" (package_json p);
        name ← get pkg "name";
        when (negb (JS.truthy name))
          (warnings_push "Missing package name" ;; score_minus 5) ;;
        version ← get pkg "version";
        when (negb (JS.truthy version))
          (warnings_push "Missing package version" ;; score_minus 5) ;;
        type ← get pkg "type";
        when (JS.differs type "module")
          (warnings_push ("Package should use ES modules (type: "
                          +:+ String dquote "module" +:+ String dquote ")") ;;
           score_minus 5) ;;
        dependencies ← get pkg "dependencies";
        when (JS.truthy dependencies)
          (for_of (JS.keys dependencies) (fun dep =>
             when (negb (existsb (String.eqb dep) allowedDeps))
               (errors_push ("Unauthorized dependency: " +:+ dep) ;;
                score_minus 15))))
       (fun error_message =>
          errors_push ("Invalid package.json: " +:+ error_message) ;;
          score_minus 20)).

(** one rule of the table against the source text *)
Definition apply_rule (codeData : string) (r : rule) : M unit :=
  match match_g (pattern r) codeData with
  | Some matches =>
      let instances := " (" +:+ Str.of_nat (List.length matches) +:+ " instances)" in
      match severity r with
      | critical =>
          errors_push ("CRITICAL: " +:+ message r +:+ instances) ;;
          score_minus 30
      | high =>
          errors_push ("HIGH: " +:+ message r +:+ instances) ;;
          score_minus 20
      | medium =>
          warnings_push (Str.toUpperCase (severity_name (severity r)) +:+ ": "
                         +:+ message r +:+ instances) ;;
          score_minus 10
      end
  | None => mret tt
  end.

(** [lines + functions * 2] *)
Definition complexity (codeData : string) : nat :=
  let lines := List.length (Str.split newline codeData) in
  let functions := List.length (default [] (match_g function_or_arrow codeData)) in
  (lines + functions * 2)%nat.

Definition complexity_check (codeData : string) : M unit :=
  when (1000 <? complexity codeData)%nat
    (warnings_push ("High code complexity: " +:+ Str.of_nat (complexity codeData)
                    +:+ " (consider simplifying)") ;;
     score_minus 10).

(** the structure of the source and its complexity *)
Definition code_structure (codeData : string) : M unit :=
  when (negb (Str.includes "export default class" codeData))
    (errors_push "Integration must export a default class" ;; score_minus 25) ;;
  when (negb (Str.includes "async onLoad()" codeData))
    (warnings_push "Integration should implement onLoad() method" ;; score_minus 5) ;;
  complexity_check codeData.

(** what the validator does with the text of [src/integration.js] *)
Definition security_analysis (codeData : string) : M unit :=
  for_of SECURITY_PATTERNS (apply_rule codeData) ;;
  code_structure codeData.

(** [src/integration.js] *)
Definition integration_code (p : Project) : M unit :=
  go ← no_error_mentions "src/integration.js";
  when go
    (try_catch
       (codeData ← readFile "src/integration.js" (src_integration_js p);
        security_analysis codeData)
       (fun error_message =>
          errors_push ("Cannot read integration code: " +:+ error_message) ;;
          score_minus 30)).

(** the README and the tests *)
Definition additional (p : Project) : M unit :=
  try_catch
    (readme ← readFile "README.md" (README_md p);
     when (String.length readme <? 100)%nat
       (warnings_push "README.md is very short, consider adding more documentation" ;;
        score_minus 5))
    (fun _ => mret tt) ;;
  try_catch (fs_access p "test")
    (fun _ =>
       warnings_push "No test directory found, consider adding tests" ;;
       score_minus 5).

(** [results.isValid = results.errors.length === 0 && results.score >= 70] *)
Definition final : M unit := fun r =>
  ({| errors := errors r; warnings := warnings r; score := score r;
      isValid := (List.length (errors r) =? 0)%nat && (70 <=? score r) |},
   Returned tt).

Definition phases (p : Project) : M unit :=
  file_structure p ;;
  configuration p ;;
  package p ;;
  integration_code p ;;
  additional p ;;
  final.

(** The result of a run in a directory. *)
Definition validateIntegration (p : Project) : Results :=
  fst (phases p initial).

(** ** The script, as the process runs it

    What a run observes of its surroundings: how [process.cwd()] ends, and
    how [fs.access(path)], [fs.readFile(path, 'utf8')] and [JSON.parse] of
    what [fs.readFile] gives end, for any path. The statements are those of
    [validateIntegration] in the order of the source, each read by its
    path. *)
Module Script.

Record Env := {
  process_cwd : outcome string;
  access : string -> outcome unit;
  read : string -> outcome string;
  read_JSON : string -> outcome value
}.

(** [await] of a call that ends as [o] *)
Definition await {A} (o : outcome A) : M A := fun r => (r, o).

Definition file_structure (env : Env) : M unit :=
  for_of REQUIRED_FILES (fun file =>
    try_catch (await (access env file))
      (fun _ =>
         errors_push ("Missing required file: " +:+ file) ;;
         score_minus 20)).

Definition configuration (env : Env) : M unit :=
  go ← no_error_mentions "mercy-integration.json";
  when go
    (try_catch
       (config ← await (read_JSON env "mercy-integration.json");
        required_fields config ;;
        version_check config ;;
        id_check config ;;
        category_check config)
       (fun error_message =>
          errors_push ("Invalid mercy-integration.json: " +:+ error_message) ;;
          score_minus 25)).

Definition package (env : Env) : M unit :=
  go ← no_error_mentions "package.json";
  when go
    (try_catch
       (pkg ← await (read_JSON env "package.json");
        name ← get pkg "name";
        when (negb (JS.truthy name))
          (warnings_push "Missing package name" ;; score_minus 5) ;;
        version ← get pkg "version";
        when (negb (JS.truthy version))
          (warnings_push "Missing package version" ;; score_minus 5) ;;
        type ← get pkg "type";
        when (JS.differs type "module")
          (warnings_push ("Package should use ES modules (type: "
                          +:+ String dquote "module" +:+ String dquote ")") ;;
           score_minus 5) ;;
        dependencies ← get pkg "dependencies";
        when (JS.truthy dependencies)
          (for_of (JS.keys dependencies) (fun dep =>
             when (negb (existsb (String.eqb dep) allowedDeps))
               (errors_push ("Unauthorized dependency: " +:+ dep) ;;
                score_minus 15))))
       (fun error_message =>
          errors_push ("Invalid package.json: " +:+ error_message) ;;
          score_minus 20)).

Definition integration_code (env : Env) : M unit :=
  go ← no_error_mentions "src/integration.js";
  when go
    (try_catch
       (codeData ← await (read env "src/integration.js");
        security_analysis codeData)
       (fun error_message =>
          errors_push ("Cannot read integration code: " +:+ error_message) ;;
          score_minus 30)).

Definition additional (env : Env) : M unit :=
  try_catch
    (readme ← await (read env "README.md");
     when (String.length readme <? 100)%nat
       (warnings_push "README.md is very short, consider adding more documentation" ;;
        score_minus 5))
    (fun _ => mret tt) ;;
  try_catch (await (access env "test"))
    (fun _ =>
       warnings_push "No test directory found, consider adding tests" ;;
       score_minus 5).

(** the body of the outer [try], after [process.cwd()] *)
Definition phases (env : Env) : M unit :=
  file_structure env ;;
  configuration env ;;
  package env ;;
  integration_code env ;;
  additional env ;;
  final.

(** [validateIntegration()]: the result object when the process ends, and
    its exit code. [process.cwd()] stands in the outer [try] before the
    first phase; when it throws, the outer [catch] ends the process with 1
    and the result object is as it was made. The process also ends with 1
    after a verdict that is negative, and with 0 otherwise. *)
Definition validateIntegration (env : Env) : Results * Z :=
  match process_cwd env with
  | Thrown _ => (initial, 1)
  | Returned _ =>
      match phases env initial with
      | (r, Returned _) => (r, if isValid r then 0 else 1)
      | (r, Thrown _) => (r, 1)
      end
  end.

End Script.

(** ** The scaffolders *)

(** [toPascalCase] *)
Definition capitalize (word : string) : string :=
  match word with
  | EmptyString => EmptyString
  | String c rest => String (Chars.toUpper c) (Str.toLowerCase rest)
  end.

Definition toPascalCase (str : string) : string :=
  Str.join ""
    (List.map capitalize
       (List.filter (fun word => (0 <? String.length word)%nat)
          (Str.split " "
             (replace_g [[One (fun c => negb (alnum c))]] " " str)))).

(** [name.toLowerCase().replace(/[^a-z0-9]/g, '-')], the id offered at the
    prompt *)
Definition default_id (name : string) : string :=
  replace_g [[One (fun c => negb (lower_or_digit c))]] "-" (Str.toLowerCase name).

(** [await ask(...) || default]: the answer, or the default for an empty
    answer *)
Definition integration_id (answer name : string) : string :=
  if (String.length answer =? 0)%nat then default_id name else answer.

(** The text of [src/integration-template.js]. The four characters before
    the title on its line 233 are kept as the bytes of the file; no check
    looks at them. *)
Definition integration_template : string :=
"import { EmbedBuilder } from 'discord.js';

/**
 * M.E.R.C.Y Integration Template
 * 
 * This is the base template for creating M.E.R.C.Y integrations.
 * Replace this template with your integration logic.
 * 
 * IMPORTANT: Do not modify the export structure or class name.
 */

export default class IntegrationTemplate {
    constructor(config) {
        this.config = config;
        this.client = null; // Will be injected by M.E.R.C.Y
        this.guild = null; // Will be injected by M.E.R.C.Y
        this.settings = new Map(); // Integration-specific settings
        this.version = '1.0.0';
    }

    /**
     * Called when integration is loaded and activated
     * Use this method for initialization logic
     */
    async onLoad() {
        console.log(`[${this.config.name}] Integration loaded successfully`);
        
        // Initialize integration settings
        await this.loadSettings();
        
        // Perform any setup tasks
        await this.initialize();
        
        return true;
    }

    /**
     * Called when integration is unloaded or disabled
     * Use this method for cleanup tasks
     */
    async onUnload() {
        console.log(`[${this.config.name}] Integration unloaded`);
        
        // Clean up resources
        await this.cleanup();
        
        return true;
    }

    /**
     * Initialize the integration
     * Override this method with your initialization logic
     */
    async initialize() {
        // Example initialization
        this.startTime = Date.now();
        this.commandCount = 0;
        this.eventCount = 0;
    }

    /**
     * Clean up resources
     * Override this method with your cleanup logic
     */
    async cleanup() {
        // Example cleanup
        this.commandCount = 0;
        this.eventCount = 0;
    }

    /**
     * Load integration settings from database
     */
    async loadSettings() {
        try {
            const savedSettings = await this.getStoredSettings();
            if (savedSettings) {
                this.settings = new Map(Object.entries(savedSettings));
            } else {
                // Load default settings from config
                this.settings = new Map(Object.entries(this.config.defaultSettings || {}));
            }
        } catch (error) {
            console.error(`[${this.config.name}] Failed to load settings:`, error);
            this.settings = new Map();
        }
    }

    /**
     * Save integration settings to database
     */
    async saveSettings() {
        try {
            const settingsObject = Object.fromEntries(this.settings);
            await this.updateStoredSettings(settingsObject);
        } catch (error) {
            console.error(`[${this.config.name}] Failed to save settings:`, error);
        }
    }

    /**
     * Handle Discord message events
     * Override this method to process messages
     */
    async onMessage(message) {
        // Example message handling
        this.eventCount++;
        
        // Don't process bot messages
        if (message.author.bot) return;
        
        // Example: respond to mentions
        if (message.mentions.has(this.client.user)) {
            await this.handleMention(message);
        }
    }

    /**
     * Handle member join events
     * Override this method to process new members
     */
    async onMemberJoin(member) {
        this.eventCount++;
        
        // Example member join handling
        const welcomeChannel = this.settings.get('welcomeChannel');
        const welcomeMessage = this.settings.get('welcomeMessage') || 'Welcome to the server!';
        
        if (welcomeChannel) {
            const channel = this.guild.channels.cache.get(welcomeChannel);
            if (channel) {
                await channel.send({
                    content: welcomeMessage.replace('{user}', member.toString()),
                    embeds: [this.createWelcomeEmbed(member)]
                });
            }
        }
    }

    /**
     * Handle member leave events
     * Override this method to process member departures
     */
    async onMemberLeave(member) {
        this.eventCount++;
        
        // Example member leave handling
        console.log(`[${this.config.name}] Member left: ${member.user.tag}`);
    }

    /**
     * Handle moderation actions
     * Override this method to process moderation events
     */
    async onModerationAction(action) {
        this.eventCount++;
        
        // Example moderation action handling
        console.log(`[${this.config.name}] Moderation action: ${action.type} by ${action.moderator.tag} on ${action.target.tag}`);
    }

    /**
     * Handle Discord interactions (slash commands, buttons, etc.)
     * Override this method to process interactions
     */
    async onInteraction(interaction) {
        this.commandCount++;
        
        if (interaction.isChatInputCommand()) {
            await this.handleSlashCommand(interaction);
        } else if (interaction.isButton()) {
            await this.handleButton(interaction);
        } else if (interaction.isStringSelectMenu()) {
            await this.handleSelectMenu(interaction);
        }
    }

    /**
     * Handle slash commands
     * Override this method to implement custom commands
     */
    async handleSlashCommand(interaction) {
        // Example command handling
        if (interaction.commandName === 'integration-stats') {
            await this.sendStats(interaction);
        }
    }

    /**
     * Handle button interactions
     * Override this method to implement button responses
     */
    async handleButton(interaction) {
        // Example button handling
        console.log(`[${this.config.name}] Button pressed: ${interaction.customId}`);
        await interaction.reply({ content: 'Button handled!', ephemeral: true });
    }

    /**
     * Handle select menu interactions
     * Override this method to implement select menu responses
     */
    async handleSelectMenu(interaction) {
        // Example select menu handling
        console.log(`[${this.config.name}] Select menu: ${interaction.customId}, values: ${interaction.values}`);
        await interaction.reply({ content: 'Selection processed!', ephemeral: true });
    }

    /**
     * Handle mention responses
     */
    async handleMention(message) {
        const embed = new EmbedBuilder()
            .setColor('#6366f1')
            .setTitle(`${this.config.name} Integration`)
            .setDescription('This is an example response from a M.E.R.C.Y integration!')
            .addFields(
                { name: 'Version', value: this.version, inline: true },
                { name: 'Uptime', value: this.getUptime(), inline: true },
                { name: 'Events Processed', value: this.eventCount.toString(), inline: true }
            )
            .setTimestamp();

        await message.reply({ embeds: [embed] });
    }

    /**
     * Send integration statistics
     */
    async sendStats(interaction) {
        const embed = new EmbedBuilder()
            .setColor('#10b981')
            .setTitle(`ðŸ“Š ${this.config.name} Statistics`)
            .addFields(
                { name: 'Commands Executed', value: this.commandCount.toString(), inline: true },
                { name: 'Events Processed', value: this.eventCount.toString(), inline: true },
                { name: 'Uptime', value: this.getUptime(), inline: true }
            )
            .setFooter({ text: 'M.E.R.C.Y Integration Statistics' })
            .setTimestamp();

        await interaction.reply({ embeds: [embed], ephemeral: true });
    }

    /**
     * Create welcome embed for new members
     */
    createWelcomeEmbed(member) {
        return new EmbedBuilder()
            .setColor('#00ff00')
            .setTitle('Welcome!')
            .setDescription(`Welcome to ${this.guild.name}, ${member.user.tag}!`)
            .setThumbnail(member.user.displayAvatarURL())
            .addFields(
                { name: 'Member #', value: this.guild.memberCount.toString(), inline: true },
                { name: 'Account Created', value: `<t:${Math.floor(member.user.createdTimestamp / 1000)}:R>`, inline: true }
            )
            .setTimestamp();
    }

    /**
     * Get integration uptime
     */
    getUptime() {
        const uptime = Date.now() - this.startTime;
        const hours = Math.floor(uptime / (1000 * 60 * 60));
        const minutes = Math.floor((uptime % (1000 * 60 * 60)) / (1000 * 60));
        return `${hours}h ${minutes}m`;
    }

    /**
     * Get setting value
     */
    getSetting(key, defaultValue = null) {
        return this.settings.get(key) || defaultValue;
    }

    /**
     * Set setting value
     */
    async setSetting(key, value) {
        this.settings.set(key, value);
        await this.saveSettings();
    }

    /**
     * Log integration event
     */
    async logEvent(event, data = {}) {
        try {
            await this.createLogEntry({
                integration: this.config.name,
                event,
                data,
                timestamp: new Date(),
                guild: this.guild.id
            });
        } catch (error) {
            console.error(`[${this.config.name}] Failed to log event:`, error);
        }
    }

    // ========================================
    // M.E.R.C.Y API METHODS
    // These methods are injected by the M.E.R.C.Y system
    // Do not implement these - they will be overridden
    // ========================================

    /**
     * Get stored settings from M.E.R.C.Y database
     */
    async getStoredSettings() {
        // Implemented by M.E.R.C.Y
        throw new Error('Method must be implemented by M.E.R.C.Y system');
    }

    /**
     * Update stored settings in M.E.R.C.Y database
     */
    async updateStoredSettings(settings) {
        // Implemented by M.E.R.C.Y
        throw new Error('Method must be implemented by M.E.R.C.Y system');
    }

    /**
     * Create log entry in M.E.R.C.Y system
     */
    async createLogEntry(entry) {
        // Implemented by M.E.R.C.Y
        throw new Error('Method must be implemented by M.E.R.C.Y system');
    }

    /**
     * Send webhook notification
     */
    async sendWebhook(webhookUrl, data) {
        // Implemented by M.E.R.C.Y
        throw new Error('Method must be implemented by M.E.R.C.Y system');
    }

    /**
     * Get server configuration
     */
    async getServerConfig() {
        // Implemented by M.E.R.C.Y
        throw new Error('Method must be implemented by M.E.R.C.Y system');
    }

    /**
     * Check user permissions
     */
    async checkPermissions(userId, permissions) {
        // Implemented by M.E.R.C.Y
        throw new Error('Method must be implemented by M.E.R.C.Y system');
    }
}".

(** [scripts/init-integration.js]: the template, with the class name and
    the name of the integration put in. *)
Definition integration_js_copied (name : string) : string :=
  let template := integration_template in
  let template := replace_g [[Lit "IntegrationTemplate"]] (toPascalCase name) template in
  let template := replace_g [[Lit "this.config.name"]]
                    (String dquote name +:+ String dquote "") template in
  template.

(** The consolidated module: [integrationCode], a class that extends the
    base class. *)
Definition integration_js_emitted (name description : string) : string :=
  "import { IntegrationTemplate } from '../mercy.js';

/**
 * "
  +:+ name
  +:+ " Integration
 * "
  +:+ description
  +:+ "
 */
export default class "
  +:+ toPascalCase name
  +:+ " extends IntegrationTemplate {
    constructor(config) {
        super(config);
    }

    async initialize() {
        await super.initialize();
        
        // Add your initialization logic here
        console.log('["
  +:+ name
  +:+ "] Initialized successfully');
    }

    async onMessage(message) {
        await super.onMessage(message);
        
        // Add your message handling logic here
    }

    async onMemberJoin(member) {
        await super.onMemberJoin(member);
        
        // Add your member join logic here
    }

    // Override other methods as needed
}
".

(** ** The base class *)

Module IntegrationTemplate.

(** The fields of an instance that the settings accessors use. The keys of
    the settings cache are the property names of the stored settings. *)
Record instance := {
  config : value;
  settings : gmap string value;
  version : string
}.

(** [new IntegrationTemplate(config)] *)
Definition constructor (config : value) : instance :=
  {| config := config; settings := ∅; version := "1.0.0" |}.

(** a parameter with the default [= null]: [undefined] gives the default *)
Definition or_null (argument : value) : value :=
  match argument with
  | VUndefined => VNull
  | v => v
  end.

(** [this.settings.get(key)] *)
Definition settings_get (this : instance) (key : string) : value :=
  default VUndefined (settings this !! key).

(** [getSetting(key, defaultValue = null)] *)
Definition getSetting (this : instance) (key : string) (defaultValue : value) : value :=
  let defaultValue := or_null defaultValue in
  JS.or (settings_get this key) defaultValue.

(** [this.settings.set(key, value)], the first statement of [setSetting] *)
Definition settings_set (this : instance) (key : string) (v : value) : instance :=
  {| config := config this; settings := <[key := v]> (settings this);
     version := version this |}.

End IntegrationTemplate.

(** ** What [initIntegration] writes

    The two scaffolders ask the same questions and write the same files;
    they differ in the [validate] script of the manifest and in the source
    file. *)

Module Scaffold.

(** the answers at the prompts, as [ask] returns them *)
Record Answers := {
  name : string;
  id_answer : string;
  description : string;
  category : string;
  developerName : string;
  developerEmail : string;
  githubUrl : string
}.

(** [const id = await ask(...) || name.toLowerCase().replace(...)] *)
Definition id (a : Answers) : string := integration_id (id_answer a) (name a).

(** [packageJson]; [validate] is the text of its [validate] script *)
Definition packageJson (validate : string) (a : Answers) : value :=
  VObj [("name", VStr (id a));
        ("version", VStr "1.0.0");
        ("description", VStr (description a));
        ("main", VStr "src/integration.js");
        ("type", VStr "module");
        ("scripts", VObj [("test", VStr "node test/test-integration.js");
                          ("validate", VStr validate);
                          ("package", VStr "node ../scripts/package-integration.js")]);
        ("dependencies", VObj [("discord.js", VStr "^14.14.1");
                               ("axios", VStr "^1.6.0");
                               ("lodash", VStr "^4.17.21");
                               ("moment", VStr "^2.29.4");
                               ("uuid", VStr "^9.0.1")]);
        ("author", VStr (developerName a +:+ " <" +:+ developerEmail a +:+ ">"));
        ("license", VStr "MIT");
        ("mercy", VObj [("integrationId", VStr (id a)); ("version", VStr "1.0.0")])].

(** [integrationConfig] *)
Definition integrationConfig (a : Answers) : value :=
  VObj [("id", VStr (id a));
        ("name", VStr (name a));
        ("version", VStr "1.0.0");
        ("description", VStr (description a));
        ("category", VStr (if (String.length (category a) =? 0)%nat then "utility"
                           else category a));
        ("developer",
         VObj ([("name", VStr (developerName a)); ("email", VStr (developerEmail a))]
               ++ (if (String.length (githubUrl a) =? 0)%nat then []
                   else [("github", VStr (githubUrl a))])));
        ("repository", VObj [("url", VStr ""); ("branch", VStr "main")]);
        ("permissions", VArr [VStr "ViewChannel"; VStr "SendMessages"; VStr "EmbedLinks"]);
        ("events", VArr [VStr "messageCreate"; VStr "interactionCreate"]);
        ("settings",
         VObj [("enabled", VObj [("type", VStr "boolean"); ("default", VBool true);
                                 ("description", VStr "Enable/disable the integration")]);
               ("prefix", VObj [("type", VStr "string"); ("default", VStr "!");
                                ("description", VStr "Command prefix for this integration")])]);
        ("flags", VObj [("premium", VBool false); ("experimental", VBool false);
                        ("beta", VBool false)])].

(** [readme] *)
Definition readme (a : Answers) : string :=
  "# "
  +:+ name a
  +:+ "

"
  +:+ description a
  +:+ "

## Installation

1. Install dependencies:
   ```bash
   npm install
   ```

2. Test your integration:
   ```bash
   npm test
   ```

3. Validate integration:
   ```bash
   npm run validate
   ```

## Configuration

This integration supports the following settings:

- **enabled**: Enable/disable the integration
- **prefix**: Command prefix for this integration

## Commands

(Add your commands here)

## Events

This integration responds to the following Discord events:

- `messageCreate`: Processes new messages
- `interactionCreate`: Handles slash commands and interactions

## Development

### Testing

Run tests with:
```bash
npm test
```

### Validation

Validate your integration code:
```bash
npm run validate
```

### Packaging

Package for submission:
```bash
npm run package
```

## Support

- **Developer**: "
  +:+ developerName a
  +:+ "
- **Email**: "
  +:+ developerEmail a
  +:+ "
"
  +:+ (if (String.length (githubUrl a) =? 0)%nat then ""
       else "- **GitHub**: " +:+ githubUrl a)
  +:+ "

## License

MIT License - see LICENSE file for details.
".

(** The directory after [initIntegration], as the validator run in it
    finds it: the two JSON files are read back as the objects that were
    written, and [test] is there. [LICENSE] and the test file are written
    too; the validator does not read them. *)
Definition directory (validate source : string) (a : Answers) : Project :=
  {| cwd := id a;
     mercy_integration_json := Content (Json (integrationConfig a));
     package_json := Content (Json (packageJson validate a));
     src_integration_js := Content source;
     README_md := Content (readme a);
     test_dir := true;
     others := [] |}.

(** [scripts/init-integration.js] *)
Definition copied (a : Answers) : Project :=
  directory "node ../scripts/validate-integration.js" (integration_js_copied (name a)) a.

(** [initIntegration] of the consolidated module *)
Definition emitted (a : Answers) : Project :=
  directory "node ../mercy.js validate"
    (integration_js_emitted (name a) (description a)) a.

End Scaffold.

(** ** The base class: the settings cache and the uptime *)

Module Base.

Import IntegrationTemplate.



(** [v.k], which throws on [null] and [undefined] *)
Definition prop (v : value) (k : string) : outcome value :=
  match v with
  | VNull => Thrown ("Cannot read properties of null (reading '" +:+ k +:+ "')")
  | VUndefined => Thrown ("Cannot read properties of undefined (reading '" +:+ k +:+ "')")
  | VObj properties => Returned (default VUndefined (JS.assoc k properties))
  | _ => Returned VUndefined
  end.

(** the text [[${this.config.name}]] that starts a logged line *)
Definition log_prefix (this : instance) : outcome string :=
  match prop (config this) "name" with
  | Thrown message => Thrown message
  | Returned n =>
      match JS.ToString n with
      | Some t => Returned ("[" +:+ t +:+ "]")
      | None => Thrown "Cannot convert object to primitive value"
      end
  end.




(** [saveSettings]; [updated] is how the call of [updateStoredSettings]
    ends *)
Definition saveSettings (updated : outcome unit) (this : instance) : outcome unit :=
  match updated with
  | Returned _ => Returned tt
  | Thrown _ =>
      match log_prefix this with
      | Returned _ => Returned tt
      | Thrown message => Thrown message
      end
  end.

(** [setSetting(key, value)] *)
Definition setSetting (updated : outcome unit) (this : instance) (key : string)
    (v : value) : instance * outcome unit :=
  let this := settings_set this key v in
  (this, saveSettings updated this).

(** the methods of the base class that the host is to replace *)
Definition unimplemented {A} : outcome A :=
  Thrown "Method must be implemented by M.E.R.C.Y system".

(** [hours] and [minutes] of [getUptime], for [uptime = Date.now() -
    this.startTime] in milliseconds: [Math.floor] of a quotient, and [%],
    which has the sign of [uptime] *)
Definition hours (uptime : Z) : Z := uptime / (1000 * 60 * 60).
Definition minutes (uptime : Z) : Z := Z.rem uptime (1000 * 60 * 60) / (1000 * 60).

(** the decimal text of an integer *)
Definition of_Z (z : Z) : string :=
  match z with
  | Z0 => "0"
  | Zpos p => Str.of_nat (Pos.to_nat p)
  | Zneg p => "-" +:+ Str.of_nat (Pos.to_nat p)
  end.

(** [getUptime()]; [startTime] is not set before [initialize] has run *)
Definition getUptime (now : Z) (startTime : option Z) : string :=
  match startTime with
  | None => "NaNh NaNm"
  | Some start =>
      of_Z (hours (now - start)) +:+ "h " +:+ of_Z (minutes (now - start)) +:+ "m"
  end.

End Base.

(** * Notions used in the statements *)

(** [grows r r']: [r'] has the entries of [r], in place, and possibly more
    after them, and a score that is not above the score of [r]. *)
Definition grows (r r' : Results) : Prop :=
  errors r `prefix_of` errors r' ∧
  warnings r `prefix_of` warnings r' ∧
  score r' <= score r.

(** a block under which the result only grows *)
Definition monotone {A} (m : M A) : Prop := ∀ r, grows r (m r).1.

(** a block that returns, from every state *)
Definition total {A} (m : M A) : Prop := ∀ r, ∃ a, (m r).2 = Returned a.

(** The state in which the verdict is taken: what the five checking phases
    leave. *)
Definition checked (p : Project) : Results :=
  (additional p
     (integration_code p
        (package p
           (configuration p
              (file_structure p initial).1).1).1).1).1.

(** Sample directories *)
Module Samples.

Definition metadata : value :=
  VObj [("id", VStr "cool-bot"); ("name", VStr "Cool Bot");
        ("version", VStr "1.0.0"); ("description", VStr "Greets new members");
        ("category", VStr "utility");
        ("developer", VObj [("name", VStr "Ada"); ("email", VStr "ada@example.org")])].

Definition manifest : value :=
  VObj [("name", VStr "cool-bot"); ("version", VStr "1.0.0");
        ("type", VStr "module");
        ("dependencies", VObj [("discord.js", VStr "^14.14.1"); ("axios", VStr "^1.6.0")])].

Definition readme : string :=
  "# Cool Bot

Greets new members.

## Installation

1. Install dependencies:
   npm install

2. Test your integration:
   npm test
".

(** a directory with the source the first scaffolder makes for the name
    [Cool Bot] *)
Definition tidy : Project :=
  {| cwd := "/home/ada/cool-bot";
     mercy_integration_json := Content (Json metadata);
     package_json := Content (Json manifest);
     src_integration_js := Content (integration_js_copied "Cool Bot");
     README_md := Content readme;
     test_dir := true;
     others := [("LICENSE", Content "MIT License")] |}.

(** a source file that breaks five critical rules *)
Definition hostile_source : string :=
  "import cp from 'child_process';
const run = require('child_process');
export default class Hostile {
    async onLoad() {
        const token = process.env.TOKEN;
        eval(token);
        return new Function('return 1')();
    }
}".

Definition hostile : Project :=
  {| cwd := "/home/eve/hostile";
     mercy_integration_json := Content (Json metadata);
     package_json := Content (Json manifest);
     src_integration_js := Content hostile_source;
     README_md := Content readme;
     test_dir := true;
     others := [] |}.

(** the manifest with a second dependency, of a given name *)
Definition manifest_with (dep : string) : value :=
  VObj [("name", VStr "cool-bot"); ("version", VStr "1.0.0");
        ("type", VStr "module");
        ("dependencies", VObj [("discord.js", VStr "^14.14.1"); (dep, VStr "^1.0.0")])].

(** [hostile] with that manifest *)
Definition hostile_with (dep : string) : Project :=
  {| cwd := "/home/eve/hostile";
     mercy_integration_json := Content (Json metadata);
     package_json := Content (Json (manifest_with dep));
     src_integration_js := Content hostile_source;
     README_md := Content readme;
     test_dir := true;
     others := [] |}.

End Samples.

(** what a rule of a severity costs *)
Definition penalty (s : Severity) : Z :=
  match s with
  | critical => 30
  | high => 20
  | medium => 10
  end.

(** the number of matches of a global pattern *)
Definition count_matches (r : regex) (s : string) : nat :=
  List.length (scan r 0 true s).

(** the entry a rule with [n] matches adds *)
Definition rule_entry (r : rule) (n : nat) : string :=
  Str.toUpperCase (severity_name (severity r)) +:+ ": " +:+ message r
  +:+ " (" +:+ Str.of_nat n +:+ " instances)".

(** the surroundings of a run in the directory [p] *)
Definition env_of (p : Project) : Script.Env :=
  {| Script.process_cwd := Returned (cwd p);
     Script.access := λ path, (fs_access p path initial).2;
     Script.read := λ path,
       if String.eqb path "src/integration.js"
       then (readFile path (src_integration_js p) initial).2
       else if String.eqb path "README.md"
       then (readFile path (README_md p) initial).2
       else Thrown (ENOENT path);
     Script.read_JSON := λ path,
       if String.eqb path "mercy-integration.json"
       then (readFile_JSON_parse path (mercy_integration_json p) initial).2
       else if String.eqb path "package.json"
       then (readFile_JSON_parse path (package_json p) initial).2
       else Thrown (ENOENT path) |}.




(** a run in a directory that was removed under the process *)
Definition removed : Script.Env :=
  {| Script.process_cwd := Thrown "ENOENT: no such file or directory, uv_cwd";
     Script.access := λ path, Thrown (ENOENT path);
     Script.read := λ path, Thrown (ENOENT path);
     Script.read_JSON := λ path, Thrown (ENOENT path) |}.

(** Following the words of the specification: every run of characters that
    are not letters or digits becomes a single space. [in_run] tells
    whether the character before was in such a run. *)
Fixpoint squeeze (in_run : bool) (s : string) : string :=
  match s with
  | EmptyString => EmptyString
  | String c s' =>
      if alnum c then String c (squeeze false s')
      else if in_run then squeeze true s'
      else String " " (squeeze true s')
  end.

(** The upper-case and the lower-case form of a character, by its code: a
    letter of ASCII moves by 32, every other character stays. *)
Definition upper_case (c : ascii) : ascii :=
  if lower c then ascii_of_N (code c - 32) else c.

Definition lower_case (c : ascii) : ascii :=
  if upper c then ascii_of_N (code c + 32) else c.

(** a token with its first character in upper case and the remainder in
    lower case *)
Definition title (word : string) : string :=
  match word with
  | EmptyString => EmptyString
  | String c rest => String (upper_case c) (Str.map lower_case rest)
  end.

(** ... split on spaces, drop empty tokens, upper-case the first character
    and lower-case the remainder of every token, concatenate. *)
Definition toPascalCase_spec (str : string) : string :=
  Str.join ""
    (List.map title
       (List.filter (fun word => (0 <? String.length word)%nat)
          (Str.split " " (squeeze false str)))).

(** [word.length > 0] *)
Definition nonempty (word : string) : bool := (0 <? String.length word)%nat.

(** the properties of a record, one of them left out *)
Definition without_property (k : string) (properties : list (string * value)) :
    list (string * value) :=
  List.filter (λ kv, negb (String.eqb k kv.1)) properties.

(** the same directory with another metadata record *)
Definition with_metadata (p : Project) (v : value) : Project :=
  {| cwd := cwd p;
     mercy_integration_json := Content (Json v);
     package_json := package_json p;
     src_integration_js := src_integration_js p;
     README_md := README_md p;
     test_dir := test_dir p;
     others := others p |}.

(** the error for a record without a category *)
Definition missing_category : string := "Missing required config field: category".

(** [one_more r r']: [r'] is [r] with the entry for the missing category
    among its errors and 10 less. *)
Definition one_more (r r' : Results) : Prop :=
  ∃ a b, errors r = a ++ b ∧ errors r' = a ++ missing_category :: b
         ∧ warnings r' = warnings r ∧ score r' = score r - 10.

(** [sim m m']: from two states that differ by that entry, [m] and [m']
    end the same way, in two states that differ by that entry. *)
Definition sim {A} (m m' : M A) : Prop :=
  ∀ r r', one_more r r' → one_more (m r).1 (m' r').1 ∧ (m r).2 = (m' r').2.

(** a block that neither reads nor changes the result *)
Definition stateless {A} (m : M A) : Prop := ∃ o, ∀ r, m r = (r, o).

(** [l] and [s] are the same as far as both go *)
Fixpoint agree (l s : string) : bool :=
  match l, s with
  | String x l', String y s' => Ascii.eqb x y && agree l' s'
  | _, _ => true
  end.

(** no match of [lit] starts in [a], whatever follows [a] *)
Fixpoint clean (lit a : string) : bool :=
  match a with
  | EmptyString => true
  | String _ a' => negb (agree lit a) && clean lit a'
  end.

(** The template, cut at the one place where it has the name of the class
    and, after it, at the first place where it has [this.config.name]. *)
Definition template_head : string := substring 0 300 integration_template.
Definition template_tail : string :=
  substring 319 (String.length integration_template) integration_template.
Definition tail_head : string := substring 0 451 template_tail.
Definition tail_rest : string :=
  substring 467 (String.length template_tail) template_tail.

(** no opening parenthesis in [s] comes after a [d]; [prev] is the
    character before [s] *)
Fixpoint no_d_paren (prev : ascii) (s : string) : bool :=
  match s with
  | EmptyString => true
  | String c s' =>
      negb (Ascii.eqb c "(" && Ascii.eqb prev "d") && no_d_paren c s'
  end.

(** no opening parenthesis in [s] *)
Definition no_paren (s : string) : bool :=
  Str.all (λ c, negb (Ascii.eqb c "(")) s.

(** the required files that are not there, in the order of the table *)
Definition missing (p : Project) : list string :=
  (if present (mercy_integration_json p) then [] else ["mercy-integration.json"])
  ++ (if present (package_json p) then [] else ["package.json"])
  ++ (if present (src_integration_js p) then [] else ["src/integration.js"])
  ++ (if present (README_md p) then [] else ["README.md"]).

(** a block that leaves at least one error, from every state *)
Definition always_errs {A} (m : M A) : Prop := ∀ r, errors (m r).1 ≠ [].

(** [costs n m]: when [m] adds no error it takes at most [n] from the
    score *)
Definition costs {A} (n : nat) (m : M A) : Prop :=
  ∀ r, errors (m r).1 = errors r → score r - Z.of_nat n <= score (m r).1.

(** what one rule of the table can cost as a warning *)
Definition rule_cost (r : rule) : nat :=
  match severity r with medium => 10 | _ => 0 end.

(** what the default id has for one character of the name *)
Definition default_id_char (c : ascii) : ascii :=
  if lower_or_digit (toLower c) then toLower c else "-"%char.

(** [[a-z0-9-]], the characters of a default id *)
Definition plain_id_char (c : ascii) : bool := lower_or_digit c || Ascii.eqb c "-".

(** the characters of [s] that are in the class *)
Fixpoint keep (class : ascii -> bool) (s : string) : string :=
  match s with
  | EmptyString => EmptyString
  | String c s' => if class c then String c (keep class s') else keep class s'
  end.

(** a directory in which the only findings are warnings *)
Definition warned : Project :=
  {| cwd := "/home/ada/loops";
     mercy_integration_json := Content (Json Samples.metadata);
     package_json := Content (Json (VObj []));
     src_integration_js :=
       Content "export default class Loops { run() { while (true) {} for (;;) {} } }";
     README_md := Content "# Loops";
     test_dir := false;
     others := [] |}.

(** ** Texts with holes

    A generated source is a fixed text with holes for what the user typed.
    [may] tells whether a pattern can match at the front of such a text,
    for some filling of the holes with characters of their classes. *)

(** the patterns without anchors, one character or class at a time *)
Inductive atom :=
| AChr (c : ascii)
| AOne (class : ascii → bool)
| AStar (class : ascii → bool).

Fixpoint atoms (ns : list node) : option (list atom) :=
  match ns with
  | [] => Some []
  | n :: ns' =>
      match atoms ns' with
      | None => None
      | Some rest =>
          match n with
          | Lit text => Some (List.map AChr (list_ascii_of_string text) ++ rest)
          | One class => Some (AOne class :: rest)
          | Star class => Some (AStar class :: rest)
          | Plus class => Some (AOne class :: AStar class :: rest)
          | Bos | Eos => None
          end
      end
  end.

(** some text at the front of [s] matches the atoms *)
Inductive amatch : list atom → string → Prop :=
| amatch_nil s : amatch [] s
| amatch_chr c l s : amatch l s → amatch (AChr c :: l) (String c s)
| amatch_one (class : ascii → bool) c l s :
    class c = true → amatch l s → amatch (AOne class :: l) (String c s)
| amatch_star_skip class l s : amatch l s → amatch (AStar class :: l) s
| amatch_star_step (class : ascii → bool) c l s :
    class c = true → amatch (AStar class :: l) s →
    amatch (AStar class :: l) (String c s).

(** a character of the fixed text, or a hole for any number of characters
    of a class *)
Inductive item :=
| Chr (c : ascii)
| Hole (class : ascii → bool).

(** the texts that fill the holes of [sym] *)
Inductive inst : list item → string → Prop :=
| inst_nil : inst [] EmptyString
| inst_chr c sym s : inst sym s → inst (Chr c :: sym) (String c s)
| inst_hole_skip h sym s : inst sym s → inst (Hole h :: sym) s
| inst_hole_step (h : ascii → bool) c sym s :
    h c = true → inst (Hole h :: sym) s → inst (Hole h :: sym) (String c s).

Definition every_ascii : list ascii := List.map ascii_of_nat (seq 0 256).

(** some character is in both classes *)
Definition overlap (h class : ascii → bool) : bool :=
  existsb (λ c, if h c then class c else false) every_ascii.

Definition is_star (a : atom) : bool :=
  match a with AStar _ => true | _ => false end.

Fixpoint may (sym : list item) : list atom → bool :=
  match sym with
  | [] => forallb is_star
  | Chr c :: sym' =>
      fix go (l : list atom) : bool :=
        match l with
        | [] => true
        | AChr d :: l' => if Ascii.eqb c d then may sym' l' else false
        | AOne class :: l' => if class c then may sym' l' else false
        | AStar class :: l' =>
            if (if class c then may sym' l else false) then true else go l'
        end
  | Hole h :: sym' =>
      fix go (l : list atom) : bool :=
        match l with
        | [] => true
        | AChr d :: l' =>
            if (if h d then go l' else false) then true else may sym' l
        | AOne class :: l' =>
            if (if overlap h class then go l' else false) then true else may sym' l
        | AStar class :: l' => if go l' then true else may sym' l
        end
  end.

(** can the atoms match somewhere in the text *)
Fixpoint anywhere (sym : list item) (l : list atom) : bool :=
  if may sym l then true
  else match sym with
       | [] => false
       | _ :: sym' => anywhere sym' l
       end.

(** no alternative of the pattern can match anywhere, whatever fills the
    holes *)
Definition quiet (sym : list item) (r : regex) : bool :=
  forallb (λ alt, match atoms alt with
                  | Some l => negb (anywhere sym l)
                  | None => false
                  end) r.

Definition of_text (s : string) : list item := List.map Chr (list_ascii_of_string s).

(** the fixed texts with a hole between every two of them and the next *)
Fixpoint between (sep : list item) (pieces : list string) : list item :=
  match pieces with
  | [] => []
  | [p] => of_text p
  | p :: rest => of_text p ++ sep ++ between sep rest
  end.

(** [s] cut at the places where it has [lit] *)
Fixpoint split_on (lit : string) (skip : nat) (s : string) : list string :=
  match s with
  | EmptyString => [EmptyString]
  | String c s' =>
      match skip with
      | S k => split_on lit k s'
      | O =>
          match Str.strip lit s with
          | Some _ => EmptyString :: split_on lit (Nat.pred (String.length lit)) s'
          | None =>
              match split_on lit 0 s' with
              | h :: t => String c h :: t
              | [] => [String c EmptyString]
              end
          end
      end
  end.

(** the characters no rule of the table needs: all but the opening
    parenthesis, the dot and the underscore *)
Definition scan_safe (c : ascii) : bool :=
  negb (existsb (Ascii.eqb c) ["("; "."; "_"]%char).

Definition no_dollar (c : ascii) : bool := negb (Ascii.eqb c "$").

(** the template after its class name, cut where it has
    [this.config.name] *)
Definition tail_pieces : list string := split_on "this.config.name" 0 template_tail.

(** the source that [scripts/init-integration.js] writes, with holes for
    the class name and for the name between its quotes *)
Definition copied_sym : list item :=
  of_text template_head ++ [Hole alnum]
  ++ between [Chr dquote; Hole scan_safe; Chr dquote] tail_pieces.

(** the source that the consolidated module writes, with holes for the
    name, the description and the class name *)
Definition emitted_sym : list item :=
  of_text "import { IntegrationTemplate } from '../mercy.js';

/**
 * "
  ++ [Hole scan_safe]
  ++ of_text " Integration
 * "
  ++ [Hole scan_safe]
  ++ of_text "
 */
export default class "
  ++ [Hole alnum]
  ++ of_text " extends IntegrationTemplate {
    constructor(config) {
        super(config);
    }

    async initialize() {
        await super.initialize();
        
        // Add your initialization logic here
        console.log('["
  ++ [Hole scan_safe]
  ++ of_text "] Initialized successfully');
    }

    async onMessage(message) {
        await super.onMessage(message);
        
        // Add your message handling logic here
    }

    async onMemberJoin(member) {
        await super.onMemberJoin(member);
        
        // Add your member join logic here
    }

    // Override other methods as needed
}
".

(** the answers for which the metadata and the manifest that
    [initIntegration] writes pass their phases *)
Definition well_answered (a : Scaffold.Answers) : Prop :=
  Scaffold.name a ≠ EmptyString
  ∧ Scaffold.description a ≠ EmptyString
  ∧ (Scaffold.id_answer a = EmptyString
     ∨ test id_format (Scaffold.id_answer a) = true)
  ∧ (Scaffold.category a = EmptyString
     ∨ existsb (String.eqb (Scaffold.category a)) validCategories = true).

(** a metadata record that the configuration phase takes as it is *)
Definition accepted_metadata (properties : list (string * value)) : Prop :=
  (∀ field, In field REQUIRED_CONFIG_FIELDS →
     JS.truthy (default VUndefined (JS.assoc field properties)) = true)
  ∧ (∃ v, JS.assoc "version" properties = Some (VStr v)
          ∧ test version_format v = true)
  ∧ (∃ i, JS.assoc "id" properties = Some (VStr i) ∧ test id_format i = true)
  ∧ (∃ c, JS.assoc "category" properties = Some (VStr c)
          ∧ existsb (String.eqb c) validCategories = true).

(** a manifest that the manifest phase takes as it is *)
Definition accepted_manifest (properties : list (string * value)) : Prop :=
  JS.truthy (default VUndefined (JS.assoc "name" properties)) = true
  ∧ JS.truthy (default VUndefined (JS.assoc "version" properties)) = true
  ∧ JS.assoc "type" properties = Some (VStr "module")
  ∧ forallb (λ dep, existsb (String.eqb dep) allowedDeps)
      (JS.keys (default VUndefined (JS.assoc "dependencies" properties))) = true.

(** a directory in which only the source file [codeData] is left to
    judge *)
Definition accepted (p : Project) (codeData : string) : Prop :=
  ∃ metadata manifest readme,
    mercy_integration_json p = Content (Json (VObj metadata))
    ∧ accepted_metadata metadata
    ∧ package_json p = Content (Json (VObj manifest))
    ∧ accepted_manifest manifest
    ∧ src_integration_js p = Content codeData
    ∧ README_md p = Content readme
    ∧ (100 <= String.length readme)%nat
    ∧ test_dir p = true.

(** a block that leaves an error or throws, from every state *)
Definition errs_or_throws {A} (m : M A) : Prop :=
  ∀ r, errors (m r).1 ≠ [] ∨ ∃ message, (m r).2 = Thrown message.

(** answers at the prompts: the id and the category are left empty *)
Definition cool_bot : Scaffold.Answers :=
  {| Scaffold.name := "Cool Bot";
     Scaffold.id_answer := "";
     Scaffold.description := "Greets new members";
     Scaffold.category := "";
     Scaffold.developerName := "Ada";
     Scaffold.developerEmail := "ada@example.org";
     Scaffold.githubUrl := "" |}.

(** * Properties *)

(** ** The result only grows *)

Lemma grows_refl r : grows r r.
Proof. by split_and!. Qed.

Lemma grows_trans r1 r2 r3 : grows r1 r2 → grows r2 r3 → grows r1 r3.
Proof.
  intros (He1 & Hw1 & Hs1) (He2 & Hw2 & Hs2). split_and!.
  - by etrans.
  - by etrans.
  - lia.
Qed.

Lemma monotone_ret {A} (a : A) : monotone (mret a).
Proof. intros r. apply grows_refl. Qed.

Lemma monotone_throw {A} (message : string) : monotone (@throw A message).
Proof. intros r. apply grows_refl. Qed.

Section monotone.
Context {A B : Type}.

Lemma monotone_bind (m : M A) (f : A → M B) :
  monotone m → (∀ a, monotone (f a)) → monotone (m ≫= f).
Proof.
  intros Hm Hf r. unfold mbind, M_bind. specialize (Hm r).
  destruct (m r) as [r' [a|message]]; simpl in *; [|done].
  eapply grows_trans; [exact Hm|apply Hf].
Qed.

Lemma monotone_for (l : list A) (body : A → M unit) :
  (∀ x, monotone (body x)) → monotone (for_of l body).
Proof.
  intros Hbody. induction l as [|x l IH]; simpl.
  - apply monotone_ret.
  - unfold monotone in *. intros r. unfold mbind, M_bind.
    specialize (Hbody x r).
    destruct (body x r) as [r' [[]|message]]; simpl in *; [|done].
    eapply grows_trans; [exact Hbody|apply IH].
Qed.
End monotone.

Lemma monotone_try (body : M unit) (handler : string → M unit) :
  monotone body → (∀ message, monotone (handler message)) →
  monotone (try_catch body handler).
Proof.
  intros Hb Hh r. unfold try_catch. specialize (Hb r).
  destruct (body r) as [r' [a|message]]; simpl in *; [done|].
  eapply grows_trans; [exact Hb|apply Hh].
Qed.

Lemma monotone_when (b : bool) (body : M unit) :
  monotone body → monotone (when b body).
Proof. destruct b; simpl; [done|]. intros _. apply monotone_ret. Qed.

Lemma monotone_errors_push message : monotone (errors_push message).
Proof. intros r. split_and!; simpl; [by apply prefix_app_r|done|lia]. Qed.

Lemma monotone_warnings_push message : monotone (warnings_push message).
Proof. intros r. split_and!; simpl; [done|by apply prefix_app_r|lia]. Qed.

Lemma monotone_score_minus points : 0 <= points → monotone (score_minus points).
Proof. intros Hp r. split_and!; simpl; [done|done|lia]. Qed.

Lemma monotone_no_error_mentions path : monotone (no_error_mentions path).
Proof. intros r. apply grows_refl. Qed.

Lemma monotone_get v k : monotone (get v k).
Proof. destruct v; simpl; first [apply monotone_ret | apply monotone_throw]. Qed.

Lemma monotone_to_string v : monotone (to_string v).
Proof.
  unfold to_string. destruct (JS.ToString v);
    first [apply monotone_ret | apply monotone_throw].
Qed.

Lemma monotone_fs_access p path : monotone (fs_access p path).
Proof.
  unfold fs_access.
  match goal with |- context [if ?b then mret tt else _] => destruct b end;
    first [apply monotone_ret | apply monotone_throw].
Qed.

Lemma monotone_readFile path f : monotone (readFile path f).
Proof. destruct f; simpl; first [apply monotone_ret | apply monotone_throw]. Qed.

Lemma monotone_readFile_JSON_parse path f : monotone (readFile_JSON_parse path f).
Proof.
  destruct f as [| |[]]; simpl; first [apply monotone_ret | apply monotone_throw].
Qed.

Create HintDb mono discriminated.

(** one step of the proof that a block is monotone: a block already dealt
    with, or the statement at the head of this one *)
Ltac mono_step :=
  first
    [ solve [auto 1 with mono nocore]
    | apply monotone_bind; [|intros ?]
    | apply monotone_try; [|intros ?]
    | apply monotone_for; intros ?
    | apply monotone_when
    | apply monotone_errors_push
    | apply monotone_warnings_push
    | apply monotone_score_minus; lia
    | apply monotone_no_error_mentions
    | apply monotone_get
    | apply monotone_to_string
    | apply monotone_fs_access
    | apply monotone_readFile
    | apply monotone_readFile_JSON_parse
    | apply monotone_ret
    | apply monotone_throw ].

Ltac mono := repeat mono_step.

Lemma monotone_file_structure p : monotone (file_structure p).
Proof. unfold file_structure. mono. Qed.

Lemma monotone_configuration p : monotone (configuration p).
Proof.
  unfold configuration, required_fields, field_check, version_check, id_check,
    category_check.
  mono.
Qed.

Lemma monotone_package p : monotone (package p).
Proof. unfold package. mono. Qed.

Lemma monotone_apply_rule codeData r : monotone (apply_rule codeData r).
Proof.
  unfold apply_rule. destruct (match_g _ _); [|mono].
  destruct (severity r); mono.
Qed.

#[local] Hint Resolve monotone_apply_rule : mono.

Lemma monotone_security_analysis codeData : monotone (security_analysis codeData).
Proof. unfold security_analysis, code_structure, complexity_check. mono. Qed.

#[local] Hint Resolve monotone_security_analysis : mono.

Lemma monotone_integration_code p : monotone (integration_code p).
Proof. unfold integration_code. mono. Qed.

Lemma monotone_additional p : monotone (additional p).
Proof. unfold additional. mono. Qed.

Lemma monotone_final : monotone final.
Proof. intros r. by split_and!. Qed.

#[local] Hint Resolve monotone_file_structure monotone_configuration
  monotone_package monotone_integration_code monotone_additional
  monotone_final : mono.

Lemma monotone_phases p : monotone (phases p).
Proof. unfold phases. mono. Qed.

(** ** No phase throws

    Each phase catches what its statements throw, so a run reaches the
    verdict. *)

Lemma total_ret {A} (a : A) : total (mret a).
Proof. intros r. by exists a. Qed.

Lemma total_bind {A B} (m : M A) (f : A → M B) :
  total m → (∀ a, total (f a)) → total (m ≫= f).
Proof.
  intros Hm Hf r. unfold mbind, M_bind. destruct (Hm r) as [a Ha].
  destruct (m r) as [r' [a'|message]]; simpl in *; [|done]. apply Hf.
Qed.

Lemma total_for {A} (l : list A) (body : A → M unit) :
  (∀ x, total (body x)) → total (for_of l body).
Proof.
  intros Hbody. induction l as [|x l IH]; simpl.
  - apply total_ret.
  - apply total_bind; [apply Hbody|by intros _].
Qed.

Lemma total_try (body : M unit) (handler : string → M unit) :
  (∀ message, total (handler message)) → total (try_catch body handler).
Proof.
  intros Hh r. unfold try_catch.
  destruct (body r) as [r' [a|message]]; simpl; [by exists a|apply Hh].
Qed.

Lemma total_when (b : bool) (body : M unit) : total body → total (when b body).
Proof. destruct b; simpl; [done|]. intros _. apply total_ret. Qed.

Lemma total_errors_push message : total (errors_push message).
Proof. intros r. by exists tt. Qed.

Lemma total_warnings_push message : total (warnings_push message).
Proof. intros r. by exists tt. Qed.

Lemma total_score_minus points : total (score_minus points).
Proof. intros r. by exists tt. Qed.

Lemma total_no_error_mentions path : total (no_error_mentions path).
Proof. intros r. by eexists. Qed.

Lemma total_final : total final.
Proof. intros r. by exists tt. Qed.

Ltac total_step :=
  first
    [ apply total_try; intros ?
    | apply total_bind; [|intros ?]
    | apply total_for; intros ?
    | apply total_when
    | apply total_errors_push
    | apply total_warnings_push
    | apply total_score_minus
    | apply total_no_error_mentions
    | apply total_final
    | apply total_ret ].

Lemma total_file_structure p : total (file_structure p).
Proof. unfold file_structure. repeat total_step. Qed.

Lemma total_configuration p : total (configuration p).
Proof. unfold configuration. repeat total_step. Qed.

Lemma total_package p : total (package p).
Proof. unfold package. repeat total_step. Qed.

Lemma total_integration_code p : total (integration_code p).
Proof. unfold integration_code. repeat total_step. Qed.

Lemma total_additional p : total (additional p).
Proof. unfold additional. repeat total_step. Qed.

(** after a block that returns, the next one runs on the state it left *)
Lemma then_total {B} (m : M unit) (k : M B) r :
  total m → (m ;; k) r = k (m r).1.
Proof.
  intros Hm. unfold mbind, M_bind. destruct (Hm r) as [a Ha].
  destruct (m r) as [r' [a'|message]]; simpl in *; [done|done].
Qed.

Lemma phases_checked p : phases p initial = final (checked p).
Proof.
  unfold phases, checked.
  rewrite (then_total (file_structure p)) by apply total_file_structure.
  rewrite (then_total (configuration p)) by apply total_configuration.
  rewrite (then_total (package p)) by apply total_package.
  rewrite (then_total (integration_code p)) by apply total_integration_code.
  rewrite (then_total (additional p)) by apply total_additional.
  done.
Qed.

(** ** Sample directories *)

Example tidy_passes :
  validateIntegration Samples.tidy
  = {| errors := []; warnings := []; score := 100; isValid := true |}.
Proof. vm_compute. reflexivity. Qed.

Example hostile_fails :
  validateIntegration Samples.hostile
  = {| errors :=
         ["CRITICAL: Child process access forbidden (1 instances)";
          "CRITICAL: Child process import forbidden (1 instances)";
          "CRITICAL: Environment variable access forbidden (1 instances)";
          "CRITICAL: Code evaluation forbidden (1 instances)";
          "CRITICAL: Function constructor forbidden (1 instances)"];
       warnings := []; score := -50; isValid := false |}.
Proof. vm_compute. reflexivity. Qed.

(** an empty directory: four missing files and no tests *)
Example nothing_there :
  validateIntegration
    {| cwd := "/tmp/empty"; mercy_integration_json := Missing;
       package_json := Missing; src_integration_js := Missing;
       README_md := Missing; test_dir := false; others := [] |}
  = {| errors := ["Missing required file: mercy-integration.json";
                  "Missing required file: package.json";
                  "Missing required file: src/integration.js";
                  "Missing required file: README.md"];
       warnings := ["No test directory found, consider adding tests"];
       score := 15; isValid := false |}.
Proof. vm_compute. reflexivity. Qed.

(** one [eval(x)] in a source that is clean otherwise; and the same
    without the default-export marker *)
Example eval_once :
  security_analysis "export default class X { async onLoad() { eval(x) } }" initial
  = ({| errors := ["CRITICAL: Code evaluation forbidden (1 instances)"];
        warnings := []; score := 70; isValid := true |}, Returned tt)
  ∧ score (security_analysis "class X { async onLoad() { eval(x) } }" initial).1 = 45.
Proof. split; vm_compute; reflexivity. Qed.

Example id_format_examples :
  test id_format "My Integration!" = false ∧ test id_format "my-integration" = true
  ∧ test version_format "1.0.0" = true ∧ test version_format "1.0" = false.
Proof. repeat split; vm_compute; reflexivity. Qed.

(** a metadata file that holds [null], and one whose version is an object
    that cannot be turned into a text: the phase ends in its [catch], with
    what it had found before *)
Example metadata_that_throws :
  (configuration (with_metadata Samples.tidy VNull) initial).1
  = {| errors := ["Invalid mercy-integration.json: Cannot read properties of null (reading 'id')"];
       warnings := []; score := 75; isValid := true |}
  ∧ (configuration
       (with_metadata Samples.tidy
          (VObj [("id", VStr "x"); ("version", VObj [("toString", VNum "1")])]))
       initial).1
    = {| errors := ["Missing required config field: name";
                    "Missing required config field: description";
                    "Missing required config field: category";
                    "Missing required config field: developer";
                    "Invalid mercy-integration.json: Cannot convert object to primitive value"];
         warnings := []; score := 35; isValid := true |}.
Proof. split; vm_compute; reflexivity. Qed.

(** the dollar patterns of a replacement text *)
Example replace_dollar :
  replace_g [[Lit "this.config.name"]] "<$&|$$|$1>" "a this.config.name b"
  = "a <this.config.name|$|$1> b".
Proof. vm_compute. reflexivity. Qed.

(** ** The verdict *)

(** C1. For every directory the verdict is
    [isValid = (errors.length == 0) AND (score >= 70)]; one error in
    [errors] makes [isValid] false whatever the score is; and the score is
    not floored at 0: there is a directory whose run ends below 0. *)
Theorem final_verdict :
  (∀ p : Project,
     let r := validateIntegration p in
     isValid r = (List.length (errors r) =? 0)%nat && (70 <=? score r)
     ∧ (errors r ≠ [] → isValid r = false))
  ∧ (∃ p : Project, score (validateIntegration p) < 0).
Proof.
  split.
  - intros p r. subst r. unfold validateIntegration. rewrite phases_checked.
    simpl. split; [done|].
    destruct (errors (checked p)); [done|by intros _].
  - exists Samples.hostile. by vm_compute.
Qed.

Lemma final_verdict_witness :
  errors (validateIntegration Samples.hostile) ≠ []
  ∧ isValid (validateIntegration Samples.hostile) = false.
Proof.
  assert (H : errors (validateIntegration Samples.hostile) ≠ [])
    by (vm_compute; discriminate).
  split; [exact H|].
  exact (proj2 (proj1 final_verdict Samples.hostile) H).
Defined.

(** ** The score only goes down *)

(** C8. The result starts with a score of 100 and empty lists; every phase
    leaves a state that [grows] from the one it was given (the errors and
    the warnings it found are still there, in place, and the score is not
    higher); a run is these phases in a row, so its result grows from the
    initial one and its score is at most 100. *)
Theorem score_only_decremented (p : Project) :
  score initial = 100 ∧ errors initial = [] ∧ warnings initial = []
  ∧ Forall (λ phase : M unit, ∀ r, grows r (phase r).1)
      [file_structure p; configuration p; package p; integration_code p;
       additional p; final]
  ∧ phases p = (file_structure p ;; configuration p ;; package p ;;
                integration_code p ;; additional p ;; final)
  ∧ grows initial (validateIntegration p)
  ∧ score (validateIntegration p) <= 100.
Proof.
  split_and!; try done.
  - constructor; [apply monotone_file_structure|].
    constructor; [apply monotone_configuration|].
    constructor; [apply monotone_package|].
    constructor; [apply monotone_integration_code|].
    constructor; [apply monotone_additional|].
    constructor; [apply monotone_final|constructor].
  - apply monotone_phases.
  - apply (monotone_phases p initial).
Qed.

(** ** One penalty for a rule that matches *)

Lemma match_g_count r s :
  match match_g r s with
  | Some matches => List.length matches = count_matches r s ∧ (0 < count_matches r s)%nat
  | None => count_matches r s = 0%nat
  end.
Proof.
  unfold match_g, count_matches. destruct (scan r 0 true s); simpl; [done|].
  split; [done|lia].
Qed.

Lemma apply_rule_score codeData (r : rule) (res : Results) :
  score (apply_rule codeData r res).1
  = score res - (if (0 <? count_matches (pattern r) codeData)%nat
                 then penalty (severity r) else 0).
Proof.
  unfold apply_rule. pose proof (match_g_count (pattern r) codeData) as H.
  destruct (match_g _ _) as [matches|].
  - destruct H as [_ H]. apply Nat.ltb_lt in H. rewrite H.
    by destruct (severity r).
  - rewrite H. simpl. lia.
Qed.

Lemma for_of_rules_score codeData (rules : list rule) (res : Results) :
  score (for_of rules (apply_rule codeData) res).1
  = score res
    - foldr Z.add 0
        (List.map (λ r : rule,
           if (0 <? count_matches (pattern r) codeData)%nat
           then penalty (severity r) else 0) rules).
Proof.
  revert res. induction rules as [|r rules IH]; intros res; simpl; [lia|].
  unfold mbind, M_bind.
  pose proof (apply_rule_score codeData r res) as Hr.
  assert (Hret : (apply_rule codeData r res).2 = Returned tt).
  { unfold apply_rule. destruct (match_g _ _); [|done]. by destruct (severity r). }
  destruct (apply_rule codeData r res) as [res' [[]|message]]; simpl in *; [|done].
  rewrite IH, Hr. lia.
Qed.

(** C2. A rule of the table that matches the source [n > 0] times adds one
    entry and takes its penalty once: critical, an error and 30; high, an
    error and 20; medium, a warning and 10. A rule that does not match
    leaves the result as it is. The table has 15 rules, and the scan takes
    from the score the penalties of the rules that match, each once. *)
Theorem one_penalty_per_rule (r : rule) (codeData : string) (res : Results) :
  let n := count_matches (pattern r) codeData in
  let res' := (apply_rule codeData r res).1 in
  (n = 0%nat → res' = res)
  ∧ ((0 < n)%nat →
     score res' = score res - penalty (severity r)
     ∧ isValid res' = isValid res
     ∧ match severity r with
       | critical | high =>
           errors res' = errors res ++ [rule_entry r n]
           ∧ warnings res' = warnings res
       | medium =>
           errors res' = errors res
           ∧ warnings res' = warnings res ++ [rule_entry r n]
       end)
  ∧ List.length SECURITY_PATTERNS = 15%nat
  ∧ score (for_of SECURITY_PATTERNS (apply_rule codeData) res).1
    = score res
      - foldr Z.add 0
          (List.map (λ r : rule,
             if (0 <? count_matches (pattern r) codeData)%nat
             then penalty (severity r) else 0) SECURITY_PATTERNS).
Proof.
  intros n res'. subst n res'.
  pose proof (match_g_count (pattern r) codeData) as H.
  split_and!.
  - intros Hn. unfold apply_rule. destruct (match_g _ _) as [matches|].
    + lia.
    + by destruct res.
  - intros Hn. unfold apply_rule, rule_entry.
    destruct (match_g _ _) as [matches|]; [|lia].
    destruct H as [-> _]. by destruct (severity r).
  - done.
  - apply for_of_rules_score.
Qed.

Lemma one_penalty_per_rule_witness :
  let r := {| pattern := [[Lit "eval"; Star space; Lit "("]];
              severity := critical; message := "Code evaluation forbidden" |} in
  let codeData := "eval(a); eval (b); eval(c)" in
  (0 < count_matches (pattern r) codeData)%nat
  ∧ score (apply_rule codeData r initial).1 = 70
  ∧ errors (apply_rule codeData r initial).1
    = ["CRITICAL: Code evaluation forbidden (3 instances)"].
Proof.
  intros r codeData.
  assert (H : (0 < count_matches (pattern r) codeData)%nat) by (vm_compute; lia).
  destruct (proj1 (proj2 (one_penalty_per_rule r codeData initial)) H)
    as (Hs & _ & He & _).
  split; [exact H|]. split; [exact Hs|exact He].
Defined.

(** ** Two runs on the same directory *)

Lemma total_script_file_structure env : total (Script.file_structure env).
Proof. unfold Script.file_structure. repeat total_step. Qed.

Lemma total_script_configuration env : total (Script.configuration env).
Proof. unfold Script.configuration. repeat total_step. Qed.

Lemma total_script_package env : total (Script.package env).
Proof. unfold Script.package. repeat total_step. Qed.

Lemma total_script_integration_code env : total (Script.integration_code env).
Proof. unfold Script.integration_code. repeat total_step. Qed.

Lemma total_script_additional env : total (Script.additional env).
Proof. unfold Script.additional. repeat total_step. Qed.

(** no phase throws, whatever the calls of the file system do: the body of
    the outer [try] reaches the verdict *)
Lemma script_phases_final env r0 : ∃ r, Script.phases env r0 = final r.
Proof.
  unfold Script.phases.
  rewrite (then_total (Script.file_structure env)) by apply total_script_file_structure.
  rewrite (then_total (Script.configuration env)) by apply total_script_configuration.
  rewrite (then_total (Script.package env)) by apply total_script_package.
  rewrite (then_total (Script.integration_code env))
    by apply total_script_integration_code.
  rewrite (then_total (Script.additional env)) by apply total_script_additional.
  by eexists.
Qed.

(** the script in the directory [p] is the validator on [p] *)
Lemma script_of_project p : Script.phases (env_of p) = phases p.
Proof.
  assert (H1 : Script.file_structure (env_of p) = file_structure p).
  { destruct p as [d m pk src rd t o]. unfold Script.file_structure, file_structure.
    destruct m, pk, src, rd; reflexivity. }
  assert (H2 : Script.configuration (env_of p) = configuration p).
  { destruct p as [d m pk src rd t o]. unfold Script.configuration, configuration.
    destruct m as [| |[|]]; reflexivity. }
  assert (H3 : Script.package (env_of p) = package p).
  { destruct p as [d m pk src rd t o]. unfold Script.package, package.
    destruct pk as [| |[|]]; reflexivity. }
  assert (H4 : Script.integration_code (env_of p) = integration_code p).
  { destruct p as [d m pk src rd t o]. unfold Script.integration_code, integration_code.
    destruct src; reflexivity. }
  assert (H5 : Script.additional (env_of p) = additional p).
  { destruct p as [d m pk src rd t o]. unfold Script.additional, additional.
    destruct rd, t; reflexivity. }
  unfold Script.phases, phases. by rewrite H1, H2, H3, H4, H5.
Qed.



(** ** [getSetting] *)

Import IntegrationTemplate.

(** C9. [getSetting] gives the default (the argument, or [null] for none)
    when the key is not in the cache and also when the value stored is
    falsy, as [false], [0], the empty string and [null] are; so a stored
    [false] reads like no setting at all. *)
Theorem getSetting_falsy_is_default
    (this : instance) (key : string) (defaultValue : value) :
  (settings this !! key = None →
   getSetting this key defaultValue = or_null defaultValue)
  ∧ (∀ v, settings this !! key = Some v → JS.truthy v = false →
     getSetting this key defaultValue = or_null defaultValue)
  ∧ Forall (λ v, JS.truthy v = false) [VBool false; VNum "0"; VStr ""; VNull]
  ∧ (∀ unset : instance, settings unset !! key = None →
     getSetting (settings_set this key (VBool false)) key defaultValue
     = getSetting unset key defaultValue).
Proof.
  unfold getSetting, settings_get, JS.or. split_and!.
  - by intros ->.
  - intros v -> Hv. simpl. by rewrite Hv.
  - by repeat constructor.
  - intros unset ->. simpl. by rewrite lookup_insert_eq.
Qed.

Lemma getSetting_falsy_is_default_witness :
  getSetting (settings_set (constructor VNull) "enabled" (VBool false))
    "enabled" (VBool true)
  = VBool true.
Proof.
  refine (proj1 (proj2 (getSetting_falsy_is_default
            (settings_set (constructor VNull) "enabled" (VBool false))
            "enabled" (VBool true))) (VBool false) _ _).
  - simpl. apply lookup_insert_eq.
  - reflexivity.
Defined.

(** ** Replacing one character at a time *)

(** what the match of one character leaves is the rest of the text *)
Lemma matched_one c s : matched (String c s) s = String c EmptyString.
Proof.
  unfold matched.
  replace (String.length (String c s) - String.length s)%nat with 1%nat
    by (simpl; lia).
  simpl. by destruct s.
Qed.

(** [s.replace(/[class]/g, repl)] for a replacement text without a dollar
    pattern puts [repl] for every character of the class. *)
Lemma replace_go_one (class : ascii → bool) (repl : string) :
  (∀ before found after, expand repl before found after = repl) →
  ∀ s b seen,
    replace_go [[One class]] repl 0 b seen s
    = (fix each (s : string) : string :=
         match s with
         | EmptyString => EmptyString
         | String c s' =>
             (if class c then repl else String c EmptyString) +:+ each s'
         end) s.
Proof.
  intros Hrepl. induction s as [|c s IH]; intros b seen; [done|].
  cbn [replace_go exec_here run]. destruct (class c).
  - rewrite matched_one, Hrepl. cbn. by rewrite IH.
  - cbn. by rewrite IH.
Qed.

Lemma replace_g_one_char (class : ascii → bool) (x : ascii) (s : string) :
  (∀ before found after,
     expand (String x EmptyString) before found after = String x EmptyString) →
  replace_g [[One class]] (String x EmptyString) s
  = Str.map (λ c, if class c then x else c) s.
Proof.
  intros Hx. unfold replace_g. rewrite (replace_go_one _ _ Hx).
  induction s as [|c s IH]; [done|]. simpl. rewrite IH. by destruct (class c).
Qed.

Lemma length_map f s : String.length (Str.map f s) = String.length s.
Proof. induction s; simpl; congruence. Qed.

(** ** The default id *)

Lemma default_id_map name :
  default_id name
  = Str.map (λ c, if negb (lower_or_digit c) then "-"%char else c)
      (Str.toLowerCase name).
Proof. unfold default_id. by apply replace_g_one_char. Qed.

(** a text of one or more characters of a class matches [^[class]+$] *)
Lemma star_all class b s :
  Str.all class s = true → star class (run [Eos]) b s = Some EmptyString.
Proof.
  revert b. induction s as [|c s IH]; intros b; simpl; [done|].
  intros [Hc Hs]%andb_prop. by rewrite Hc, IH.
Qed.

Lemma test_plus_all class s :
  s ≠ EmptyString → Str.all class s = true →
  test [[Bos; Plus class; Eos]] s = true.
Proof.
  destruct s as [|c s]; [done|]. intros _ [Hc Hs]%andb_prop.
  unfold test. cbn [search exec_here run]. by rewrite Hc, star_all.
Qed.

Lemma default_id_chars name : Str.all id_char (default_id name) = true.
Proof.
  rewrite default_id_map. induction (Str.toLowerCase name) as [|c s IH]; [done|].
  simpl. rewrite IH, andb_true_r. unfold id_char.
  destruct (lower_or_digit c) eqn:Hc; simpl; [|done].
  unfold lower_or_digit in Hc. apply orb_prop in Hc as [-> | ->]; simpl; [done|].
  by rewrite orb_true_r.
Qed.

Lemma default_id_length name :
  String.length (default_id name) = String.length name.
Proof. rewrite default_id_map. unfold Str.toLowerCase. by rewrite !length_map. Qed.

(** C10. For a name that is not empty the default id, which an empty
    answer at the prompt selects, is the lower-cased name with a hyphen for
    every character outside [[a-z0-9]]; it is not empty and matches
    [^[a-z0-9-_]+$]; so the id check of the validator leaves the result as
    it is for a metadata record with this id. *)
Theorem default_id_is_valid (name : string) :
  name ≠ EmptyString →
  integration_id "" name = default_id name
  ∧ default_id name
    = Str.map (λ c, if lower_or_digit c then c else "-"%char) (Str.toLowerCase name)
  ∧ default_id name ≠ EmptyString
  ∧ test id_format (default_id name) = true
  ∧ ∀ properties r,
      JS.assoc "id" properties = Some (VStr (default_id name)) →
      id_check (VObj properties) r = (r, Returned tt).
Proof.
  intros Hname.
  assert (Hne : default_id name ≠ EmptyString).
  { intros H. pose proof (default_id_length name) as Hl. rewrite H in Hl.
    destruct name; [done|discriminate]. }
  assert (Htest : test id_format (default_id name) = true)
    by (apply test_plus_all; [done|apply default_id_chars]).
  split_and!; [done| |done|done|].
  - rewrite default_id_map.
    induction (Str.toLowerCase name) as [|c s IH]; [done|].
    simpl. rewrite IH. by destruct (lower_or_digit c).
  - intros properties r Hid. unfold id_check. cbn [get]. rewrite Hid.
    unfold mbind, M_bind, mret, M_ret. cbn [default from_option id JS.truthy].
    destruct (String.eqb_spec (default_id name) ""); [done|].
    unfold to_string. cbn [negb when JS.ToString]. unfold mret, M_ret.
    by rewrite Htest.
Qed.

Lemma default_id_is_valid_witness :
  default_id "Cool Bot!" = "cool-bot-"
  ∧ test id_format (default_id "Cool Bot!") = true.
Proof.
  assert (H : "Cool Bot!" ≠ EmptyString) by discriminate.
  destruct (default_id_is_valid "Cool Bot!" H) as (_ & Hmap & _ & Htest & _).
  split; [|exact Htest].
  rewrite Hmap. reflexivity.
Defined.

(** ** [toPascalCase] *)

Lemma split_step sep c s :
  Str.split sep (String c s)
  = if Ascii.eqb c sep then EmptyString :: Str.split sep s
    else String c (hd EmptyString (Str.split sep s)) :: tl (Str.split sep s).
Proof.
  simpl. destruct (Ascii.eqb c sep); [done|]. by destruct (Str.split sep s).
Qed.

Lemma split_hd_tl sep s :
  Str.split sep s = hd EmptyString (Str.split sep s) :: tl (Str.split sep s).
Proof.
  destruct s as [|c s]; [done|]. rewrite split_step.
  by destruct (Ascii.eqb c sep).
Qed.

Lemma alnum_not_space c : alnum c = true → Ascii.eqb c " " = false.
Proof.
  intros Hc. destruct (Ascii.eqb_spec c " ") as [->|]; [|done].
  by vm_compute in Hc.
Qed.

(** The tokens do not tell one space for a run from one space for each of
    its characters. *)
Lemma tokens_squeeze s :
  let spaced := Str.split " " (Str.map (λ c, if negb (alnum c) then " "%char else c) s) in
  (hd EmptyString spaced = hd EmptyString (Str.split " " (squeeze false s))
   ∧ List.filter nonempty (tl spaced)
     = List.filter nonempty (tl (Str.split " " (squeeze false s))))
  ∧ List.filter nonempty spaced
    = List.filter nonempty (Str.split " " (squeeze true s)).
Proof.
  induction s as [|c s [[IHh IHt] IHr]]; [done|].
  cbn [Str.map squeeze]. cbv zeta in *. destruct (alnum c) eqn:Hc; cbn [negb].
  - rewrite !split_step, (alnum_not_space c Hc). cbn [hd tl].
    split; [split|]; [by rewrite IHh|done|].
    cbn [List.filter nonempty String.length Nat.ltb Nat.leb]. by rewrite IHh, IHt.
  - rewrite !split_step. cbn [Ascii.eqb Bool.eqb hd tl].
    split; [split|]; [done|done|].
    by cbn [List.filter nonempty String.length Nat.ltb Nat.leb].
Qed.

(** ** A dependency that names the source file *)

(** The source phase runs when no error so far contains the path of the
    source file, whatever else the error is about. *)
Lemma integration_code_skipped p r :
  forallb (λ e, negb (Str.includes "src/integration.js" e)) (errors r) = false →
  integration_code p r = (r, Returned tt).
Proof.
  intros H. unfold integration_code, no_error_mentions, mbind, M_bind.
  rewrite H. by destruct (errors r).
Qed.

(** C5, at an input where the code departs from it. The source file is
    there and is not reported missing, and it breaks five critical rules;
    with a dependency called [request] the scan reports them, with a
    dependency called [src/integration.js] the scan does not run. *)
Theorem scan_skipped_by_dependency_name :
  present (src_integration_js (Samples.hostile_with "src/integration.js")) = true
  ∧ validateIntegration (Samples.hostile_with "request")
    = {| errors :=
           ["Unauthorized dependency: request";
            "CRITICAL: Child process access forbidden (1 instances)";
            "CRITICAL: Child process import forbidden (1 instances)";
            "CRITICAL: Environment variable access forbidden (1 instances)";
            "CRITICAL: Code evaluation forbidden (1 instances)";
            "CRITICAL: Function constructor forbidden (1 instances)"];
         warnings := []; score := -65; isValid := false |}
  ∧ validateIntegration (Samples.hostile_with "src/integration.js")
    = {| errors := ["Unauthorized dependency: src/integration.js"];
         warnings := []; score := 85; isValid := false |}.
Proof. split_and!; by vm_compute. Qed.

(** ** A record without its category *)

Lemma sim_stateless {A} (m : M A) : stateless m → sim m m.
Proof. intros [o Ho] r r' HR. by rewrite !Ho. Qed.

Lemma stateless_ret {A} (a : A) : stateless (mret a).
Proof. by eexists. Qed.

Lemma stateless_throw {A} message : stateless (@throw A message).
Proof. by eexists. Qed.

Lemma stateless_get v k : stateless (get v k).
Proof. destruct v; simpl; first [apply stateless_ret | apply stateless_throw]. Qed.

Lemma stateless_to_string v : stateless (to_string v).
Proof.
  unfold to_string. destruct (JS.ToString v);
    first [apply stateless_ret | apply stateless_throw].
Qed.

Lemma stateless_fs_access p path : stateless (fs_access p path).
Proof.
  unfold fs_access.
  match goal with |- context [if ?b then mret tt else _] => destruct b end;
    first [apply stateless_ret | apply stateless_throw].
Qed.

Lemma stateless_readFile path f : stateless (readFile path f).
Proof. destruct f; simpl; first [apply stateless_ret | apply stateless_throw]. Qed.

Lemma stateless_readFile_JSON_parse path f : stateless (readFile_JSON_parse path f).
Proof.
  destruct f as [| |[]]; simpl; first [apply stateless_ret | apply stateless_throw].
Qed.

Lemma sim_bind {A B} (m m' : M A) (f f' : A → M B) :
  sim m m' → (∀ a, sim (f a) (f' a)) → sim (m ≫= f) (m' ≫= f').
Proof.
  intros Hm Hf r r' HR. unfold mbind, M_bind.
  destruct (Hm r r' HR) as [HR' Ho].
  destruct (m r) as [r1 o1], (m' r') as [r1' o1']. simpl in *. subst o1'.
  destruct o1 as [a|message]; [by apply Hf|done].
Qed.

Lemma sim_try (body body' : M unit) (handler handler' : string → M unit) :
  sim body body' → (∀ message, sim (handler message) (handler' message)) →
  sim (try_catch body handler) (try_catch body' handler').
Proof.
  intros Hb Hh r r' HR. unfold try_catch.
  destruct (Hb r r' HR) as [HR' Ho].
  destruct (body r) as [r1 o1], (body' r') as [r1' o1']. simpl in *. subst o1'.
  destruct o1 as [a|message]; [done|by apply Hh].
Qed.

Lemma sim_for {A} (l : list A) (body body' : A → M unit) :
  (∀ x, sim (body x) (body' x)) → sim (for_of l body) (for_of l body').
Proof.
  intros Hbody. induction l as [|x l IH]; simpl.
  - apply sim_stateless, stateless_ret.
  - apply sim_bind; [apply Hbody|by intros _].
Qed.

Lemma sim_when (b : bool) (body body' : M unit) :
  sim body body' → sim (when b body) (when b body').
Proof. destruct b; simpl; [done|]. intros _. apply sim_stateless, stateless_ret. Qed.

Lemma sim_errors_push message : sim (errors_push message) (errors_push message).
Proof.
  intros r r' (a & b & He & He' & Hw & Hs). split; [|done].
  exists a, (b ++ [message]). simpl. rewrite He, He'.
  split_and!; [by rewrite app_assoc|by rewrite <- app_assoc|done|done].
Qed.

Lemma sim_warnings_push message : sim (warnings_push message) (warnings_push message).
Proof.
  intros r r' (a & b & He & He' & Hw & Hs). split; [|done].
  exists a, b. simpl. by rewrite Hw.
Qed.

Lemma sim_score_minus points : sim (score_minus points) (score_minus points).
Proof.
  intros r r' (a & b & He & He' & Hw & Hs). split; [|done].
  exists a, b. simpl. split_and!; [done|done|done|lia].
Qed.

Lemma sim_no_error_mentions path :
  Str.includes path missing_category = false →
  sim (no_error_mentions path) (no_error_mentions path).
Proof.
  intros Hpath r r' HR. split; [done|].
  destruct HR as (a & b & He & He' & _). unfold no_error_mentions. simpl.
  f_equal. rewrite He, He'.
  assert (Hor : ∀ l : list string,
            (List.length l =? 0)%nat
            || forallb (λ e, negb (Str.includes path e)) l
            = forallb (λ e, negb (Str.includes path e)) l) by (by intros []).
  rewrite !Hor, !forallb_app. cbn [forallb]. by rewrite Hpath.
Qed.

Create HintDb sim discriminated.

Ltac sim_step :=
  first
    [ solve [auto 1 with sim nocore]
    | apply sim_bind; [|intros ?]
    | apply sim_try; [|intros ?]
    | apply sim_for; intros ?
    | apply sim_when
    | apply sim_errors_push
    | apply sim_warnings_push
    | apply sim_score_minus
    | apply sim_no_error_mentions; by vm_compute
    | apply sim_stateless;
      first [ apply stateless_get | apply stateless_to_string
            | apply stateless_fs_access | apply stateless_readFile
            | apply stateless_readFile_JSON_parse | apply stateless_ret
            | apply stateless_throw ] ].

Lemma sim_package p : sim (package p) (package p).
Proof. unfold package. repeat sim_step. Qed.

Lemma sim_apply_rule codeData r : sim (apply_rule codeData r) (apply_rule codeData r).
Proof.
  unfold apply_rule. destruct (match_g _ _); [|repeat sim_step].
  destruct (severity r); repeat sim_step.
Qed.

#[local] Hint Resolve sim_apply_rule : sim.

Lemma sim_integration_code p : sim (integration_code p) (integration_code p).
Proof.
  unfold integration_code, security_analysis, code_structure, complexity_check.
  repeat sim_step.
Qed.

Lemma sim_additional p : sim (additional p) (additional p).
Proof. unfold additional. repeat sim_step. Qed.

Lemma sim_field_check config field : sim (field_check config field) (field_check config field).
Proof. unfold field_check. repeat sim_step. Qed.

Lemma sim_version_check config : sim (version_check config) (version_check config).
Proof. unfold version_check. repeat sim_step. Qed.

Lemma sim_id_check config : sim (id_check config) (id_check config).
Proof. unfold id_check. repeat sim_step. Qed.

Lemma assoc_without_ne k k' properties :
  k ≠ k' → JS.assoc k (without_property k' properties) = JS.assoc k properties.
Proof.
  intros Hk. induction properties as [|[k1 v] properties IH]; [done|].
  unfold without_property in *. simpl.
  destruct (String.eqb_spec k' k1) as [->|]; simpl.
  - destruct (String.eqb_spec k k1); [done|exact IH].
  - by rewrite IH.
Qed.

Lemma assoc_without_eq k properties :
  JS.assoc k (without_property k properties) = None.
Proof.
  induction properties as [|[k1 v] properties IH]; [done|].
  unfold without_property in *. simpl.
  destruct (String.eqb_spec k k1) as [->|Hk]; simpl; [exact IH|].
  destruct (String.eqb_spec k k1); [done|exact IH].
Qed.

Lemma field_check_without field properties :
  field ≠ "category" →
  field_check (VObj (without_property "category" properties)) field
  = field_check (VObj properties) field.
Proof. intros H. unfold field_check. cbn [get]. by rewrite assoc_without_ne. Qed.

Lemma total_field_check properties field : total (field_check (VObj properties) field).
Proof. unfold field_check. cbn [get]. repeat total_step. Qed.

Lemma one_more_start r :
  one_more r ((errors_push missing_category ;; score_minus 10) r).1.
Proof. exists (errors r), []. simpl. by rewrite app_nil_r. Qed.

Lemma valid_category_truthy c :
  existsb (String.eqb c) validCategories = true → JS.truthy (VStr c) = true.
Proof. intros H. simpl. destruct (String.eqb_spec c ""); [by subst|done]. Qed.

(** after a loop whose body returns, the next block runs on the state the
    bodies leave one after the other *)
Lemma for_of_then {A B} (l : list A) (body : A → M unit) (k : M B) r :
  (∀ x, total (body x)) →
  (for_of l body ;; k) r = k (fold_left (λ s x, (body x s).1) l r).
Proof.
  intros Hbody. revert r. induction l as [|x l IH]; intros r; [done|].
  cbn [for_of fold_left]. rewrite <- IH. unfold mbind, M_bind.
  destruct (Hbody x r) as [a Ha].
  by destruct (body x r) as [r1 [a1|message]].
Qed.

(** The blocks of the configuration phase on a record with a category of
    the list and on the record without it, from one state. *)
Lemma configuration_blocks_one_more properties c r :
  JS.assoc "category" properties = Some (VStr c) →
  existsb (String.eqb c) validCategories = true →
  let blocks config :=
    required_fields config ;; version_check config ;; id_check config ;;
    category_check config in
  one_more (blocks (VObj properties) r).1
           (blocks (VObj (without_property "category" properties)) r).1
  ∧ (blocks (VObj properties) r).2
    = (blocks (VObj (without_property "category" properties)) r).2.
Proof.
  intros Hcat Hvalid blocks. subst blocks. cbv beta.
  assert (Hc : ∀ s, category_check (VObj properties) s = (s, Returned tt)).
  { intros s. unfold category_check. cbn [get]. rewrite Hcat.
    unfold mbind, M_bind, mret, M_ret. cbn [default from_option id].
    rewrite (valid_category_truthy c Hvalid). cbn [JS.includes].
    by rewrite Hvalid. }
  assert (Hc' : ∀ s, category_check (VObj (without_property "category" properties)) s
                     = (s, Returned tt)).
  { intros s. unfold category_check. cbn [get]. by rewrite assoc_without_eq. }
  assert (Hf : ∀ s, field_check (VObj properties) "category" s = (s, Returned tt)).
  { intros s. unfold field_check. cbn [get]. rewrite Hcat.
    unfold mbind, M_bind, mret, M_ret. cbn [default from_option id].
    by rewrite (valid_category_truthy c Hvalid). }
  assert (Hf' : ∀ s, field_check (VObj (without_property "category" properties))
                       "category" s
                     = (errors_push missing_category ;; score_minus 10) s).
  { intros s. unfold field_check. cbn [get]. by rewrite assoc_without_eq. }
  assert (Hrest : sim (version_check (VObj properties) ;;
                       id_check (VObj properties) ;;
                       category_check (VObj properties))
                      (version_check (VObj (without_property "category" properties)) ;;
                       id_check (VObj (without_property "category" properties)) ;;
                       category_check (VObj (without_property "category" properties)))).
  { assert (Hv : version_check (VObj (without_property "category" properties))
                 = version_check (VObj properties)).
    { unfold version_check. cbn [get]. by rewrite assoc_without_ne. }
    assert (Hi : id_check (VObj (without_property "category" properties))
                 = id_check (VObj properties)).
    { unfold id_check. cbn [get]. by rewrite assoc_without_ne. }
    rewrite Hv, Hi.
    apply sim_bind; [apply sim_version_check|intros _].
    apply sim_bind; [apply sim_id_check|intros _].
    intros s s' HR. by rewrite Hc, Hc'. }
  unfold required_fields.
  rewrite !for_of_then by (intros ?; apply total_field_check).
  unfold REQUIRED_CONFIG_FIELDS. cbn [fold_left].
  rewrite !(field_check_without "id"), !(field_check_without "name"),
    !(field_check_without "version"), !(field_check_without "description"),
    !(field_check_without "developer") by done.
  rewrite Hf, Hf'. cbn [fst].
  apply Hrest. refine (proj1 (sim_field_check _ _ _ _ _)). apply one_more_start.
Qed.

(** with the metadata file in place, no error of the first phase mentions
    it, and the configuration phase runs *)
Lemma metadata_gate_open p :
  present (mercy_integration_json p) = true →
  no_error_mentions "mercy-integration.json" (file_structure p initial).1
  = ((file_structure p initial).1, Returned true).
Proof.
  destruct p as [d m pk src rd t o]. simpl. intros Hm.
  destruct m; [done| |]; destruct pk, src, rd; reflexivity.
Qed.

(** the configuration phase on a metadata file that parses *)
Lemma configuration_json p v r :
  mercy_integration_json p = Content (Json v) →
  no_error_mentions "mercy-integration.json" r = (r, Returned true) →
  configuration p r
  = try_catch
      (required_fields v ;; version_check v ;; id_check v ;; category_check v)
      (λ error_message,
         errors_push ("Invalid mercy-integration.json: " +:+ error_message) ;;
         score_minus 25) r.
Proof.
  intros Hp Hgate. unfold configuration. unfold mbind at 1, M_bind at 1.
  rewrite Hgate. cbn [when]. by rewrite Hp.
Qed.

Lemma try_catch_one_more (body body' : M unit) (handler : string → M unit) r :
  one_more (body r).1 (body' r).1 → (body r).2 = (body' r).2 →
  (∀ message, sim (handler message) (handler message)) →
  one_more (try_catch body handler r).1 (try_catch body' handler r).1.
Proof.
  unfold try_catch. destruct (body r) as [s o], (body' r) as [s' o']. simpl.
  intros HR <- Hh. destruct o as [[]|message]; [done|]. by apply Hh.
Qed.

Lemma one_more_checked (p : Project) properties c :
  mercy_integration_json p = Content (Json (VObj properties)) →
  JS.assoc "category" properties = Some (VStr c) →
  existsb (String.eqb c) validCategories = true →
  one_more (checked p)
    (checked (with_metadata p (VObj (without_property "category" properties)))).
Proof.
  intros Hp Hcat Hvalid.
  set (p' := with_metadata p (VObj (without_property "category" properties))).
  assert (H1 : file_structure p' = file_structure p).
  { unfold file_structure, fs_access, p', with_metadata. simpl. by rewrite Hp. }
  assert (Hgate := metadata_gate_open p).
  rewrite Hp in Hgate. specialize (Hgate eq_refl).
  assert (Hconf : one_more (configuration p (file_structure p initial).1).1
                           (configuration p' (file_structure p initial).1).1).
  { rewrite (configuration_json p (VObj properties)) by done.
    rewrite (configuration_json p' (VObj (without_property "category" properties)))
      by done.
    destruct (configuration_blocks_one_more properties c
                (file_structure p initial).1 Hcat Hvalid) as [HR Ho].
    apply try_catch_one_more; [exact HR|exact Ho|].
    intros message. apply sim_bind; [apply sim_errors_push|intros _].
    apply sim_score_minus. }
  assert (H3 : package p' = package p) by reflexivity.
  assert (H4 : integration_code p' = integration_code p) by reflexivity.
  assert (H5 : additional p' = additional p) by reflexivity.
  unfold checked. rewrite H1, H3, H4, H5.
  refine (proj1 (sim_additional p _ _ _)).
  refine (proj1 (sim_integration_code p _ _ _)).
  refine (proj1 (sim_package p _ _ _)).
  exact Hconf.
Qed.

(** C4, as the code has it. A metadata record whose category is one of the
    six allowed values, and the same record without the category, in
    directories that are otherwise the same: the run without the category
    ends with a score exactly 10 lower, with the same warnings, and with
    one more error, the one for the missing field; so its verdict is
    [isValid = false], whatever the score and the other checks are. *)
Theorem missing_category_costs_ten (p : Project) properties c :
  mercy_integration_json p = Content (Json (VObj properties)) →
  JS.assoc "category" properties = Some (VStr c) →
  existsb (String.eqb c) validCategories = true →
  let p' := with_metadata p (VObj (without_property "category" properties)) in
  score (validateIntegration p') = score (validateIntegration p) - 10
  ∧ warnings (validateIntegration p') = warnings (validateIntegration p)
  ∧ (∃ a b, errors (validateIntegration p) = a ++ b
            ∧ errors (validateIntegration p')
              = a ++ "Missing required config field: category" :: b)
  ∧ isValid (validateIntegration p') = false.
Proof.
  intros Hp Hcat Hvalid p'.
  destruct (one_more_checked p properties c Hp Hcat Hvalid)
    as (a & b & He & He' & Hw & Hs).
  fold p' in He', Hw, Hs.
  unfold validateIntegration. rewrite !phases_checked. simpl.
  split_and!; [done|done|by exists a, b|].
  rewrite He'. by destruct a.
Qed.

Lemma missing_category_costs_ten_witness :
  score (validateIntegration
           (with_metadata Samples.tidy
              (VObj (without_property "category"
                       [("id", VStr "cool-bot"); ("name", VStr "Cool Bot");
                        ("version", VStr "1.0.0");
                        ("description", VStr "Greets new members");
                        ("category", VStr "utility");
                        ("developer", VObj [("name", VStr "Ada");
                                            ("email", VStr "ada@example.org")])]))))
  = score (validateIntegration Samples.tidy) - 10.
Proof.
  refine (proj1 (missing_category_costs_ten Samples.tidy _ "utility" _ _ _));
    reflexivity.
Defined.

(** The claim C4 fails on the code: the sample directory passes every
    check, with a score of 100 and [isValid = true]; without the category
    the score is 90, still 70 or more, nothing else changes, and [isValid]
    is [false]. *)
Lemma missing_category_invalidates :
  validateIntegration Samples.tidy
  = {| errors := []; warnings := []; score := 100; isValid := true |}
  ∧ validateIntegration
      (with_metadata Samples.tidy
         (VObj (without_property "category"
                  [("id", VStr "cool-bot"); ("name", VStr "Cool Bot");
                   ("version", VStr "1.0.0");
                   ("description", VStr "Greets new members");
                   ("category", VStr "utility");
                   ("developer", VObj [("name", VStr "Ada");
                                       ("email", VStr "ada@example.org")])])))
    = {| errors := ["Missing required config field: category"];
         warnings := []; score := 90; isValid := false |}.
Proof. split; by vm_compute. Qed.

(** ** Texts put together *)

Lemma append_cons c a b : String c a +:+ b = String c (a +:+ b).
Proof. done. Qed.

Lemma append_nil_r s : s +:+ "" = s.
Proof. induction s as [|c s IH]; [done|]. by rewrite append_cons, IH. Qed.

Lemma append_assoc a b c : (a +:+ b) +:+ c = a +:+ b +:+ c.
Proof. induction a as [|x a IH]; [done|]. by rewrite !append_cons, IH. Qed.

Lemma length_append a b :
  String.length (a +:+ b) = (String.length a + String.length b)%nat.
Proof. induction a as [|x a IH]; [done|]. rewrite append_cons. simpl. by rewrite IH. Qed.

Lemma strip_app sub a b r :
  Str.strip sub a = Some r → Str.strip sub (a +:+ b) = Some (r +:+ b).
Proof.
  revert a. induction sub as [|x sub IH]; intros a; simpl.
  - by intros [= <-].
  - destruct a as [|y a]; [done|]. simpl. destruct (Ascii.eqb x y); [apply IH|done].
Qed.

Lemma strip_some sub s r : Str.strip sub s = Some r → s = sub +:+ r.
Proof.
  revert s. induction sub as [|x sub IH]; intros s; simpl.
  - by intros [= <-].
  - destruct s as [|y s]; [done|]. destruct (Ascii.eqb_spec x y) as [->|]; [|done].
    intros H. by rewrite (IH _ H).
Qed.

Lemma strip_self sub r : Str.strip sub (sub +:+ r) = Some r.
Proof. induction sub as [|x sub IH]; simpl; [done|]. by rewrite Ascii.eqb_refl. Qed.

Lemma includes_strip sub s r : Str.strip sub s = Some r → Str.includes sub s = true.
Proof. intros H. destruct s; simpl; by rewrite H. Qed.

Lemma includes_app_l sub a b :
  Str.includes sub a = true → Str.includes sub (a +:+ b) = true.
Proof.
  induction a as [|c a IH].
  - simpl. destruct (Str.strip sub "") eqn:H; [|done]. intros _.
    apply (includes_strip _ _ _ (strip_app _ _ b _ H)).
  - cbn [Str.includes]. destruct (Str.strip sub (String c a)) eqn:H.
    + intros _. apply (includes_strip _ _ _ (strip_app _ _ b _ H)).
    + intros Ha. change (String c a +:+ b) with (String c (a +:+ b)).
      cbn [Str.includes]. destruct (Str.strip sub (String c (a +:+ b))); [done|].
      by apply IH.
Qed.

Lemma includes_app_r sub a b :
  Str.includes sub b = true → Str.includes sub (a +:+ b) = true.
Proof.
  intros Hb. induction a as [|c a IH]; [done|].
  change (String c a +:+ b) with (String c (a +:+ b)). cbn [Str.includes].
  by destruct (Str.strip sub (String c (a +:+ b))).
Qed.

Lemma includes_inv sub s :
  Str.includes sub s = true → ∃ x y, s = x +:+ sub +:+ y.
Proof.
  induction s as [|c s IH]; cbn [Str.includes].
  - destruct (Str.strip sub "") eqn:H; [|done]. intros _.
    exists EmptyString, s. exact (strip_some _ _ _ H).
  - destruct (Str.strip sub (String c s)) eqn:H.
    + intros _. exists EmptyString, s0. exact (strip_some _ _ _ H).
    + intros (x & y & ->)%IH. by exists (String c x), y.
Qed.

Lemma all_app class a b :
  Str.all class (a +:+ b) = Str.all class a && Str.all class b.
Proof. induction a as [|c a IH]; simpl; [done|]. by rewrite IH, andb_assoc. Qed.

Lemma all_impl (class class' : ascii → bool) s :
  (∀ c, class c = true → class' c = true) →
  Str.all class s = true → Str.all class' s = true.
Proof.
  intros H. induction s as [|c s IH]; simpl; [done|].
  intros [Hc Hs]%andb_prop. by rewrite (H c Hc), IH.
Qed.

(** ** The class name is made of letters and digits *)

Lemma alnum_toUpper c : alnum c = true → alnum (toUpper c) = true.
Proof. destruct c as [[] [] [] [] [] [] [] []]; by vm_compute. Qed.

Lemma alnum_toLower c : alnum c = true → alnum (toLower c) = true.
Proof. destruct c as [[] [] [] [] [] [] [] []]; by vm_compute. Qed.

Lemma capitalize_alnum word :
  Str.all alnum word = true → Str.all alnum (capitalize word) = true.
Proof.
  destruct word as [|c word]; [done|]. cbn [capitalize Str.all].
  intros [Hc Hw]%andb_prop. rewrite (alnum_toUpper c Hc). cbn [andb]. clear Hc.
  unfold Str.toLowerCase.
  induction word as [|d word IH]; [done|]. cbn [Str.map Str.all] in *.
  apply andb_prop in Hw as [Hd Hw]. by rewrite (alnum_toLower d Hd), IH.
Qed.

Lemma split_alnum s :
  Str.all (λ c, alnum c || Ascii.eqb c " ") s = true →
  Forall (λ word, Str.all alnum word = true) (Str.split " " s).
Proof.
  induction s as [|c s IH]; [by repeat constructor|].
  cbn [Str.all]. intros [Hc Hs]%andb_prop. specialize (IH Hs).
  rewrite split_step. rewrite (split_hd_tl " " s) in IH.
  apply Forall_cons in IH as [Hh Ht].
  destruct (Ascii.eqb c " ") eqn:Hsp.
  - constructor; [done|]. rewrite (split_hd_tl " " s). by constructor.
  - constructor; [|done]. simpl. rewrite orb_false_r in Hc. by rewrite Hc, Hh.
Qed.

Lemma toPascalCase_alnum str : Str.all alnum (toPascalCase str) = true.
Proof.
  unfold toPascalCase. rewrite replace_g_one_char by done.
  assert (Hs : Str.all (λ c, alnum c || Ascii.eqb c " ")
                 (Str.map (λ c, if negb (alnum c) then " "%char else c) str) = true).
  { induction str as [|c s IH]; [done|]. simpl. rewrite IH, andb_true_r.
    by destruct (alnum c) eqn:Hc; simpl; [rewrite Hc|]. }
  apply split_alnum in Hs.
  assert (Hj : ∀ w ws, Str.join "" (w :: ws) = w +:+ Str.join "" ws).
  { intros w [|w' ws]; cbn; [by rewrite append_nil_r|done]. }
  induction Hs as [|word words Hw Hws IH]; [done|]. cbn [List.filter].
  destruct (0 <? String.length word)%nat; [|exact IH]. cbn [List.map].
  rewrite Hj, all_app, IH, andb_true_r. by apply capitalize_alnum.
Qed.

(** ** The class name, as the specification words it *)

Lemma toUpper_upper_case c : alnum c = true → toUpper c = upper_case c.
Proof. destruct c as [[] [] [] [] [] [] [] []]; by vm_compute. Qed.

Lemma toLower_lower_case c : alnum c = true → toLower c = lower_case c.
Proof. destruct c as [[] [] [] [] [] [] [] []]; by vm_compute. Qed.

Lemma capitalize_title word :
  Str.all alnum word = true → capitalize word = title word.
Proof.
  destruct word as [|c word]; [done|]. cbn [Str.all capitalize title].
  intros [Hc Hw]%andb_prop. rewrite (toUpper_upper_case c Hc). f_equal.
  unfold Str.toLowerCase.
  induction word as [|d word IH]; [done|]. cbn [Str.all Str.map] in *.
  apply andb_prop in Hw as [Hd Hw]. by rewrite (toLower_lower_case d Hd), IH.
Qed.

Lemma map_capitalize_title words :
  Forall (λ word, Str.all alnum word = true) words →
  List.map capitalize (List.filter nonempty words)
  = List.map title (List.filter nonempty words).
Proof.
  induction 1 as [|word words Hw Hws IH]; [done|]. cbn [List.filter].
  destruct (nonempty word); [|exact IH]. cbn [List.map].
  by rewrite (capitalize_title word Hw), IH.
Qed.

Lemma spaced_alnum str :
  Forall (λ word, Str.all alnum word = true)
    (Str.split " " (Str.map (λ c, if negb (alnum c) then " "%char else c) str)).
Proof.
  apply split_alnum.
  induction str as [|c s IH]; [done|]. simpl. rewrite IH, andb_true_r.
  by destruct (alnum c) eqn:Hc; simpl; [rewrite Hc|].
Qed.

(** C7. [toPascalCase] puts a space for every character that is not a
    letter or a digit, splits on spaces, drops the empty tokens, writes
    every token with its first character in upper case and the rest in
    lower case, and joins them; this is also what the specification's
    wording, one space for a run, comes to. The case of a character is
    given here by its code, apart from the code: the first character of a
    token loses 32 when it is a lower-case letter, every later one gains 32
    when it is an upper-case letter. It maps [cool bot-2] to [CoolBot2], two
    spaces to the empty text and [hELLO wORLD] to [HelloWorld]. *)
Theorem toPascalCase_correct :
  (∀ str,
     toPascalCase str
     = Str.join ""
         (List.map
            (λ word, match word with
                     | EmptyString => EmptyString
                     | String c rest =>
                         String (if lower c then ascii_of_N (code c - 32) else c)
                           (Str.map (λ d, if upper d then ascii_of_N (code d + 32) else d)
                              rest)
                     end)
            (List.filter (λ word, (0 <? String.length word)%nat)
               (Str.split " "
                  (Str.map (λ c, if alnum c then c else " "%char) str))))
     ∧ toPascalCase str = toPascalCase_spec str)
  ∧ toPascalCase "cool bot-2" = "CoolBot2"
  ∧ toPascalCase "  " = ""
  ∧ toPascalCase "hELLO wORLD" = "HelloWorld"
  ∧ toPascalCase "my_XML-parser v2" = "MyXmlParserV2".
Proof.
  split; [|by vm_compute].
  intros str.
  assert (Hmap : replace_g [[One (λ c, negb (alnum c))]] " " str
                 = Str.map (λ c, if negb (alnum c) then " "%char else c) str)
    by by apply replace_g_one_char.
  assert (Hsame : Str.map (λ c, if alnum c then c else " "%char) str
                  = Str.map (λ c, if negb (alnum c) then " "%char else c) str).
  { clear Hmap. induction str as [|c s IH]; [done|]. simpl. rewrite IH.
    by destruct (alnum c). }
  assert (Hcode : toPascalCase str
                  = Str.join ""
                      (List.map title
                         (List.filter nonempty
                            (Str.split " "
                               (Str.map (λ c, if negb (alnum c) then " "%char else c)
                                  str))))).
  { unfold toPascalCase. rewrite Hmap. fold nonempty.
    by rewrite (map_capitalize_title _ (spaced_alnum str)). }
  split.
  - rewrite Hcode, Hsame. reflexivity.
  - rewrite Hcode. unfold toPascalCase_spec. fold nonempty. do 2 f_equal.
    destruct (tokens_squeeze str) as [[Hh Ht] _].
    rewrite (split_hd_tl " " (Str.map _ str)), (split_hd_tl " " (squeeze false str)).
    cbn [List.filter]. by rewrite Hh, Ht.
Qed.

Lemma expand_plain repl before found after :
  Str.all (λ c, negb (Ascii.eqb c "$")) repl = true →
  expand repl before found after = repl.
Proof.
  induction repl as [|c repl IH]; [done|]. cbn [Str.all expand].
  intros [Hc Hr]%andb_prop. apply negb_true_iff in Hc. by rewrite Hc, IH.
Qed.

Lemma expand_toPascalCase name before found after :
  expand (toPascalCase name) before found after = toPascalCase name.
Proof.
  apply expand_plain, (all_impl alnum); [|apply toPascalCase_alnum].
  intros c Hc. destruct (Ascii.eqb_spec c "$") as [->|]; [by vm_compute in Hc|done].
Qed.

(** ** Replacing a literal text *)

Lemma exec_here_lit lit b s : exec_here [[Lit lit]] b s = Str.strip lit s.
Proof. cbn [exec_here run]. by destruct (Str.strip lit s). Qed.

Lemma strip_agree lit a rest :
  agree lit a = false → Str.strip lit (a +:+ rest) = None.
Proof.
  revert a. induction lit as [|x lit IH]; intros a; [done|].
  destruct a as [|y a]; [done|]. rewrite append_cons. cbn [agree Str.strip].
  destruct (Ascii.eqb x y); [apply IH|done].
Qed.

Lemma replace_go_cons_none r repl b seen c s :
  exec_here r b (String c s) = None →
  replace_go r repl 0 b seen (String c s)
  = String c (replace_go r repl 0 false (c :: seen) s).
Proof. intros H. cbn [replace_go]. by rewrite H. Qed.

Lemma replace_clean lit repl a rest :
  clean lit a = true →
  ∀ b seen, ∃ b' seen',
    replace_go [[Lit lit]] repl 0 b seen (a +:+ rest)
    = a +:+ replace_go [[Lit lit]] repl 0 b' seen' rest.
Proof.
  induction a as [|c a IH]; intros Hc b seen; [by exists b, seen|].
  cbn [clean] in Hc. apply andb_prop in Hc as [Hc1 Hc2].
  apply negb_true_iff in Hc1.
  rewrite append_cons, replace_go_cons_none
    by (rewrite exec_here_lit, <- append_cons; by apply strip_agree).
  destruct (IH Hc2 false (c :: seen)) as (b' & seen' & ->).
  by exists b', seen'.
Qed.

Lemma replace_skip r repl a rest :
  ∀ b seen, ∃ b' seen',
    replace_go r repl (String.length a) b seen (a +:+ rest)
    = replace_go r repl 0 b' seen' rest.
Proof.
  induction a as [|c a IH]; intros b seen; [by exists b, seen|].
  rewrite append_cons. cbn [String.length replace_go]. apply IH.
Qed.

Lemma matched_app a rest : matched (a +:+ rest) rest = a.
Proof.
  unfold matched. rewrite length_append.
  replace (String.length a + String.length rest - String.length rest)%nat
    with (String.length a) by lia.
  induction a as [|c a IH]; [by destruct rest|].
  rewrite append_cons. cbn [String.length substring]. by rewrite IH.
Qed.

Lemma replace_match lit repl rest :
  lit ≠ EmptyString →
  ∀ b seen, ∃ before b' seen',
    replace_go [[Lit lit]] repl 0 b seen (lit +:+ rest)
    = expand repl before lit rest
      +:+ replace_go [[Lit lit]] repl 0 b' seen' rest.
Proof.
  destruct lit as [|c lit]; [done|]. intros _ b seen.
  rewrite append_cons. cbn [replace_go]. rewrite exec_here_lit.
  change (String c (lit +:+ rest)) with (String c lit +:+ rest).
  rewrite strip_self. cbv zeta. rewrite matched_app.
  cbn [String.length Nat.eqb Nat.pred].
  destruct (replace_skip [[Lit (String c lit)]] repl lit rest false (c :: seen))
    as (b' & seen' & ->).
  by eexists _, b', seen'.
Qed.

(** a class name followed by a space holds no start of a match of
    [this.config.name] *)
Lemma strip_after_alnum P rest :
  Str.all alnum P = true → P ≠ EmptyString →
  Str.strip "this.config.name" (P +:+ String " " rest) = None.
Proof.
  intros HP Hne.
  assert (Hdot : ∀ c, alnum c = true → Ascii.eqb "." c = false).
  { intros c Hc. destruct (Ascii.eqb_spec "." c) as [<-|]; [by vm_compute in Hc|done]. }
  destruct P as [|c1 P]; [done|].
  rewrite append_cons. cbn [Str.strip]. destruct (Ascii.eqb "t" c1); [|done].
  cbn [Str.all] in HP. apply andb_prop in HP as [_ HP].
  destruct P as [|c2 P]; [done|].
  rewrite append_cons. cbn [Str.strip]. destruct (Ascii.eqb "h" c2); [|done].
  cbn [Str.all] in HP. apply andb_prop in HP as [_ HP].
  destruct P as [|c3 P]; [done|].
  rewrite append_cons. cbn [Str.strip]. destruct (Ascii.eqb "i" c3); [|done].
  cbn [Str.all] in HP. apply andb_prop in HP as [_ HP].
  destruct P as [|c4 P]; [done|].
  rewrite append_cons. cbn [Str.strip]. destruct (Ascii.eqb "s" c4); [|done].
  cbn [Str.all] in HP. apply andb_prop in HP as [_ HP].
  destruct P as [|c5 P]; [done|].
  rewrite append_cons. cbn [Str.strip].
  cbn [Str.all] in HP. apply andb_prop in HP as [HP _].
  by rewrite (Hdot c5 HP).
Qed.

Lemma replace_after_alnum repl P rest :
  Str.all alnum P = true →
  ∀ b seen, ∃ b' seen',
    replace_go [[Lit "this.config.name"]] repl 0 b seen (P +:+ String " " rest)
    = P +:+ replace_go [[Lit "this.config.name"]] repl 0 b' seen' (String " " rest).
Proof.
  induction P as [|c P IH]; intros HP b seen; [by exists b, seen|].
  rewrite append_cons, replace_go_cons_none
    by (rewrite exec_here_lit, <- append_cons; by apply strip_after_alnum).
  cbn [Str.all] in HP. apply andb_prop in HP as [_ HP].
  destruct (IH HP false (c :: seen)) as (b' & seen' & ->).
  by exists b', seen'.
Qed.

(** ** The template around the texts that are replaced *)

Lemma template_split :
  integration_template = template_head +:+ "IntegrationTemplate" +:+ template_tail.
Proof. by vm_compute. Qed.

Lemma tail_split :
  template_tail = tail_head +:+ "this.config.name" +:+ tail_rest.
Proof. by vm_compute. Qed.

Lemma tail_space : template_tail = String " " (substring 1 (String.length template_tail) template_tail).
Proof. by vm_compute. Qed.

(** the template has the name of the class once *)
Lemma copied_class_name name :
  replace_g [[Lit "IntegrationTemplate"]] (toPascalCase name) integration_template
  = template_head +:+ toPascalCase name +:+ template_tail.
Proof.
  unfold replace_g. rewrite template_split.
  destruct (replace_clean "IntegrationTemplate" (toPascalCase name) template_head
              ("IntegrationTemplate" +:+ template_tail)
              ltac:(by vm_compute) true [])
    as (b1 & s1 & ->).
  destruct (replace_match "IntegrationTemplate" (toPascalCase name) template_tail
              ltac:(done) b1 s1)
    as (before & b2 & s2 & ->).
  rewrite expand_toPascalCase.
  destruct (replace_clean "IntegrationTemplate" (toPascalCase name) template_tail ""
              ltac:(by vm_compute) b2 s2)
    as (b3 & s3 & H3).
  rewrite append_nil_r in H3. rewrite H3. cbn [replace_go exec_here run Str.strip].
  by rewrite append_nil_r.
Qed.

(** ** The markers in the two generated sources *)

(** the copied template keeps both markers, whatever the name *)
Lemma copied_markers name :
  Str.includes "export default class" (integration_js_copied name) = true
  ∧ Str.includes "async onLoad()" (integration_js_copied name) = true.
Proof.
  unfold integration_js_copied. cbv zeta. rewrite copied_class_name.
  unfold replace_g.
  destruct (replace_clean "this.config.name" (String dquote name +:+ String dquote "")
              template_head (toPascalCase name +:+ template_tail)
              ltac:(by vm_compute) true [])
    as (b1 & s1 & ->).
  split.
  - apply includes_app_l. by vm_compute.
  - apply includes_app_r. rewrite tail_space.
    destruct (replace_after_alnum (String dquote name +:+ String dquote "")
                (toPascalCase name) (substring 1 (String.length template_tail) template_tail)
                (toPascalCase_alnum name) b1 s1)
      as (b2 & s2 & ->).
    apply includes_app_r. rewrite <- tail_space, tail_split.
    destruct (replace_clean "this.config.name" (String dquote name +:+ String dquote "")
                tail_head ("this.config.name" +:+ tail_rest)
                ltac:(by vm_compute) b2 s2)
      as (b3 & s3 & ->).
    apply includes_app_l. by vm_compute.
Qed.

Lemma no_d_paren_app prev a b :
  no_d_paren prev a = true → (∀ prev', no_d_paren prev' b = true) →
  no_d_paren prev (a +:+ b) = true.
Proof.
  intros Ha Hb. revert prev Ha. induction a as [|c a IH]; intros prev Ha; [apply Hb|].
  rewrite append_cons. cbn [no_d_paren] in *.
  apply andb_prop in Ha as [-> Ha]. by rewrite IH.
Qed.

Lemma no_d_paren_app_false prev a b :
  (∀ prev', no_d_paren prev' b = false) → no_d_paren prev (a +:+ b) = false.
Proof.
  intros Hb. revert prev. induction a as [|c a IH]; intros prev; [apply Hb|].
  rewrite append_cons. cbn [no_d_paren]. by rewrite IH, andb_false_r.
Qed.

Lemma no_paren_no_d_paren prev s : no_paren s = true → no_d_paren prev s = true.
Proof.
  revert prev. induction s as [|c s IH]; intros prev; [done|].
  unfold no_paren in *. cbn [Str.all no_d_paren].
  intros [Hc Hs]%andb_prop. apply negb_true_iff in Hc. by rewrite Hc, IH.
Qed.

Lemma onLoad_d_paren prev s :
  Str.includes "async onLoad()" s = true → no_d_paren prev s = false.
Proof.
  intros (x & y & ->)%includes_inv. apply no_d_paren_app_false.
  intros prev'. by vm_compute.
Qed.

Lemma toPascalCase_no_paren name : no_paren (toPascalCase name) = true.
Proof.
  apply (all_impl alnum); [|apply toPascalCase_alnum].
  intros c Hc. destruct (Ascii.eqb_spec c "(") as [->|]; [by vm_compute in Hc|done].
Qed.

(** the emitted class has the export marker, and no [onLoad] of its own *)
Lemma emitted_markers name description :
  Str.includes "export default class" (integration_js_emitted name description) = true
  ∧ (no_paren name = true → no_paren description = true →
     Str.includes "async onLoad()" (integration_js_emitted name description) = false).
Proof.
  unfold integration_js_emitted. split.
  - do 4 apply includes_app_r. apply includes_app_l. by vm_compute.
  - intros Hn Hd.
    destruct (Str.includes "async onLoad()" _) eqn:H; [|done].
    apply (onLoad_d_paren " ") in H. rewrite <- H. symmetry.
    repeat (apply no_d_paren_app; [|intros ?]);
      first [ by vm_compute
            | by apply no_paren_no_d_paren
            | apply no_paren_no_d_paren, toPascalCase_no_paren ].
Qed.

(** C6, as the code has it. For every name and description both generated
    sources have the default-export class marker, and the copied template
    has the load-hook marker, so on it the structure check comes down to
    the complexity check. The emitted class inherits [onLoad] and has no
    [async onLoad()] of its own: for a name and a description without an
    opening parenthesis the structure check adds the warning and takes 5
    before the complexity check. *)
Theorem generated_sources_differ (name description : string) :
  (∀ r, code_structure (integration_js_copied name) r
        = complexity_check (integration_js_copied name) r)
  ∧ Str.includes "export default class" (integration_js_emitted name description)
    = true
  ∧ (no_paren name = true → no_paren description = true →
     ∀ r, code_structure (integration_js_emitted name description) r
          = (warnings_push "Integration should implement onLoad() method" ;;
             score_minus 5 ;;
             complexity_check (integration_js_emitted name description)) r).
Proof.
  destruct (copied_markers name) as [Hc1 Hc2].
  destruct (emitted_markers name description) as [He1 He2].
  split_and!.
  - intros r. unfold code_structure. by rewrite Hc1, Hc2.
  - done.
  - intros Hn Hd r. unfold code_structure. by rewrite He1, (He2 Hn Hd).
Qed.

Lemma generated_sources_differ_witness :
  code_structure (integration_js_emitted "Cool Bot" "Greets new members") initial
  = (warnings_push "Integration should implement onLoad() method" ;;
     score_minus 5 ;;
     complexity_check (integration_js_emitted "Cool Bot" "Greets new members"))
      initial.
Proof.
  refine (proj2 (proj2 (generated_sources_differ "Cool Bot" "Greets new members"))
            _ _ initial); reflexivity.
Defined.

(** The claim C6 fails on the code: for the name [Cool Bot] the source
    scan finds nothing in the copied template and warns about [onLoad] in
    the emitted class, which costs 5. *)
Lemma generated_sources_scan_differently :
  security_analysis (integration_js_copied "Cool Bot") initial
  = ({| errors := []; warnings := []; score := 100; isValid := true |},
     Returned tt)
  ∧ security_analysis (integration_js_emitted "Cool Bot" "Greets new members") initial
    = ({| errors := [];
          warnings := ["Integration should implement onLoad() method"];
          score := 95; isValid := true |},
       Returned tt).
Proof. split; by vm_compute. Qed.

(** * Further properties of the validator *)

(** ** The required files *)

Lemma file_structure_missing p :
  file_structure p initial
  = ({| errors := List.map (λ file, "Missing required file: " +:+ file) (missing p);
        warnings := [];
        score := 100 - 20 * Z.of_nat (List.length (missing p));
        isValid := true |}, Returned tt).
Proof.
  destruct p as [d m pk src rd t o]. unfold missing. cbn [mercy_integration_json
    package_json src_integration_js README_md].
  destruct m, pk, src, rd; reflexivity.
Qed.

Lemma validate_grows_files p :
  grows (file_structure p initial).1 (validateIntegration p).
Proof.
  unfold validateIntegration. rewrite phases_checked. unfold checked.
  eapply grows_trans; [apply monotone_configuration|].
  eapply grows_trans; [apply monotone_package|].
  eapply grows_trans; [apply monotone_integration_code|].
  eapply grows_trans; [apply monotone_additional|]. apply monotone_final.
Qed.

Lemma validate_grows_configuration p :
  grows (configuration p (file_structure p initial).1).1 (validateIntegration p).
Proof.
  unfold validateIntegration. rewrite phases_checked. unfold checked.
  eapply grows_trans; [apply monotone_package|].
  eapply grows_trans; [apply monotone_integration_code|].
  eapply grows_trans; [apply monotone_additional|]. apply monotone_final.
Qed.

Lemma validate_grows_package p :
  grows (package p (configuration p (file_structure p initial).1).1).1
    (validateIntegration p).
Proof.
  unfold validateIntegration. rewrite phases_checked. unfold checked.
  eapply grows_trans; [apply monotone_integration_code|].
  eapply grows_trans; [apply monotone_additional|]. apply monotone_final.
Qed.

Lemma validate_grows_integration_code p :
  grows (integration_code p
           (package p (configuration p (file_structure p initial).1).1).1).1
    (validateIntegration p).
Proof.
  unfold validateIntegration. rewrite phases_checked. unfold checked.
  eapply grows_trans; [apply monotone_additional|]. apply monotone_final.
Qed.

(** X1. The required-file check does not stop at the first missing file:
    it reports every missing file of the table, in the order of the table,
    and takes 20 for each; so a run ends with a score of at most
    [100 - 20 * n] for [n] missing files, with those reports first among
    its errors. *)
Theorem every_missing_file_reported (p : Project) :
  errors (file_structure p initial).1
  = List.map (λ file, "Missing required file: " +:+ file) (missing p)
  ∧ score (file_structure p initial).1 = 100 - 20 * Z.of_nat (List.length (missing p))
  ∧ List.map (λ file, "Missing required file: " +:+ file) (missing p)
    `prefix_of` errors (validateIntegration p)
  ∧ score (validateIntegration p) <= 100 - 20 * Z.of_nat (List.length (missing p)).
Proof.
  pose proof (validate_grows_files p) as H.
  rewrite file_structure_missing in *. cbn [fst errors score] in *.
  split_and!; [done|done|apply H|apply H].
Qed.

(** ** An error stays, and fails the run *)

Lemma errors_stay r r' : grows r r' → errors r ≠ [] → errors r' ≠ [].
Proof.
  intros ([k Hk] & _) Hr. rewrite Hk. destruct (errors r); [done|discriminate].
Qed.

Lemma invalid_of_errors p :
  errors (validateIntegration p) ≠ [] → isValid (validateIntegration p) = false.
Proof.
  unfold validateIntegration. rewrite phases_checked. simpl.
  by destruct (errors (checked p)).
Qed.

Lemma gate_closed path r :
  (no_error_mentions path r).2 = Returned false → errors r ≠ [].
Proof. unfold no_error_mentions. simpl. by destruct (errors r). Qed.

Lemma always_errs_errors_push message : always_errs (errors_push message).
Proof. intros r. simpl. by destruct (errors r). Qed.

Lemma always_errs_bind_l {A B} (m : M A) (f : A → M B) :
  always_errs m → (∀ a, monotone (f a)) → always_errs (m ≫= f).
Proof.
  intros Hm Hf r. unfold mbind, M_bind. specialize (Hm r).
  destruct (m r) as [r1 [a|message]]; simpl in *; [|done].
  by apply (errors_stay r1); [apply Hf|].
Qed.

Lemma always_errs_bind_r {A B} (m : M A) (f : A → M B) :
  total m → (∀ a, always_errs (f a)) → always_errs (m ≫= f).
Proof.
  intros Hm Hf r. unfold mbind, M_bind. destruct (Hm r) as [a Ha].
  destruct (m r) as [r1 [a1|message]]; simpl in *; [apply Hf|done].
Qed.

Lemma always_errs_try (body : M unit) (handler : string → M unit) :
  always_errs body → (∀ message, monotone (handler message)) →
  always_errs (try_catch body handler).
Proof.
  intros Hb Hh r. unfold try_catch. specialize (Hb r).
  destruct (body r) as [r1 [a|message]]; simpl in *; [done|].
  by apply (errors_stay r1); [apply Hh|].
Qed.

Lemma always_errs_try_throw {A} (message : string) (f : A → M unit)
    (handler : string → M unit) :
  always_errs (handler message) →
  always_errs (try_catch (throw message ≫= f) handler).
Proof. intros Hh r. apply Hh. Qed.

Lemma always_errs_gate path (body : M unit) :
  always_errs body →
  always_errs (go ← no_error_mentions path; when go body).
Proof.
  intros Hb r. unfold mbind, M_bind.
  pose proof (gate_closed path r) as Hg.
  destruct (no_error_mentions path r) as [r1 o] eqn:Hn.
  assert (r1 = r) as -> by (unfold no_error_mentions in Hn; congruence).
  unfold no_error_mentions in Hn. injection Hn as <-.
  destruct (_ || _); simpl; [apply Hb|by apply Hg].
Qed.

Lemma always_errs_for {A} (l : list A) (body : A → M unit) x :
  In x l → (∀ y, total (body y)) → (∀ y, monotone (body y)) →
  always_errs (body x) → always_errs (for_of l body).
Proof.
  intros Hx Ht Hm Hb. induction l as [|y l IH]; [done|]. simpl.
  destruct Hx as [->|Hx].
  - apply always_errs_bind_l; [done|]. intros _. by apply monotone_for.
  - apply always_errs_bind_r; [done|]. intros _. by apply IH.
Qed.

Lemma total_apply_rule codeData r : total (apply_rule codeData r).
Proof.
  unfold apply_rule. destruct (match_g _ _); [|apply total_ret].
  destruct (severity r); repeat total_step.
Qed.

(** what cannot be read as a JSON object: no file contents, a text that is
    no JSON, and [null] *)
Lemma always_errs_configuration_unusable p :
  match mercy_integration_json p with
  | Unreadable _ | Content (SyntaxError _) | Content (Json VNull) => True
  | _ => False
  end →
  always_errs (configuration p).
Proof.
  intros H. unfold configuration. apply always_errs_gate.
  destruct (mercy_integration_json p) as [|message|[message|[]]]; try contradiction.
  - apply always_errs_try_throw, always_errs_bind_l;
      [apply always_errs_errors_push|intros _; mono].
  - apply always_errs_try_throw, always_errs_bind_l;
      [apply always_errs_errors_push|intros _; mono].
  - intros [e w sc v]. vm_compute. by destruct e.
Qed.

Lemma always_errs_package_unusable p :
  match package_json p with
  | Unreadable _ | Content (SyntaxError _) | Content (Json VNull) => True
  | _ => False
  end →
  always_errs (package p).
Proof.
  intros H. unfold package. apply always_errs_gate.
  destruct (package_json p) as [|message|[message|[]]]; try contradiction.
  - apply always_errs_try_throw, always_errs_bind_l;
      [apply always_errs_errors_push|intros _; mono].
  - apply always_errs_try_throw, always_errs_bind_l;
      [apply always_errs_errors_push|intros _; mono].
  - intros [e w sc v]. vm_compute. by destruct e.
Qed.

Lemma always_errs_integration_code_unreadable p message :
  src_integration_js p = Unreadable message → always_errs (integration_code p).
Proof.
  intros H. unfold integration_code. apply always_errs_gate. rewrite H.
  apply always_errs_try_throw, always_errs_bind_l;
    [apply always_errs_errors_push|intros _; mono].
Qed.

(** X2. A run is invalid as soon as a required file is missing, or the
    metadata file or the manifest cannot be read, is no JSON or holds
    [null], or the source file cannot be read, whatever the rest of the
    directory is. *)
Theorem unusable_file_fails (p : Project) :
  missing p ≠ []
  ∨ match mercy_integration_json p with
    | Unreadable _ | Content (SyntaxError _) | Content (Json VNull) => True
    | _ => False
    end
  ∨ match package_json p with
    | Unreadable _ | Content (SyntaxError _) | Content (Json VNull) => True
    | _ => False
    end
  ∨ (∃ message, src_integration_js p = Unreadable message) →
  errors (validateIntegration p) ≠ [] ∧ isValid (validateIntegration p) = false.
Proof.
  intros H.
  assert (He : errors (validateIntegration p) ≠ []); [|by split; [|apply invalid_of_errors]].
  destruct H as [H|[H|[H|[message H]]]].
  - apply (errors_stay _ _ (validate_grows_files p)).
    rewrite file_structure_missing. simpl. by destruct (missing p).
  - apply (errors_stay _ _ (validate_grows_configuration p)).
    by apply always_errs_configuration_unusable.
  - apply (errors_stay _ _ (validate_grows_package p)).
    by apply always_errs_package_unusable.
  - apply (errors_stay _ _ (validate_grows_integration_code p)).
    by apply (always_errs_integration_code_unreadable p message).
Qed.

Lemma unusable_file_fails_witness :
  isValid (validateIntegration
             (with_metadata Samples.tidy VNull)) = false.
Proof.
  refine (proj2 (unusable_file_fails (with_metadata Samples.tidy VNull) _)).
  right. left. simpl. exact I.
Defined.

(** ** A phase whose file was reported missing *)

Lemma gate_skips path (body : M unit) r message :
  In message (errors r) → Str.includes path message = true →
  (go ← no_error_mentions path; when go body) r = (r, Returned tt).
Proof.
  intros Hin Hinc. unfold mbind, M_bind, no_error_mentions.
  assert (Hf : forallb (λ e, negb (Str.includes path e)) (errors r) = false).
  { apply not_true_is_false. intros Hall.
    rewrite forallb_forall in Hall. specialize (Hall _ Hin). by rewrite Hinc in Hall. }
  rewrite Hf. by destruct (errors r).
Qed.

Lemma In_grows r r' message :
  grows r r' → In message (errors r) → In message (errors r').
Proof. intros ([k ->] & _) H. apply in_or_app. by left. Qed.

(** X3. The metadata phase runs exactly when the metadata file is there.
    A manifest or a source file that is missing is reported once, by the
    required-file check: the phase of that file then leaves the result as
    it is, and neither reads the file nor reports it again. *)
Theorem missing_file_phase_skipped (p : Project) :
  let s1 := (file_structure p initial).1 in
  let s2 := (configuration p s1).1 in
  let s3 := (package p s2).1 in
  (mercy_integration_json p = Missing → configuration p s1 = (s1, Returned tt))
  ∧ (present (mercy_integration_json p) = true →
     (no_error_mentions "mercy-integration.json" s1).2 = Returned true)
  ∧ (package_json p = Missing → package p s2 = (s2, Returned tt))
  ∧ (src_integration_js p = Missing → integration_code p s3 = (s3, Returned tt)).
Proof.
  intros s1 s2 s3.
  assert (Hs1 : errors s1
                = List.map (λ file, "Missing required file: " +:+ file) (missing p))
    by (unfold s1; by rewrite file_structure_missing).
  split_and!.
  - intros H. apply (gate_skips _ _ _ "Missing required file: mercy-integration.json");
      [|by vm_compute].
    rewrite Hs1. unfold missing. rewrite H. by left.
  - intros H. unfold s1. by rewrite metadata_gate_open.
  - intros H. apply (gate_skips _ _ _ "Missing required file: package.json");
      [|by vm_compute].
    apply (In_grows s1); [apply monotone_configuration|].
    rewrite Hs1. unfold missing. rewrite H.
    apply (in_map (λ file, "Missing required file: " +:+ file) _ "package.json").
    apply in_or_app. right. apply in_or_app. left. by left.
  - intros H. apply (gate_skips _ _ _ "Missing required file: src/integration.js");
      [|by vm_compute].
    apply (In_grows s2); [apply monotone_package|].
    apply (In_grows s1); [apply monotone_configuration|].
    rewrite Hs1. unfold missing. rewrite H.
    apply (in_map (λ file, "Missing required file: " +:+ file) _ "src/integration.js").
    apply in_or_app. right. apply in_or_app. right. apply in_or_app. left. by left.
Qed.

Lemma missing_file_phase_skipped_witness :
  integration_code
    {| cwd := "/tmp/x"; mercy_integration_json := Content (Json Samples.metadata);
       package_json := Content (Json Samples.manifest);
       src_integration_js := Missing; README_md := Content Samples.readme;
       test_dir := true; others := [] |}
    {| errors := ["Missing required file: src/integration.js"]; warnings := [];
       score := 80; isValid := true |}
  = ({| errors := ["Missing required file: src/integration.js"]; warnings := [];
        score := 80; isValid := true |}, Returned tt).
Proof.
  exact (proj2 (proj2 (proj2 (missing_file_phase_skipped
    {| cwd := "/tmp/x"; mercy_integration_json := Content (Json Samples.metadata);
       package_json := Content (Json Samples.manifest);
       src_integration_js := Missing; README_md := Content Samples.readme;
       test_dir := true; others := [] |}))) eq_refl).
Defined.

(** ** Dependencies outside the list *)

Lemma dependency_loop (keys : list string) r :
  for_of keys (λ dep,
    when (negb (existsb (String.eqb dep) allowedDeps))
      (errors_push ("Unauthorized dependency: " +:+ dep) ;; score_minus 15)) r
  = ({| errors := errors r
                  ++ List.map (λ dep, "Unauthorized dependency: " +:+ dep)
                       (List.filter (λ dep, negb (existsb (String.eqb dep) allowedDeps)) keys);
        warnings := warnings r;
        score := score r
                 - 15 * Z.of_nat (List.length
                          (List.filter (λ dep, negb (existsb (String.eqb dep) allowedDeps)) keys));
        isValid := isValid r |}, Returned tt).
Proof.
  revert r. induction keys as [|dep keys IH]; intros r.
  - cbn [for_of List.filter List.map List.length]. unfold mret, M_ret.
    rewrite app_nil_r. destruct r. cbn. do 2 f_equal. lia.
  - cbn [for_of List.filter]. unfold mbind at 1, M_bind at 1.
    destruct (negb (existsb (String.eqb dep) allowedDeps)); cbn [when].
    + unfold mbind, M_bind, errors_push, score_minus. rewrite IH.
      cbn [errors warnings score isValid List.map List.length].
      rewrite <- app_assoc. do 2 f_equal. lia.
    + unfold mret, M_ret. apply IH.
Qed.

Lemma bind_ret {A B} (a : A) (f : A → M B) : (mret a ≫= f) = f a.
Proof. reflexivity. Qed.

Lemma total_warning b message points :
  total (when b (warnings_push message ;; score_minus points)).
Proof. repeat total_step. Qed.

Lemma errors_warning b message points r :
  errors (when b (warnings_push message ;; score_minus points) r).1 = errors r.
Proof. by destruct b. Qed.

Lemma package_errors p properties dependencies r :
  package_json p = Content (Json (VObj properties)) →
  JS.assoc "dependencies" properties = Some dependencies →
  JS.truthy dependencies = true →
  forallb (λ e, negb (Str.includes "package.json" e)) (errors r) = true →
  errors (package p r).1
  = errors r
    ++ List.map (λ dep, "Unauthorized dependency: " +:+ dep)
         (List.filter (λ dep, negb (existsb (String.eqb dep) allowedDeps))
            (JS.keys dependencies)).
Proof.
  intros Hp Hd Ht Hg. unfold package. unfold mbind at 1, M_bind at 1.
  unfold no_error_mentions. rewrite Hg, orb_true_r. cbn [when].
  rewrite Hp. unfold try_catch. cbn [readFile_JSON_parse].
  rewrite bind_ret. cbn [get].
  rewrite bind_ret, then_total by apply total_warning.
  rewrite bind_ret, then_total by apply total_warning.
  rewrite bind_ret, then_total by apply total_warning.
  rewrite bind_ret, Hd. cbn [default from_option id]. rewrite Ht. cbn [when].
  rewrite dependency_loop. cbn [fst errors]. by rewrite !errors_warning.
Qed.

(** X4. A manifest object that declares a dependency outside the list of
    five fails the run, whatever else the directory holds. When the
    manifest phase runs, it adds one error for every such dependency, in
    the order of the keys, and nothing else to the errors. *)
Theorem unauthorized_dependency_fails (p : Project) properties dependencies dep :
  package_json p = Content (Json (VObj properties)) →
  JS.assoc "dependencies" properties = Some dependencies →
  JS.truthy dependencies = true →
  In dep (JS.keys dependencies) →
  existsb (String.eqb dep) allowedDeps = false →
  isValid (validateIntegration p) = false
  ∧ ∀ r, forallb (λ e, negb (Str.includes "package.json" e)) (errors r) = true →
         errors (package p r).1
         = errors r
           ++ List.map (λ dep, "Unauthorized dependency: " +:+ dep)
                (List.filter (λ dep, negb (existsb (String.eqb dep) allowedDeps))
                   (JS.keys dependencies)).
Proof.
  intros Hp Hd Ht Hin Hdep. split; [|intros r; by apply (package_errors p properties)].
  apply invalid_of_errors, (errors_stay _ _ (validate_grows_package p)).
  set (r := (configuration p (file_structure p initial).1).1).
  destruct (forallb (λ e, negb (Str.includes "package.json" e)) (errors r)) eqn:Hg.
  - rewrite (package_errors p properties dependencies r Hp Hd Ht Hg).
    assert (Hf : In dep (List.filter
                           (λ dep, negb (existsb (String.eqb dep) allowedDeps))
                           (JS.keys dependencies)))
      by (apply filter_In; by rewrite Hdep).
    destruct (List.filter _ _); [done|]. by destruct (errors r).
  - apply (errors_stay r); [apply monotone_package|].
    intros He. by rewrite He in Hg.
Qed.

Lemma unauthorized_dependency_fails_witness :
  isValid (validateIntegration (Samples.hostile_with "request")) = false.
Proof.
  refine (proj1 (unauthorized_dependency_fails (Samples.hostile_with "request")
                   _ _ "request" eq_refl eq_refl eq_refl _ eq_refl)).
  right. by left.
Defined.

(** ** Findings in the source *)

Lemma always_errs_apply_rule codeData (r : rule) :
  severity r ≠ medium → (0 < count_matches (pattern r) codeData)%nat →
  always_errs (apply_rule codeData r).
Proof.
  intros Hs Hn. unfold apply_rule.
  pose proof (match_g_count (pattern r) codeData) as H.
  destruct (match_g _ _); [|lia].
  destruct (severity r); [| |done];
    (apply always_errs_bind_l; [apply always_errs_errors_push|intros _; mono]).
Qed.

Lemma monotone_security_analysis_tail codeData : monotone (code_structure codeData).
Proof. unfold code_structure, complexity_check. mono. Qed.

Lemma always_errs_integration_code p codeData :
  src_integration_js p = Content codeData →
  always_errs (security_analysis codeData) →
  always_errs (integration_code p).
Proof.
  intros Hp Hs. unfold integration_code. apply always_errs_gate. rewrite Hp.
  apply always_errs_try; [|intros ?; mono].
  cbn [readFile]. by rewrite bind_ret.
Qed.

(** X5. A source file in which a critical or a high rule of the table
    matches, or which has no [export default class], fails the run,
    whatever the score and the rest of the directory are. *)
Theorem forbidden_source_fails (p : Project) codeData :
  src_integration_js p = Content codeData →
  (∃ r, In r SECURITY_PATTERNS ∧ severity r ≠ medium
        ∧ (0 < count_matches (pattern r) codeData)%nat)
  ∨ Str.includes "export default class" codeData = false →
  isValid (validateIntegration p) = false.
Proof.
  intros Hp H.
  apply invalid_of_errors, (errors_stay _ _ (validate_grows_integration_code p)).
  apply (always_errs_integration_code p codeData Hp). unfold security_analysis.
  destruct H as [(r & Hin & Hs & Hn)|Hm].
  - apply always_errs_bind_l; [|intros _; apply monotone_security_analysis_tail].
    apply (always_errs_for _ _ r); [done|apply total_apply_rule|
      apply monotone_apply_rule|by apply always_errs_apply_rule].
  - apply always_errs_bind_r.
    + apply total_for. apply total_apply_rule.
    + intros _. unfold code_structure. rewrite Hm. cbn [negb when].
      apply always_errs_bind_l; [|intros _; unfold complexity_check; mono].
      apply always_errs_bind_l; [apply always_errs_errors_push|intros _; mono].
Qed.

Lemma forbidden_source_fails_witness :
  isValid (validateIntegration Samples.hostile) = false.
Proof.
  refine (forbidden_source_fails Samples.hostile Samples.hostile_source eq_refl _).
  left.
  exists {| pattern := [[Lit "eval"; Star space; Lit "("]];
            severity := critical; message := "Code evaluation forbidden" |}.
  split; [|split].
  - right. right. right. left. reflexivity.
  - discriminate.
  - vm_compute. lia.
Defined.

(** ** What warnings can cost *)

Lemma grows_same_errors r r1 r2 :
  grows r r1 → grows r1 r2 → errors r2 = errors r → errors r1 = errors r.
Proof.
  intros ([k1 H1] & _) ([k2 H2] & _) H. rewrite H1, <- app_assoc in H2.
  rewrite H in H2. rewrite <- (app_nil_r (errors r)) in H2 at 1.
  apply app_inv_head in H2. symmetry in H2. apply app_eq_nil in H2 as [-> _].
  by rewrite H1, app_nil_r.
Qed.

Lemma costs_weaken {A} n n' (m : M A) : costs n m → (n <= n')%nat → costs n' m.
Proof. intros Hm Hn r He. specialize (Hm r He). lia. Qed.

Lemma costs_stateless {A} (m : M A) : stateless m → costs 0 m.
Proof. intros [o Ho] r _. rewrite Ho. simpl. lia. Qed.

Lemma costs_no_error_mentions path : costs 0 (no_error_mentions path).
Proof. intros r _. simpl. lia. Qed.

Lemma costs_warnings_push message : costs 0 (warnings_push message).
Proof. intros r _. simpl. lia. Qed.

Lemma costs_score_minus points :
  0 <= points → costs (Z.to_nat points) (score_minus points).
Proof. intros Hp r _. simpl. lia. Qed.

Lemma costs_final : costs 0 final.
Proof. intros r _. simpl. lia. Qed.

(** a block that starts by reporting an error costs nothing as a warning *)
Lemma costs_error {B} message (f : unit → M B) :
  (∀ a, monotone (f a)) → costs 0 (errors_push message ≫= f).
Proof.
  intros Hf r He. exfalso.
  assert (Hg : grows (errors_push message r).1 ((errors_push message ≫= f) r).1)
    by apply Hf.
  destruct Hg as ([k Hk] & _). rewrite He in Hk. simpl in Hk.
  rewrite <- app_assoc in Hk. rewrite <- (app_nil_r (errors r)) in Hk at 1.
  apply app_inv_head in Hk. discriminate.
Qed.

Lemma costs_bind {A B} n k (m : M A) (f : A → M B) :
  monotone m → (∀ a, monotone (f a)) →
  costs n m → (∀ a, costs k (f a)) → costs (n + k) (m ≫= f).
Proof.
  intros Mm Mf Hm Hf r He. unfold mbind, M_bind in *.
  specialize (Mm r). specialize (Hm r).
  destruct (m r) as [r1 [a|message]]; simpl in *.
  - assert (H1 : errors r1 = errors r) by (eapply grows_same_errors; [done|apply Mf|done]).
    specialize (Hm H1). specialize (Hf a r1). rewrite He, H1 in Hf.
    specialize (Hf eq_refl). lia.
  - specialize (Hm He). lia.
Qed.

Lemma costs_try n k (body : M unit) (handler : string → M unit) :
  monotone body → (∀ message, monotone (handler message)) →
  costs n body → (∀ message, costs k (handler message)) →
  costs (n + k) (try_catch body handler).
Proof.
  intros Mb Mh Hb Hh r He. unfold try_catch in *.
  specialize (Mb r). specialize (Hb r).
  destruct (body r) as [r1 [a|message]]; simpl in *.
  - specialize (Hb He). lia.
  - assert (H1 : errors r1 = errors r) by (eapply grows_same_errors; [done|apply Mh|done]).
    specialize (Hb H1). specialize (Hh message r1). rewrite He, H1 in Hh.
    specialize (Hh eq_refl). lia.
Qed.

Lemma costs_when n (b : bool) (body : M unit) : costs n body → costs n (when b body).
Proof. destruct b; [done|]. intros _ r _. simpl. lia. Qed.

Lemma costs_for {A} (c : A → nat) (l : list A) (body : A → M unit) :
  (∀ x, monotone (body x)) → (∀ x, costs (c x) (body x)) →
  costs (list_sum (List.map c l)) (for_of l body).
Proof.
  intros Mb Hb. induction l as [|x l IH]; simpl.
  - intros r _. simpl. lia.
  - apply costs_bind; [done|intros _; by apply monotone_for|done|by intros _].
Qed.

Lemma list_sum_zero {A} (l : list A) : list_sum (List.map (λ _, 0%nat) l) = 0%nat.
Proof. induction l; simpl; [done|lia]. Qed.

(** one step of the count of what a block can cost in warnings *)
Ltac costs_step :=
  first
    [ apply costs_error; intros ?; solve [mono]
    | eapply costs_bind; [solve [mono]|intros ?; solve [mono]| |intros ?]
    | eapply costs_try; [solve [mono]|intros ?; solve [mono]| |intros ?]
    | apply costs_when
    | apply costs_warnings_push
    | apply costs_score_minus; lia
    | apply costs_no_error_mentions
    | apply costs_final
    | apply costs_stateless;
      first [ apply stateless_get | apply stateless_to_string
            | apply stateless_fs_access | apply stateless_readFile
            | apply stateless_readFile_JSON_parse | apply stateless_ret
            | apply stateless_throw ] ].

Lemma costs_file_structure p : costs 0 (file_structure p).
Proof.
  unfold file_structure.
  eapply costs_weaken; [apply (costs_for (λ _, 0%nat))|by rewrite list_sum_zero].
  - intros file. mono.
  - intros file. eapply costs_weaken; [repeat costs_step|vm_compute; lia].
Qed.

Lemma costs_required_fields config : costs 0 (required_fields config).
Proof.
  unfold required_fields.
  eapply costs_weaken; [apply (costs_for (λ _, 0%nat))|by rewrite list_sum_zero].
  - intros field. unfold field_check. mono.
  - intros field. unfold field_check.
    eapply costs_weaken; [repeat costs_step|vm_compute; lia].
Qed.

Lemma costs_configuration p : costs 10 (configuration p).
Proof.
  unfold configuration.
  eapply costs_weaken.
  - eapply costs_bind; [mono|intros ?; apply monotone_when; apply monotone_try;
                          [|intros ?; mono]| |intros ?].
    + unfold required_fields, field_check, version_check, id_check, category_check. mono.
    + apply costs_no_error_mentions.
    + apply costs_when. eapply costs_try; [| |  |intros ?].
      * unfold required_fields, field_check, version_check, id_check, category_check. mono.
      * intros ?. mono.
      * eapply costs_bind; [mono| | |intros ?].
        -- intros ?. unfold required_fields, field_check, version_check, id_check,
             category_check. mono.
        -- repeat costs_step.
        -- eapply costs_bind; [unfold required_fields, field_check; mono| | |intros ?].
           ++ intros ?. unfold version_check, id_check, category_check. mono.
           ++ apply costs_required_fields.
           ++ unfold version_check, id_check, category_check. repeat costs_step.
      * repeat costs_step.
  - vm_compute. lia.
Qed.

Lemma costs_for_free {A} (l : list A) (body : A → M unit) :
  (∀ x, monotone (body x)) → (∀ x, costs 0 (body x)) → costs 0 (for_of l body).
Proof.
  intros Mb Hb. eapply costs_weaken; [by apply (costs_for (λ _, 0%nat))|].
  by rewrite list_sum_zero.
Qed.

Lemma costs_package p : costs 15 (package p).
Proof.
  unfold package.
  eapply costs_weaken.
  - repeat costs_step.
    apply costs_for_free; [intros ?; solve [mono]|intros ?; repeat costs_step].
  - vm_compute. lia.
Qed.

Lemma costs_apply_rule codeData r : costs (rule_cost r) (apply_rule codeData r).
Proof.
  unfold apply_rule, rule_cost. destruct (match_g _ _).
  - destruct (severity r).
    + repeat costs_step.
    + repeat costs_step.
    + eapply costs_weaken; [repeat costs_step|vm_compute; lia].
  - eapply costs_weaken; [repeat costs_step|lia].
Qed.

Lemma costs_code_structure codeData : costs 15 (code_structure codeData).
Proof.
  unfold code_structure, complexity_check.
  eapply costs_weaken; [repeat costs_step|vm_compute; lia].
Qed.

Lemma costs_security_analysis codeData : costs 65 (security_analysis codeData).
Proof.
  unfold security_analysis.
  eapply costs_weaken.
  - eapply costs_bind; [mono|intros ?; apply monotone_security_analysis_tail| |intros ?].
    + apply (costs_for rule_cost); [apply monotone_apply_rule|apply costs_apply_rule].
    + apply costs_code_structure.
  - vm_compute. lia.
Qed.

Lemma costs_integration_code p : costs 65 (integration_code p).
Proof.
  unfold integration_code.
  eapply costs_weaken.
  - eapply costs_bind; [mono|intros ?; mono| |intros ?].
    + apply costs_no_error_mentions.
    + apply costs_when. eapply costs_try; [mono|intros ?; mono| |intros ?].
      * eapply costs_bind; [mono|intros ?; mono| |intros ?].
        -- repeat costs_step.
        -- apply costs_security_analysis.
      * repeat costs_step.
  - vm_compute. lia.
Qed.

Lemma costs_additional p : costs 10 (additional p).
Proof.
  unfold additional.
  eapply costs_weaken; [repeat costs_step|vm_compute; lia].
Qed.

Lemma costs_phases p : costs 100 (phases p).
Proof.
  unfold phases.
  eapply costs_weaken.
  - eapply costs_bind; [mono|intros ?; mono| |intros ?].
    { apply costs_file_structure. }
    eapply costs_bind; [mono|intros ?; mono| |intros ?].
    { apply costs_configuration. }
    eapply costs_bind; [mono|intros ?; mono| |intros ?].
    { apply costs_package. }
    eapply costs_bind; [mono|intros ?; mono| |intros ?].
    { apply costs_integration_code. }
    eapply costs_bind; [mono|intros ?; mono| |intros ?].
    { apply costs_additional. }
    apply costs_final.
  - vm_compute. lia.
Qed.

(** X6. Warnings alone cannot take the score below zero: a run that
    reports no error ends with a score between 0 and 100, and is valid
    exactly when that score is at least 70.  Below 70 is reachable without
    any error: the directory [warned] ends at 50 and is refused. *)
Theorem warnings_cost_at_most_100 :
  (∀ p, errors (validateIntegration p) = [] →
        0 <= score (validateIntegration p) <= 100
        ∧ isValid (validateIntegration p) = (70 <=? score (validateIntegration p)))
  ∧ errors (validateIntegration warned) = []
  ∧ score (validateIntegration warned) = 50
  ∧ isValid (validateIntegration warned) = false.
Proof.
  split; [|by vm_compute].
  intros p He. split; [split|].
  - pose proof (costs_phases p initial He) as H. simpl in H.
    unfold validateIntegration. lia.
  - destruct (monotone_phases p initial) as (_ & _ & H). apply H.
  - unfold validateIntegration in *. rewrite phases_checked in *.
    simpl in *. by rewrite He.
Qed.

Lemma warnings_cost_at_most_100_witness :
  0 <= score (validateIntegration warned) <= 100.
Proof.
  exact (proj1 (proj1 warnings_cost_at_most_100 warned eq_refl)).
Defined.

(** X7. The outer [catch] is reached through [process.cwd()] only. When
    that call throws, the process ends with 1 and no verdict was taken: the
    result object is as it was made, with [isValid] still true. When it
    returns, every phase catches what its statements throw, whatever the
    calls of the file system do, so the verdict is taken, and the process
    ends with 1 exactly when the verdict is negative. In a directory [p]
    this is the result of the validator on [p]. *)
Theorem exit_code_reports_verdict (env : Script.Env) :
  (∀ message, Script.process_cwd env = Thrown message →
     Script.validateIntegration env = (initial, 1))
  ∧ (∀ dir, Script.process_cwd env = Returned dir →
     ∃ r, Script.phases env initial = (r, Returned tt)
          ∧ isValid r = (List.length (errors r) =? 0)%nat && (70 <=? score r)
          ∧ Script.validateIntegration env = (r, if isValid r then 0 else 1))
  ∧ (∀ p, Script.validateIntegration (env_of p)
          = (validateIntegration p, if isValid (validateIntegration p) then 0 else 1)).
Proof.
  split_and!.
  - intros message Hc. unfold Script.validateIntegration. by rewrite Hc.
  - intros dir Hc. unfold Script.validateIntegration. rewrite Hc.
    destruct (script_phases_final env initial) as [r' Hr]. rewrite Hr.
    eexists. split; [reflexivity|]. split; reflexivity.
  - intros p. unfold Script.validateIntegration, validateIntegration.
    rewrite script_of_project, phases_checked. reflexivity.
Qed.

Lemma exit_code_reports_verdict_witness :
  Script.validateIntegration removed = (initial, 1).
Proof.
  exact (proj1 (exit_code_reports_verdict removed)
           "ENOENT: no such file or directory, uv_cwd" eq_refl).
Defined.

(** * Further properties of the texts *)

(** ** The two formats of the metadata *)

(** a pattern anchored at the start matches at the start or nowhere *)
Lemma search_bos_false ns s : search [Bos :: ns] false s = false.
Proof. induction s as [|c s IH]; [done|]. cbn [search exec_here run]. exact IH. Qed.

Lemma star_eos_inv class b s rest :
  star class (run [Eos]) b s = Some rest → Str.all class s = true.
Proof.
  revert b. induction s as [|c s IH]; intros b; [done|].
  cbn [star Str.all]. destruct (class c); [|done].
  destruct (star class (run [Eos]) false s) eqn:Hs; [|done].
  intros [= ->]. by apply (IH false).
Qed.

(** what a starred class took, and what the rest of the pattern got *)
Lemma star_inv class k b s rest :
  star class k b s = Some rest →
  ∃ pre post b', s = pre +:+ post ∧ Str.all class pre = true
                 ∧ k b' post = Some rest.
Proof.
  revert b. induction s as [|c s IH]; intros b.
  - intros H. by exists EmptyString, EmptyString, b.
  - cbn [star]. destruct (class c) eqn:Hc.
    + destruct (star class k false s) eqn:Hs.
      * intros [= ->]. destruct (IH false Hs) as (pre & post & b' & -> & Hp & Hk).
        exists (String c pre), post, b'. split_and!; [done| |done].
        cbn [Str.all]. by rewrite Hc, Hp.
      * intros H. by exists EmptyString, (String c s), b.
    + intros H. by exists EmptyString, (String c s), b.
Qed.

(** a starred class takes all of a run that ends before a character of
    another kind, when the rest of the pattern matches there *)
Lemma star_greedy class k b pre post rest :
  Str.all class pre = true →
  match post with String c _ => class c = false | EmptyString => True end →
  (∀ b', k b' post = Some rest) →
  star class k b (pre +:+ post) = Some rest.
Proof.
  intros Hpre Hpost Hk. revert b. induction pre as [|c pre IH]; intros b.
  - change (EmptyString +:+ post) with post.
    destruct post as [|c post]; cbn [star]; [apply Hk|]. rewrite Hpost. apply Hk.
  - rewrite append_cons. cbn [star Str.all] in *.
    apply andb_prop in Hpre as [-> Hpre]. by rewrite (IH Hpre).
Qed.

(** X8. The id format [/^[a-z0-9-_]+$/] accepts exactly the texts that
    are not empty and are made of lower-case ASCII letters, digits, hyphens
    and underscores. *)
Theorem id_format_accepts (s : string) :
  test id_format s = true ↔ s ≠ EmptyString ∧ Str.all id_char s = true.
Proof.
  split; [|intros [Hs Hc]; by apply test_plus_all].
  unfold test, id_format. destruct s as [|c s]; [done|].
  cbn [search exec_here Str.all].
  change (run [Bos; Plus id_char; Eos] true (String c s))
    with (if id_char c then star id_char (run [Eos]) false s else None).
  destruct (id_char c); [|by rewrite search_bos_false].
  destruct (star id_char (run [Eos]) false s) eqn:Hs; [|by rewrite search_bos_false].
  intros _. split; [done|]. by apply star_eos_inv in Hs.
Qed.

(** a run of one or more digits at the front of the input *)
Lemma plus_digit_inv ns b s rest :
  run (Plus digit :: ns) b s = Some rest →
  ∃ a post b', s = a +:+ post ∧ a ≠ EmptyString ∧ Str.all digit a = true
               ∧ run ns b' post = Some rest.
Proof.
  destruct s as [|c s]; [done|]. cbn [run]. destruct (digit c) eqn:Hc; [|done].
  intros (pre & post & b' & -> & Hpre & Hk)%star_inv.
  exists (String c pre), post, b'. split_and!; [done|done| |done].
  cbn [Str.all]. by rewrite Hc, Hpre.
Qed.

Lemma lit_inv text ns b s rest :
  run (Lit text :: ns) b s = Some rest →
  ∃ post b', s = text +:+ post ∧ run ns b' post = Some rest.
Proof.
  cbn [run]. destruct (Str.strip text s) as [post|] eqn:Hs; [|done].
  intros H. exists post. eexists. split; [by apply strip_some|exact H].
Qed.

Lemma lit_step text ns b post :
  run (Lit text :: ns) b (text +:+ post)
  = run ns (b && (String.length text =? 0)%nat) post.
Proof. cbn [run]. by rewrite strip_self. Qed.

Lemma plus_digit_greedy ns b a post rest :
  a ≠ EmptyString → Str.all digit a = true →
  match post with String c _ => digit c = false | EmptyString => True end →
  (∀ b', run ns b' post = Some rest) →
  run (Plus digit :: ns) b (a +:+ post) = Some rest.
Proof.
  destruct a as [|c a]; [done|]. intros _ Ha Hpost Hk.
  rewrite append_cons. cbn [run Str.all] in *.
  apply andb_prop in Ha as [-> Ha]. by apply star_greedy.
Qed.

(** X9. The version format [/^\d+\.\d+\.\d+$/] accepts exactly the texts
    made of three runs of one or more digits with a dot between them; a
    version with a suffix, as [1.0.0-beta], or with two numbers gets the
    warning. *)
Theorem version_format_accepts (s : string) :
  test version_format s = true
  ↔ ∃ a b c, s = a +:+ "." +:+ b +:+ "." +:+ c
             ∧ (a ≠ EmptyString ∧ b ≠ EmptyString ∧ c ≠ EmptyString)
             ∧ Str.all digit a = true ∧ Str.all digit b = true
             ∧ Str.all digit c = true.
Proof.
  unfold test, version_format. split.
  - assert (H : search [[Bos; Plus digit; Lit "."; Plus digit; Lit "."; Plus digit; Eos]]
                  true s
                = match run [Plus digit; Lit "."; Plus digit; Lit "."; Plus digit; Eos]
                          true s with
                  | Some _ => true | None => false end).
    { destruct s as [|c s]; [done|]. cbn [search exec_here].
      change (run (Bos :: ?ns) true ?s) with (run ns true s).
      destruct (run _ true (String c s)); [done|apply search_bos_false]. }
    rewrite H. clear H.
    destruct (run _ true s) as [rest|] eqn:Hrun; [intros _|done].
    apply plus_digit_inv in Hrun as (a & s1 & b1 & -> & Ha & Hda & Hrun).
    apply lit_inv in Hrun as (s2 & b2 & -> & Hrun).
    apply plus_digit_inv in Hrun as (b & s3 & b3 & -> & Hb & Hdb & Hrun).
    apply lit_inv in Hrun as (s4 & b4 & -> & Hrun).
    apply plus_digit_inv in Hrun as (c & s5 & b5 & -> & Hc & Hdc & Hrun).
    destruct s5; [|done]. rewrite append_nil_r.
    by exists a, b, c.
  - intros (a & b & c & -> & (Ha & Hb & Hc) & Hda & Hdb & Hdc).
    assert (Hrun : run [Plus digit; Lit "."; Plus digit; Lit "."; Plus digit; Eos] true
                     (a +:+ "." +:+ b +:+ "." +:+ c) = Some EmptyString).
    { apply plus_digit_greedy; [done|done|by vm_compute|intros b1].
      rewrite lit_step.
      apply plus_digit_greedy; [done|done|by vm_compute|intros b2].
      rewrite lit_step. rewrite <- (append_nil_r c).
      apply plus_digit_greedy; [done|done|done|done]. }
    destruct a as [|d a]; [done|]. rewrite append_cons in *.
    cbn [search exec_here].
    change (run (Bos :: ?ns) true ?s) with (run ns true s).
    by rewrite Hrun.
Qed.

(** ** The default id and the class name, character by character *)

Lemma default_id_chars_of name : default_id name = Str.map default_id_char name.
Proof.
  rewrite default_id_map. unfold Str.toLowerCase.
  induction name as [|c s IH]; [done|]. cbn [Str.map]. rewrite IH. f_equal.
  unfold default_id_char. by destruct (lower_or_digit (toLower c)).
Qed.

Lemma default_id_char_fixed c :
  Ascii.eqb (default_id_char c) c = plain_id_char c.
Proof. destruct c as [[] [] [] [] [] [] [] []]; by vm_compute. Qed.

Lemma default_id_char_twice c :
  default_id_char (default_id_char c) = default_id_char c.
Proof. destruct c as [[] [] [] [] [] [] [] []]; by vm_compute. Qed.

(** X10. The default id of a text is the text itself exactly when the
    text is made of lower-case ASCII letters, digits and hyphens; taking the
    default id twice gives what taking it once gives. *)
Theorem default_id_fixed_points (name : string) :
  (default_id name = name ↔ Str.all plain_id_char name = true)
  ∧ default_id (default_id name) = default_id name.
Proof.
  split_and!.
  - rewrite default_id_chars_of. induction name as [|c s IH]; [done|].
    cbn [Str.map Str.all]. rewrite <- default_id_char_fixed. split.
    + intros [= Hc Hs]. rewrite Hc, Ascii.eqb_refl. by apply IH.
    + intros [Hc Hs]%andb_prop. apply Ascii.eqb_eq in Hc. rewrite Hc.
      f_equal. by apply IH.
  - rewrite !default_id_chars_of. induction name as [|c s IH]; [done|].
    cbn [Str.map]. by rewrite default_id_char_twice, IH.
Qed.

Lemma map_append f a b : Str.map f (a +:+ b) = Str.map f a +:+ Str.map f b.
Proof.
  induction a as [|c a IH]; [done|]. rewrite append_cons. cbn [Str.map].
  by rewrite IH, append_cons.
Qed.

Lemma join_cons w ws : Str.join "" (w :: ws) = w +:+ Str.join "" ws.
Proof. destruct ws as [|w' ws]; cbn; [by rewrite append_nil_r|done]. Qed.

Lemma toLower_toUpper c : alnum c = true → toLower (toUpper c) = toLower c.
Proof. destruct c as [[] [] [] [] [] [] [] []]; by vm_compute. Qed.

Lemma toLower_toLower c : toLower (toLower c) = toLower c.
Proof. destruct c as [[] [] [] [] [] [] [] []]; by vm_compute. Qed.

Lemma toLowerCase_capitalize word :
  Str.all alnum word = true →
  Str.toLowerCase (capitalize word) = Str.toLowerCase word.
Proof.
  destruct word as [|c word]; [done|]. cbn [Str.all capitalize].
  intros [Hc _]%andb_prop. unfold Str.toLowerCase. cbn [Str.map].
  rewrite (toLower_toUpper c Hc). f_equal.
  induction word as [|d word IH]; [done|]. cbn [Str.map].
  by rewrite toLower_toLower, IH.
Qed.

(** in lower case the class name is the tokens put together *)
Lemma toLowerCase_tokens words :
  Forall (λ word, Str.all alnum word = true) words →
  Str.toLowerCase (Str.join "" (List.map capitalize (List.filter nonempty words)))
  = Str.toLowerCase (Str.join "" words).
Proof.
  induction 1 as [|word words Hw Hws IH]; [done|].
  rewrite join_cons. cbn [List.filter]. destruct word as [|c word].
  - exact IH.
  - change (nonempty (String c word)) with true. cbn [List.map].
    rewrite join_cons. unfold Str.toLowerCase in *.
    rewrite !map_append. fold Str.toLowerCase.
    rewrite (toLowerCase_capitalize _ Hw). unfold Str.toLowerCase. by rewrite IH.
Qed.

Lemma join_split s :
  Str.join "" (Str.split " " s) = keep (λ c, negb (Ascii.eqb c " ")) s.
Proof.
  induction s as [|c s IH]; [done|]. rewrite split_step. cbn [keep].
  destruct (Ascii.eqb c " "); cbn [negb].
  - rewrite join_cons. exact IH.
  - rewrite (split_hd_tl " " s) in IH. rewrite join_cons in *.
    by rewrite append_cons, IH.
Qed.

Lemma keep_spaced s :
  keep (λ c, negb (Ascii.eqb c " "))
    (Str.map (λ c, if negb (alnum c) then " "%char else c) s)
  = keep alnum s.
Proof.
  induction s as [|c s IH]; [done|]. cbn [Str.map keep].
  destruct (alnum c) eqn:Hc; cbn [negb].
  - by rewrite (alnum_not_space c Hc), IH.
  - exact IH.
Qed.

(** X11. The class name that [toPascalCase] makes of a name has the
    letters and digits of the name, in their order, and nothing else: in
    lower case the two are the same text. So it has as many characters as
    the name has letters and digits, and it is empty exactly when the name
    has none. *)
Theorem toPascalCase_letters (str : string) :
  Str.toLowerCase (toPascalCase str) = Str.toLowerCase (keep alnum str)
  ∧ String.length (toPascalCase str) = String.length (keep alnum str)
  ∧ (toPascalCase str = EmptyString ↔ keep alnum str = EmptyString).
Proof.
  assert (H : Str.toLowerCase (toPascalCase str) = Str.toLowerCase (keep alnum str)).
  { unfold toPascalCase. rewrite replace_g_one_char by done. fold nonempty.
    rewrite toLowerCase_tokens, join_split, keep_spaced; [done|].
    apply split_alnum.
    induction str as [|c s IH]; [done|]. simpl. rewrite IH, andb_true_r.
    by destruct (alnum c) eqn:Hc; simpl; [rewrite Hc|]. }
  assert (Hl : String.length (toPascalCase str) = String.length (keep alnum str)).
  { apply (f_equal String.length) in H. unfold Str.toLowerCase in H.
    by rewrite !length_map in H. }
  split_and!; [done|done|].
  destruct (toPascalCase str), (keep alnum str); by split.
Qed.

(** * The scaffolders and the validator *)

(** ** A pattern on a text with holes *)

Lemma In_every_ascii c : In c every_ascii.
Proof.
  unfold every_ascii. rewrite <- (ascii_nat_embedding c).
  apply in_map, in_seq. pose proof (nat_ascii_bounded c). lia.
Qed.

Lemma overlap_true (h class : ascii → bool) c :
  h c = true → class c = true → overlap h class = true.
Proof.
  intros Hh Hc. unfold overlap. apply existsb_exists. exists c.
  split; [apply In_every_ascii|by rewrite Hh].
Qed.

Lemma amatch_text text l s :
  amatch l s → amatch (List.map AChr (list_ascii_of_string text) ++ l) (text +:+ s).
Proof.
  intros Hl. induction text as [|c text IH]; [done|].
  rewrite append_cons. cbn [list_ascii_of_string List.map app]. by constructor.
Qed.

Lemma amatch_star (class : ascii → bool) pre l s :
  Str.all class pre = true → amatch l s → amatch (AStar class :: l) (pre +:+ s).
Proof.
  intros Hpre Hl. induction pre as [|c pre IH]; [by constructor|].
  rewrite append_cons. cbn [Str.all] in Hpre. apply andb_prop in Hpre as [Hc Hpre].
  apply amatch_star_step; [done|by apply IH].
Qed.

(** what the matcher accepts, the atoms accept *)
Lemma run_amatch ns : ∀ l b s rest,
  atoms ns = Some l → run ns b s = Some rest → amatch l s.
Proof.
  induction ns as [|n ns IH]; intros l b s rest Hl Hrun.
  - injection Hl as <-. constructor.
  - cbn [atoms] in Hl. destruct (atoms ns) as [l'|] eqn:Hns; [|done].
    destruct n as [text|class|class|class| |]; try done; injection Hl as <-.
    + apply lit_inv in Hrun as (post & b' & -> & Hrun).
      apply amatch_text. by apply (IH l' b' post rest).
    + destruct s as [|c s]; [done|]. cbn [run] in Hrun.
      destruct (class c) eqn:Hc; [|done].
      apply amatch_one; [done|]. by apply (IH l' false s rest).
    + cbn [run] in Hrun.
      apply star_inv in Hrun as (pre & post & b' & -> & Hpre & Hrun).
      apply amatch_star; [done|]. by apply (IH l' b' post rest).
    + destruct s as [|c s]; [done|]. cbn [run] in Hrun.
      destruct (class c) eqn:Hc; [|done].
      apply star_inv in Hrun as (pre & post & b' & -> & Hpre & Hrun).
      apply amatch_one; [done|]. apply amatch_star; [done|].
      by apply (IH l' b' post rest).
Qed.

Lemma amatch_empty l : amatch l EmptyString → forallb is_star l = true.
Proof.
  intros Hl. remember EmptyString as s eqn:Hs.
  induction Hl as [s|c l s Hl IH|class c l s Hc Hl IH|class l s Hl IH
                  |class c l s Hc Hl IH]; try done.
  cbn [forallb is_star]. by apply IH.
Qed.

Lemma may_chr_star c sym (class : ascii → bool) l :
  may (Chr c :: sym) (AStar class :: l)
  = if (if class c then may sym (AStar class :: l) else false) then true
    else may (Chr c :: sym) l.
Proof. reflexivity. Qed.

Lemma may_hole_chr h sym d l :
  may (Hole h :: sym) (AChr d :: l)
  = if (if h d then may (Hole h :: sym) l else false) then true
    else may sym (AChr d :: l).
Proof. reflexivity. Qed.

Lemma may_hole_one h sym class l :
  may (Hole h :: sym) (AOne class :: l)
  = if (if overlap h class then may (Hole h :: sym) l else false) then true
    else may sym (AOne class :: l).
Proof. reflexivity. Qed.

Lemma may_hole_star h sym class l :
  may (Hole h :: sym) (AStar class :: l)
  = if may (Hole h :: sym) l then true else may sym (AStar class :: l).
Proof. reflexivity. Qed.

Lemma may_hole_skip h sym l : may sym l = true → may (Hole h :: sym) l = true.
Proof.
  intros Hl. destruct l as [|[d|class|class] l]; [done| | |].
  - rewrite may_hole_chr, Hl. by destruct (if h d then _ else _).
  - rewrite may_hole_one, Hl. by destruct (if overlap h class then _ else _).
  - rewrite may_hole_star, Hl. by destruct (may (Hole h :: sym) l).
Qed.

(** [may] misses no match: when the atoms match at the front of a text
    that fills the holes, it says so *)
Lemma may_sound sym s : inst sym s → ∀ l, amatch l s → may sym l = true.
Proof.
  induction 1 as [|c sym s Hi IH|h sym s Hi IH|h c sym s Hc Hi IH].
  - intros l Hl. by apply amatch_empty.
  - intros l. induction l as [|a l IHl]; intros Hl; [done|].
    inversion Hl as [|c' l' s' Hl'|class c' l' s' Hc' Hl'|class l' s' Hl'
                    |class c' l' s' Hc' Hl']; subst.
    + cbn [may]. by rewrite Ascii.eqb_refl, (IH l Hl').
    + cbn [may]. by rewrite Hc', (IH l Hl').
    + rewrite may_chr_star, (IHl Hl'). by destruct (if class c then _ else _).
    + by rewrite may_chr_star, Hc', (IH _ Hl').
  - intros l Hl. by apply may_hole_skip, IH.
  - intros l. induction l as [|a l IHl]; intros Hl; [done|].
    inversion Hl as [|c' l' s' Hl'|class c' l' s' Hc' Hl'|class l' s' Hl'
                    |class c' l' s' Hc' Hl']; subst.
    + by rewrite may_hole_chr, Hc, (IH l Hl').
    + by rewrite may_hole_one, (overlap_true h class c Hc Hc'), (IH l Hl').
    + by rewrite may_hole_star, (IHl Hl').
    + by apply IH.
Qed.

Lemma anywhere_may sym l : may sym l = true → anywhere sym l = true.
Proof. intros Hl. destruct sym; cbn [anywhere]; by rewrite Hl. Qed.

Lemma anywhere_tail i sym l : anywhere sym l = true → anywhere (i :: sym) l = true.
Proof. intros Hl. cbn [anywhere]. rewrite Hl. by destruct (may (i :: sym) l). Qed.

Lemma anywhere_sound sym s :
  inst sym s → ∀ pre t l, s = pre +:+ t → amatch l t → anywhere sym l = true.
Proof.
  induction 1 as [|c sym s Hi IH|h sym s Hi IH|h c sym s Hc Hi IH];
    intros pre t l Hs Hl.
  - destruct pre; [|done]. apply anywhere_may, (may_sound [] EmptyString); [constructor|].
    by rewrite Hs.
  - destruct pre as [|c' pre].
    + apply anywhere_may, (may_sound _ (String c s)); [by constructor|].
      by rewrite Hs.
    + rewrite append_cons in Hs. injection Hs as -> ->.
      apply anywhere_tail. by apply (IH pre t).
  - apply anywhere_tail. by apply (IH pre t).
  - destruct pre as [|c' pre].
    + apply anywhere_may, (may_sound _ (String c s)); [by constructor|].
      by rewrite Hs.
    + rewrite append_cons in Hs. injection Hs as -> ->. by apply (IH pre t).
Qed.

Lemma scan_nil r s :
  (∀ pre t b, s = pre +:+ t → exec_here r b t = None) →
  ∀ skip b, scan r skip b s = [].
Proof.
  induction s as [|c s IH]; intros Hnone skip b.
  - destruct skip; [|done]. cbn [scan]. by rewrite (Hnone EmptyString EmptyString b).
  - assert (Hs : ∀ pre t b, s = pre +:+ t → exec_here r b t = None).
    { intros pre t b' ->. by apply (Hnone (String c pre)). }
    destruct skip as [|k]; cbn [scan]; [|by apply IH].
    rewrite (Hnone EmptyString (String c s) b) by done. by apply IH.
Qed.

Lemma exec_here_quiet sym r s pre t b :
  quiet sym r = true → inst sym s → s = pre +:+ t → exec_here r b t = None.
Proof.
  intros Hq Hi Hs. induction r as [|alt r IH]; [done|].
  cbn [quiet forallb] in Hq. apply andb_prop in Hq as [Halt Hq].
  cbn [exec_here]. destruct (run alt b t) as [rest|] eqn:Hrun; [|by apply IH].
  destruct (atoms alt) as [l|] eqn:Hl; [|done].
  apply negb_true_iff in Halt.
  by rewrite (anywhere_sound sym s Hi pre t l Hs (run_amatch alt l b t rest Hl Hrun))
    in Halt.
Qed.

(** a pattern that is quiet on a text with holes has no match in the
    texts that fill them *)
Lemma quiet_sound sym r s :
  quiet sym r = true → inst sym s → match_g r s = None.
Proof.
  intros Hq Hi. unfold match_g. rewrite scan_nil; [done|].
  intros pre t b Hs. by apply (exec_here_quiet sym r s pre t b).
Qed.

Lemma inst_text t sym s : inst sym s → inst (of_text t ++ sym) (t +:+ s).
Proof.
  intros Hi. induction t as [|c t IH]; [done|].
  rewrite append_cons. by constructor.
Qed.

Lemma inst_text_end t : inst (of_text t) t.
Proof.
  pose proof (inst_text t [] EmptyString inst_nil) as Hi.
  by rewrite app_nil_r, append_nil_r in Hi.
Qed.

Lemma inst_hole (h : ascii → bool) w sym s :
  Str.all h w = true → inst sym s → inst (Hole h :: sym) (w +:+ s).
Proof.
  intros Hw Hi. induction w as [|c w IH]; [by constructor|].
  rewrite append_cons. cbn [Str.all] in Hw. apply andb_prop in Hw as [Hc Hw].
  apply inst_hole_step; [done|by apply IH].
Qed.

Lemma inst_emitted name description :
  Str.all scan_safe name = true → Str.all scan_safe description = true →
  inst emitted_sym (integration_js_emitted name description).
Proof.
  intros Hn Hd. unfold emitted_sym, integration_js_emitted.
  pose proof (toPascalCase_alnum name) as HP.
  repeat first [ apply inst_text_end
               | apply inst_text
               | apply (inst_hole _ _ _ _ Hn)
               | apply (inst_hole _ _ _ _ Hd)
               | apply (inst_hole _ _ _ _ HP) ].
Qed.

(** ** The source that is copied from the template *)

Lemma tail_joined : template_tail = Str.join "this.config.name" tail_pieces.
Proof. by vm_compute. Qed.

Lemma tail_pieces_clean : forallb (clean "this.config.name") tail_pieces = true.
Proof. by vm_compute. Qed.

Lemma join_cons2 sep p q rest :
  Str.join sep (p :: q :: rest) = p +:+ sep +:+ Str.join sep (q :: rest).
Proof. reflexivity. Qed.

(** replacing a text between pieces that do not hold it *)
Lemma replace_pieces lit repl pieces :
  lit ≠ EmptyString →
  (∀ before found after, expand repl before found after = repl) →
  forallb (clean lit) pieces = true →
  ∀ b seen,
    replace_go [[Lit lit]] repl 0 b seen (Str.join lit pieces) = Str.join repl pieces.
Proof.
  intros Hlit Hrepl. induction pieces as [|p pieces IH]; intros Hc b seen.
  - cbn [Str.join replace_go]. rewrite exec_here_lit. by destruct lit.
  - cbn [forallb] in Hc. apply andb_prop in Hc as [Hp Hc].
    destruct pieces as [|q pieces].
    + cbn [Str.join]. rewrite <- (append_nil_r p) at 1.
      destruct (replace_clean lit repl p EmptyString Hp b seen) as (b' & seen' & ->).
      cbn [replace_go]. rewrite exec_here_lit.
      destruct lit; [done|]. by rewrite append_nil_r.
    + rewrite !join_cons2.
      destruct (replace_clean lit repl p (lit +:+ Str.join lit (q :: pieces)) Hp b seen)
        as (b1 & s1 & ->).
      destruct (replace_match lit repl (Str.join lit (q :: pieces)) Hlit b1 s1)
        as (before & b2 & s2 & ->).
      by rewrite Hrepl, (IH Hc).
Qed.

(** the copied source, piece by piece *)
Lemma copied_pieces name :
  Str.all no_dollar name = true →
  integration_js_copied name
  = template_head +:+ toPascalCase name
    +:+ Str.join (String dquote name +:+ String dquote "") tail_pieces.
Proof.
  intros Hn. unfold integration_js_copied. cbv zeta. rewrite copied_class_name.
  unfold replace_g.
  destruct (replace_clean "this.config.name" (String dquote name +:+ String dquote "")
              template_head (toPascalCase name +:+ template_tail)
              ltac:(by vm_compute) true [])
    as (b1 & s1 & ->).
  f_equal. rewrite tail_space.
  destruct (replace_after_alnum (String dquote name +:+ String dquote "")
              (toPascalCase name) (substring 1 (String.length template_tail) template_tail)
              (toPascalCase_alnum name) b1 s1)
    as (b2 & s2 & ->).
  f_equal. rewrite <- tail_space, tail_joined.
  apply replace_pieces; [done| |apply tail_pieces_clean].
  intros before found after. apply expand_plain.
  rewrite append_cons. cbn [Str.all]. rewrite all_app. unfold no_dollar in Hn.
  by rewrite Hn.
Qed.

Lemma between_cons2 sep p q rest :
  between sep (p :: q :: rest) = of_text p ++ sep ++ between sep (q :: rest).
Proof. reflexivity. Qed.

Lemma inst_between (h : ascii → bool) name pieces :
  Str.all h name = true →
  inst (between [Chr dquote; Hole h; Chr dquote] pieces)
       (Str.join (String dquote name +:+ String dquote "") pieces).
Proof.
  intros Hn. induction pieces as [|p pieces IH]; [constructor|].
  destruct pieces as [|q pieces]; [apply inst_text_end|].
  rewrite join_cons2, between_cons2. apply inst_text.
  rewrite append_assoc, append_cons. cbn [app]. constructor.
  apply inst_hole; [done|]. rewrite append_cons. constructor. exact IH.
Qed.

Lemma inst_copied name :
  Str.all scan_safe name = true → Str.all no_dollar name = true →
  inst copied_sym (integration_js_copied name).
Proof.
  intros Hn Hd. rewrite (copied_pieces name Hd). unfold copied_sym.
  apply inst_text. apply inst_hole; [apply toPascalCase_alnum|].
  by apply inst_between.
Qed.

(** ** No rule of the table matches in a fresh source *)

Lemma copied_quiet : forallb (λ r, quiet copied_sym (pattern r)) SECURITY_PATTERNS = true.
Proof. by vm_compute. Qed.

Lemma emitted_quiet : forallb (λ r, quiet emitted_sym (pattern r)) SECURITY_PATTERNS = true.
Proof. by vm_compute. Qed.

Lemma rules_quiet sym codeData rules :
  forallb (λ r, quiet sym (pattern r)) rules = true →
  inst sym codeData →
  ∀ r, for_of rules (apply_rule codeData) r = (r, Returned tt).
Proof.
  intros Hq Hi. induction rules as [|x rules IH]; intros r; [done|].
  cbn [forallb] in Hq. apply andb_prop in Hq as [Hx Hq].
  assert (Hx' : apply_rule codeData x = mret tt)
    by (unfold apply_rule; by rewrite (quiet_sound sym (pattern x) codeData Hx Hi)).
  cbn [for_of]. rewrite Hx', bind_ret. by apply IH.
Qed.

(** ** A directory with nothing to report but its source *)

Lemma for_of_noop {A} (l : list A) (body : A → M unit) :
  (∀ x, In x l → ∀ r, body x r = (r, Returned tt)) →
  ∀ r, for_of l body r = (r, Returned tt).
Proof.
  induction l as [|x l IH]; intros Hb r; [done|].
  cbn [for_of]. unfold mbind, M_bind. rewrite (Hb x) by by left.
  apply IH. intros y Hy. apply Hb. by right.
Qed.

Lemma bind_noop {B} (m : M unit) (k : M B) r :
  m r = (r, Returned tt) → (m ;; k) r = k r.
Proof. intros Hm. unfold mbind, M_bind. by rewrite Hm. Qed.

Lemma try_noop (body : M unit) handler r :
  body r = (r, Returned tt) → try_catch body handler r = (r, Returned tt).
Proof. intros Hb. unfold try_catch. by rewrite Hb. Qed.

Lemma gate_open path r :
  errors r = [] → no_error_mentions path r = (r, Returned true).
Proof. intros He. unfold no_error_mentions. by rewrite He. Qed.

Lemma metadata_accepted properties r :
  accepted_metadata properties →
  (required_fields (VObj properties) ;; version_check (VObj properties) ;;
   id_check (VObj properties) ;; category_check (VObj properties)) r
  = (r, Returned tt).
Proof.
  intros (Hf & (v & Hv & Hvt) & (i & Hi & Hit) & (c & Hc & Hct)).
  rewrite bind_noop.
  2:{ apply for_of_noop. intros field Hin s. unfold field_check. cbn [get].
      rewrite bind_ret. by rewrite (Hf field Hin). }
  rewrite bind_noop.
  2:{ unfold version_check. cbn [get]. rewrite bind_ret, Hv.
      cbn [default from_option id]. destruct (JS.truthy (VStr v)); [|done].
      cbn [when]. unfold to_string. cbn [JS.ToString]. by rewrite bind_ret, Hvt. }
  rewrite bind_noop.
  2:{ unfold id_check. cbn [get]. rewrite bind_ret, Hi.
      cbn [default from_option id]. destruct (JS.truthy (VStr i)); [|done].
      cbn [when]. unfold to_string. cbn [JS.ToString]. by rewrite bind_ret, Hit. }
  unfold category_check. cbn [get]. rewrite bind_ret, Hc.
  cbn [default from_option id JS.includes]. by rewrite Hct, andb_false_r.
Qed.

Lemma configuration_accepted p properties r :
  mercy_integration_json p = Content (Json (VObj properties)) →
  accepted_metadata properties → errors r = [] →
  configuration p r = (r, Returned tt).
Proof.
  intros Hp Ha He.
  rewrite (configuration_json p (VObj properties) r Hp (gate_open _ r He)).
  by apply try_noop, metadata_accepted.
Qed.

Lemma warning_skipped message points r : when false (warnings_push message ;; score_minus points) r = (r, Returned tt).
Proof. reflexivity. Qed.

Lemma package_accepted p properties r :
  package_json p = Content (Json (VObj properties)) →
  accepted_manifest properties → errors r = [] →
  package p r = (r, Returned tt).
Proof.
  intros Hp (Hn & Hv & Ht & Hd) He. unfold package.
  unfold mbind at 1, M_bind at 1. rewrite (gate_open _ r He). cbn [when]. rewrite Hp.
  apply try_noop. cbn [readFile_JSON_parse]. rewrite bind_ret. cbn [get].
  rewrite bind_ret, Hn. cbn [negb]. rewrite bind_noop by done.
  rewrite bind_ret, Hv. cbn [negb]. rewrite bind_noop by done.
  rewrite bind_ret, Ht. cbn [default from_option id JS.differs String.eqb Ascii.eqb
    Bool.eqb negb]. rewrite bind_noop by done.
  rewrite bind_ret.
  destruct (JS.truthy (default VUndefined (JS.assoc "dependencies" properties)));
    [|done].
  cbn [when]. apply for_of_noop. intros dep Hin s.
  rewrite forallb_forall in Hd. by rewrite (Hd dep Hin).
Qed.

Lemma total_security_analysis codeData : total (security_analysis codeData).
Proof.
  unfold security_analysis, code_structure, complexity_check.
  apply total_bind; [apply total_for, total_apply_rule|intros _].
  repeat total_step.
Qed.

Lemma integration_code_read p codeData r :
  src_integration_js p = Content codeData → errors r = [] →
  integration_code p r = security_analysis codeData r.
Proof.
  intros Hp He. unfold integration_code.
  unfold mbind at 1, M_bind at 1. rewrite (gate_open _ r He). cbn [when]. rewrite Hp.
  cbn [readFile]. rewrite bind_ret. unfold try_catch.
  destruct (total_security_analysis codeData r) as [[] Ha].
  by destruct (security_analysis codeData r) as [r' [[]|message]].
Qed.

Lemma additional_accepted p readme r :
  README_md p = Content readme → (100 <= String.length readme)%nat →
  test_dir p = true → additional p r = (r, Returned tt).
Proof.
  intros Hp Hl Ht. unfold additional. rewrite Hp. cbn [readFile].
  rewrite bind_ret. apply Nat.ltb_ge in Hl. rewrite Hl. cbn [when].
  rewrite bind_noop by done. unfold fs_access. cbn [String.eqb Ascii.eqb Bool.eqb].
  by rewrite Ht.
Qed.

Lemma phases_accepted (p : Project) (codeData : string) :
  accepted p codeData →
  phases p initial = final (security_analysis codeData initial).1.
Proof.
  intros (metadata & manifest & readme & Hm & Hma & Hp & Hpa & Hs & Hr & Hl & Ht).
  rewrite phases_checked. unfold checked. f_equal.
  assert (Hf : file_structure p initial = (initial, Returned tt)).
  { rewrite file_structure_missing. unfold missing. by rewrite Hm, Hp, Hs, Hr. }
  rewrite Hf. cbn [fst].
  rewrite (configuration_accepted p metadata initial Hm Hma eq_refl). cbn [fst].
  rewrite (package_accepted p manifest initial Hp Hpa eq_refl). cbn [fst].
  rewrite (integration_code_read p codeData initial Hs eq_refl).
  by rewrite (additional_accepted p readme _ Hr Hl Ht).
Qed.

(** X12. In a directory with the four files and the test directory, a
    metadata record with its six fields, a version [x.y.z], an id of the
    format and a category of the list, a manifest with a name, a version,
    the type [module] and dependencies of the list only, and a README of 100
    characters or more, the result is what the scan of the source file
    alone gives from the initial result: its errors, warnings and score are
    those of the scan, and the run is valid exactly when the scan reports no
    error and leaves 70 or more. *)
Theorem accepted_directory_verdict (p : Project) (codeData : string) :
  accepted p codeData →
  let scan := (security_analysis codeData initial).1 in
  phases p initial = final scan
  ∧ errors (validateIntegration p) = errors scan
  ∧ warnings (validateIntegration p) = warnings scan
  ∧ score (validateIntegration p) = score scan
  ∧ (isValid (validateIntegration p) = true ↔ errors scan = [] ∧ 70 <= score scan).
Proof.
  intros Ha scan. pose proof (phases_accepted p codeData Ha) as Hp.
  unfold validateIntegration. rewrite Hp. fold scan. cbn [fst final errors warnings
    score isValid].
  split_and!; [done|done|done|done|].
  rewrite andb_true_iff, Z.leb_le, Nat.eqb_eq.
  destruct (errors scan); cbn [List.length]; split; intros [H1 H2]; by try split.
Qed.

Lemma accepted_directory_verdict_witness :
  phases Samples.hostile initial
  = final (security_analysis Samples.hostile_source initial).1.
Proof.
  refine (proj1 (accepted_directory_verdict Samples.hostile Samples.hostile_source _)).
  exists (match Samples.metadata with VObj l => l | _ => [] end),
         (match Samples.manifest with VObj l => l | _ => [] end),
         Samples.readme.
  split; [reflexivity|]. split.
  { split.
    - intros field Hin. vm_compute in Hin.
      repeat (destruct Hin as [<-|Hin]; [reflexivity|]). destruct Hin.
    - split; [exists "1.0.0"; split; reflexivity|].
      split; [exists "cool-bot"; split; reflexivity|].
      exists "utility". split; reflexivity. }
  split; [reflexivity|]. split.
  { split; [reflexivity|]. split; [reflexivity|]. split; reflexivity. }
  split; [reflexivity|]. split; [reflexivity|]. split; [|reflexivity].
  vm_compute. lia.
Defined.

(** ** A metadata record that is refused *)

Lemma errs_or_throws_always {A} (m : M A) : always_errs m → errs_or_throws m.
Proof. intros Hm r. left. apply Hm. Qed.

Lemma errs_or_throws_bind {A B} (m : M A) (f : A → M B) :
  (∀ a, errs_or_throws (f a)) → errs_or_throws (m ≫= f).
Proof.
  intros Hf r. unfold mbind, M_bind.
  destruct (m r) as [r1 [a|message]]; [apply Hf|]. right. by eexists.
Qed.

Lemma errs_or_throws_bind_l {A B} (m : M A) (f : A → M B) :
  errs_or_throws m → (∀ a, monotone (f a)) → errs_or_throws (m ≫= f).
Proof.
  intros Hm Hf r. unfold mbind, M_bind. specialize (Hm r).
  destruct (m r) as [r1 [a|message]]; simpl in *.
  - destruct Hm as [Hm|[message Hm]]; [|done].
    left. by apply (errors_stay r1); [apply Hf|].
  - right. by eexists.
Qed.

Lemma always_errs_try_either (body : M unit) (handler : string → M unit) :
  errs_or_throws body → (∀ message, always_errs (handler message)) →
  always_errs (try_catch body handler).
Proof.
  intros Hb Hh r. unfold try_catch. specialize (Hb r).
  destruct (body r) as [r1 [a|message]]; simpl in *; [|apply Hh].
  by destruct Hb as [Hb|[message Hb]].
Qed.

Lemma monotone_blocks_tail config :
  monotone (version_check config ;; id_check config ;; category_check config).
Proof. unfold version_check, id_check, category_check. mono. Qed.

Lemma monotone_field_check config field : monotone (field_check config field).
Proof. unfold field_check. mono. Qed.

Lemma always_errs_field properties field :
  JS.truthy (default VUndefined (JS.assoc field properties)) = false →
  always_errs (field_check (VObj properties) field).
Proof.
  intros Hf. unfold field_check. cbn [get]. rewrite bind_ret, Hf. cbn [negb when].
  apply always_errs_bind_l; [apply always_errs_errors_push|intros _; mono].
Qed.

Lemma always_errs_id properties i :
  JS.assoc "id" properties = Some (VStr i) → i ≠ EmptyString →
  test id_format i = false →
  always_errs (id_check (VObj properties)).
Proof.
  intros Hi Hne Ht. unfold id_check. cbn [get]. rewrite bind_ret, Hi.
  cbn [default from_option id JS.truthy].
  destruct (String.eqb_spec i ""); [done|]. cbn [negb when].
  unfold to_string. cbn [JS.ToString]. rewrite bind_ret, Ht. cbn [negb when].
  apply always_errs_bind_l; [apply always_errs_errors_push|intros _; mono].
Qed.

(** X13. A metadata record in which one of the six required fields is
    missing or falsy, or whose id is a text that does not have the format,
    fails the run, whatever else the directory holds. *)
Theorem refused_metadata_fails (p : Project) properties :
  mercy_integration_json p = Content (Json (VObj properties)) →
  (∃ field, In field REQUIRED_CONFIG_FIELDS
            ∧ JS.truthy (default VUndefined (JS.assoc field properties)) = false)
  ∨ (∃ i, JS.assoc "id" properties = Some (VStr i) ∧ i ≠ EmptyString
          ∧ test id_format i = false) →
  isValid (validateIntegration p) = false.
Proof.
  intros Hp H.
  apply invalid_of_errors, (errors_stay _ _ (validate_grows_configuration p)).
  unfold configuration. apply always_errs_gate. rewrite Hp.
  cbn [readFile_JSON_parse]. rewrite bind_ret.
  apply always_errs_try_either.
  2:{ intros message. apply always_errs_bind_l;
        [apply always_errs_errors_push|intros _; mono]. }
  destruct H as [(field & Hin & Hf)|(i & Hi & Hne & Ht)].
  - apply errs_or_throws_bind_l; [|intros _; apply monotone_blocks_tail].
    apply errs_or_throws_always.
    apply (always_errs_for _ _ field Hin);
      [apply total_field_check|apply monotone_field_check|by apply always_errs_field].
  - apply errs_or_throws_bind. intros _. apply errs_or_throws_bind. intros _.
    apply errs_or_throws_bind_l; [|intros _; unfold category_check; mono].
    apply errs_or_throws_always. by apply (always_errs_id properties i).
Qed.

Lemma refused_metadata_fails_witness :
  isValid (validateIntegration
             (with_metadata Samples.tidy
                (VObj [("id", VStr "Cool Bot"); ("name", VStr "Cool Bot");
                       ("version", VStr "1.0.0");
                       ("description", VStr "Greets new members");
                       ("category", VStr "utility");
                       ("developer", VObj [])]))) = false.
Proof.
  refine (refused_metadata_fails
            (with_metadata Samples.tidy (VObj [("id", VStr "Cool Bot"); _; _; _; _; _]))
            [("id", VStr "Cool Bot"); _; _; _; _; _] eq_refl _).
  right. exists "Cool Bot". split; [reflexivity|]. split; [discriminate|reflexivity].
Defined.

(** ** What the scaffolders write *)

Lemma id_format_nonempty i : test id_format i = true → i ≠ EmptyString.
Proof. by destruct i. Qed.

Lemma scaffold_id_valid a :
  well_answered a → test id_format (Scaffold.id a) = true.
Proof.
  intros (Hn & _ & Hi & _). unfold Scaffold.id, integration_id.
  destruct Hi as [->|Hi].
  - cbn [String.length Nat.eqb]. apply test_plus_all; [|apply default_id_chars].
    intros H. pose proof (default_id_length (Scaffold.name a)) as Hl.
    rewrite H in Hl. by destruct (Scaffold.name a).
  - pose proof (id_format_nonempty _ Hi) as Hne.
    by destruct (Scaffold.id_answer a).
Qed.

Lemma truthy_text t : t ≠ EmptyString → JS.truthy (VStr t) = true.
Proof. intros Ht. cbn [JS.truthy]. by destruct (String.eqb_spec t ""). Qed.

Lemma scaffold_metadata_accepted a :
  well_answered a →
  ∃ properties, Scaffold.integrationConfig a = VObj properties
                ∧ accepted_metadata properties.
Proof.
  intros Ha. pose proof (scaffold_id_valid a Ha) as Hid.
  destruct Ha as (Hn & Hd & _ & Hc).
  eexists. split; [reflexivity|]. split_and!.
  - intros field Hin.
    destruct Hin as [<-|[<-|[<-|[<-|[<-|[<-|[]]]]]]];
      cbn [JS.assoc String.eqb Ascii.eqb Bool.eqb andb default from_option id].
    + by apply truthy_text, id_format_nonempty.
    + by apply truthy_text.
    + done.
    + by apply truthy_text.
    + apply truthy_text. destruct (Scaffold.category a); [done|].
      cbn [String.length Nat.eqb]. done.
    + done.
  - by exists "1.0.0".
  - by exists (Scaffold.id a).
  - eexists. split; [reflexivity|].
    destruct Hc as [->|Hc]; [done|].
    by destruct (Scaffold.category a).
Qed.

Lemma scaffold_manifest_accepted validate a :
  well_answered a →
  ∃ properties, Scaffold.packageJson validate a = VObj properties
                ∧ accepted_manifest properties.
Proof.
  intros Ha. pose proof (scaffold_id_valid a Ha) as Hid.
  eexists. split; [reflexivity|]. split_and!.
  - cbn [JS.assoc String.eqb Ascii.eqb Bool.eqb andb default from_option id].
    by apply truthy_text, id_format_nonempty.
  - done.
  - done.
  - done.
Qed.

Lemma scaffold_readme_long a : (100 <= String.length (Scaffold.readme a))%nat.
Proof.
  unfold Scaffold.readme. rewrite !length_append.
  cbn [String.length]. lia.
Qed.

Lemma scaffold_is_accepted (validate source : string) (a : Scaffold.Answers) :
  well_answered a → accepted (Scaffold.directory validate source a) source.
Proof.
  intros Ha.
  destruct (scaffold_metadata_accepted a Ha) as (metadata & Hm & Hma).
  destruct (scaffold_manifest_accepted validate a Ha) as (manifest & Hp & Hpa).
  exists metadata, manifest, (Scaffold.readme a).
  unfold Scaffold.directory. cbn [mercy_integration_json package_json
    src_integration_js README_md test_dir]. rewrite Hm, Hp.
  split_and!; [done|done|done|done|done|done|apply scaffold_readme_long|done].
Qed.

(** X14. For a name and a description that are not empty, an id left
    empty or of the format, and a category left empty or of the list, what
    either scaffolder writes beside the source file passes its phases: the
    result of a run in the new directory is what the scan of the source
    file alone gives. *)
Theorem scaffold_accepted (validate source : string) (a : Scaffold.Answers) :
  well_answered a →
  accepted (Scaffold.directory validate source a) source
  ∧ phases (Scaffold.directory validate source a) initial
    = final (security_analysis source initial).1.
Proof.
  intros Ha. pose proof (scaffold_is_accepted validate source a Ha) as Hacc.
  split; [exact Hacc|]. by apply phases_accepted.
Qed.

Lemma scaffold_accepted_witness :
  phases (Scaffold.copied cool_bot) initial
  = final (security_analysis (integration_js_copied "Cool Bot") initial).1.
Proof.
  refine (proj2 (scaffold_accepted "node ../scripts/validate-integration.js"
                   (integration_js_copied "Cool Bot") cool_bot _)).
  split; [discriminate|]. split; [discriminate|]. split; left; reflexivity.
Defined.

(** ** A fresh scaffold *)

Lemma scan_safe_no_paren s : Str.all scan_safe s = true → no_paren s = true.
Proof.
  apply all_impl. intros c Hc.
  destruct (Ascii.eqb_spec c "(") as [->|]; [by vm_compute in Hc|done].
Qed.

Lemma complexity_check_cases codeData :
  complexity_check codeData initial = (initial, Returned tt)
  ∨ complexity_check codeData initial
    = ({| errors := [];
          warnings := ["High code complexity: " +:+ Str.of_nat (complexity codeData)
                       +:+ " (consider simplifying)"];
          score := 90; isValid := true |}, Returned tt).
Proof.
  unfold complexity_check. destruct (1000 <? complexity codeData)%nat; [right|left]; done.
Qed.

(** X15. The directory that [scripts/init-integration.js] makes is valid
    as it is written, when the prompts are answered as above and the name
    has no opening parenthesis, dot, underscore or dollar: no rule of the
    table matches in the copied template, whatever the name is otherwise,
    and both markers are there. Nothing is reported but, for a source that
    is counted as complex, the complexity warning. *)
Theorem fresh_copy_is_valid (a : Scaffold.Answers) :
  well_answered a →
  Str.all scan_safe (Scaffold.name a) = true →
  Str.all no_dollar (Scaffold.name a) = true →
  let source := integration_js_copied (Scaffold.name a) in
  let result := validateIntegration (Scaffold.copied a) in
  security_analysis source initial = complexity_check source initial
  ∧ errors result = [] ∧ isValid result = true ∧ 90 <= score result
  ∧ ((complexity source <= 1000)%nat →
     result = {| errors := []; warnings := []; score := 100; isValid := true |}).
Proof.
  intros Ha Hn Hd source result.
  assert (Hs : security_analysis source initial = complexity_check source initial).
  { unfold security_analysis.
    rewrite bind_noop
      by apply (rules_quiet copied_sym source _ copied_quiet (inst_copied _ Hn Hd)).
    destruct (copied_markers (Scaffold.name a)) as [H1 H2].
    unfold code_structure. fold source in H1, H2. by rewrite H1, H2. }
  split; [done|].
  unfold result, validateIntegration, Scaffold.copied.
  rewrite (phases_accepted _ source (scaffold_is_accepted _ source a Ha)), Hs.
  split_and!.
  - by destruct (complexity_check_cases source) as [-> | ->].
  - by destruct (complexity_check_cases source) as [-> | ->].
  - by destruct (complexity_check_cases source) as [-> | ->].
  - intros Hc. unfold complexity_check. apply Nat.ltb_ge in Hc. by rewrite Hc.
Qed.

Lemma fresh_copy_is_valid_witness :
  isValid (validateIntegration (Scaffold.copied cool_bot)) = true.
Proof.
  refine (proj1 (proj2 (proj2 (fresh_copy_is_valid cool_bot _ eq_refl eq_refl)))).
  split; [discriminate|]. split; [discriminate|]. split; left; reflexivity.
Defined.

(** X16. The directory that the [initIntegration] of the consolidated
    module makes is valid as well, for a name and a description without
    opening parenthesis, dot and underscore, but never clean: the class it
    writes inherits [onLoad], so the run warns that [onLoad] is missing and
    ends with 95, or with 85 for a source counted as complex. *)
Theorem fresh_emitted_is_warned (a : Scaffold.Answers) :
  well_answered a →
  Str.all scan_safe (Scaffold.name a) = true →
  Str.all scan_safe (Scaffold.description a) = true →
  let result := validateIntegration (Scaffold.emitted a) in
  errors result = [] ∧ isValid result = true
  ∧ hd_error (warnings result) = Some "Integration should implement onLoad() method"
  ∧ (score result = 95 ∨ score result = 85).
Proof.
  intros Ha Hn Hd result.
  set (source := integration_js_emitted (Scaffold.name a) (Scaffold.description a)).
  assert (Hs : security_analysis source initial
               = complexity_check source
                   {| errors := [];
                      warnings := ["Integration should implement onLoad() method"];
                      score := 95; isValid := true |}).
  { unfold security_analysis.
    rewrite bind_noop
      by apply (rules_quiet emitted_sym source _ emitted_quiet (inst_emitted _ _ Hn Hd)).
    destruct (emitted_markers (Scaffold.name a) (Scaffold.description a)) as [H1 H2].
    specialize (H2 (scan_safe_no_paren _ Hn) (scan_safe_no_paren _ Hd)).
    unfold code_structure. fold source in H1, H2. by rewrite H1, H2. }
  unfold result, validateIntegration, Scaffold.emitted.
  rewrite (phases_accepted _ source (scaffold_is_accepted _ source a Ha)), Hs.
  unfold complexity_check.
  destruct (1000 <? complexity source)%nat; split_and!; try done;
    first [by left|by right].
Qed.

Lemma fresh_emitted_is_warned_witness :
  isValid (validateIntegration (Scaffold.emitted cool_bot)) = true.
Proof.
  refine (proj1 (proj2 (fresh_emitted_is_warned cool_bot _ eq_refl eq_refl))).
  split; [discriminate|]. split; [discriminate|]. split; left; reflexivity.
Defined.

(** * The base class *)

(** ** The settings cache *)






(** X18. [setSetting] writes the cache before it calls the host, and
    [saveSettings] catches what the host throws: after it the key reads as
    the value, or as the default when the value is falsy, the other keys
    read as before, and the call returns even when nothing was stored,
    provided the name of the integration can be printed for the log. *)
Theorem setSetting_keeps_value (updated : outcome unit) (this : instance)
    (key : string) (v d : value) :
  let after := (Base.setSetting updated this key v).1 in
  getSetting after key d = JS.or v (or_null d)
  ∧ (∀ other, other ≠ key → getSetting after other d = getSetting this other d)
  ∧ config after = config this
  ∧ (∀ t, Base.log_prefix this = Returned t →
          (Base.setSetting updated this key v).2 = Returned tt).
Proof.
  cbv zeta. unfold Base.setSetting, getSetting, settings_get, settings_set.
  cbn [fst snd settings config]. split_and!.
  - by rewrite lookup_insert_eq.
  - intros other Hne. by rewrite lookup_insert_ne.
  - done.
  - intros t Ht. unfold Base.saveSettings. destruct updated; [done|].
    unfold Base.log_prefix in *. cbn [config] in *. by rewrite Ht.
Qed.

Lemma setSetting_keeps_value_witness :
  (Base.setSetting Base.unimplemented
     (constructor (VObj [("name", VStr "Cool Bot")])) "prefix" (VStr "?")).2
  = Returned tt.
Proof.
  exact (proj2 (proj2 (proj2 (setSetting_keeps_value Base.unimplemented
           (constructor (VObj [("name", VStr "Cool Bot")])) "prefix" (VStr "?")
           VUndefined))) "[Cool Bot]" eq_refl).
Defined.

(** ** The uptime *)

(** X19. For a start that is not in the future, [getUptime] writes the
    whole minutes that have passed as hours and minutes: the minutes are
    below 60, and sixty times the hours plus the minutes is the time passed
    in milliseconds divided by 60000, rounded down. Before [initialize] has
    set the start it writes [NaNh NaNm]. *)
Theorem getUptime_whole_minutes (now start : Z) :
  start <= now →
  ∃ h m, Base.getUptime now (Some start)
         = Base.of_Z h +:+ "h " +:+ Base.of_Z m +:+ "m"
         ∧ 0 <= h ∧ 0 <= m < 60
         ∧ h * 60 + m = (now - start) / 60000
         ∧ Base.getUptime now None = "NaNh NaNm".
Proof.
  intros Hle. exists (Base.hours (now - start)), (Base.minutes (now - start)).
  split; [done|]. unfold Base.hours, Base.minutes.
  rewrite Z.rem_mod_nonneg by lia.
  change (1000 * 60 * 60) with 3600000. change (1000 * 60) with 60000.
  split_and!; [| | | |done]; Z.div_mod_to_equations; lia.
Qed.

Lemma getUptime_whole_minutes_witness :
  ∃ h m, Base.getUptime 1700003725000 (Some 1700000000000)
         = Base.of_Z h +:+ "h " +:+ Base.of_Z m +:+ "m"
         ∧ 0 <= h ∧ 0 <= m < 60
         ∧ h * 60 + m = (1700003725000 - 1700000000000) / 60000
         ∧ Base.getUptime 1700003725000 None = "NaNh NaNm".
Proof. apply (getUptime_whole_minutes 1700003725000 1700000000000). lia. Defined.
